(** * A shallow embedding of the polite scraper [scraper/bunpro.py]

    The development models the sleep-budget allocator
    ([gen_random_sleeps]), the persistence sink ([save_source_code]),
    the outcome classifier ([process_response]) and the crawl executor
    ([scrape_sites]) and proves properties of them.

    Modelling conventions.
    - Python [str] values are Rocq strings holding the UTF-8 bytes; the
      separators the code splits on (["/"] and ["."]) are ASCII, so a
      split on bytes is a split on characters.
    - Python floats are idealised as exact rationals ([Q]): a delay or
      a budget is the number it denotes and the arithmetic is exact, so
      what is proved of the allocator is what does not depend on
      rounding.
    - Every effect of the program (log records, sleeps, network calls,
      session open and close, file writes, yielded results) is appended
      to one trace kept in the [World]; the answers of the outside
      world (server responses, interrupts, disk faults, clock, random
      bits) are read from an [Environment] of oracles.
    - The functions of [requests] and [urllib.parse] the code calls are
      collected in [Externals]. *)

From Stdlib Require Import QArith Lqa ZArith Lia Ascii String List.
From stdpp Require Import gmap strings list.

Local Open Scope string_scope.
Local Open Scope list_scope.
Local Open Scope nat_scope.

(** ** Strings *)

(** [s.split(sep)] for a separator of one character. The result is never
    empty: [''.split('.')] is [['']]. *)
Fixpoint str_split (sep : ascii) (s : string) : list string :=
  match s with
  | EmptyString => [""]
  | String c rest =>
      if Ascii.eqb c sep then "" :: str_split sep rest
      else match str_split sep rest with
           | piece :: pieces => String c piece :: pieces
           | [] => [String c ""]
           end
  end.

(** [site.split("/")[-1]] *)
Definition trailing_segment (site : string) : string :=
  List.last (str_split "/" site) "".

(** [name.split(".")[0]] *)
Definition before_first_dot (name : string) : string :=
  List.hd "" (str_split "." name).

(** The character [c] occurs in [s]. *)
Fixpoint contains_char (c : ascii) (s : string) : bool :=
  match s with
  | EmptyString => false
  | String c' rest => Ascii.eqb c' c || contains_char c rest
  end.

(** ** Data model *)

(** [ResponseResult = namedtuple("ResponseResult",
      ["action", "site", "sleep_time", "scraped"])] *)
Record ResponseResult := mkResponseResult {
  action : string;
  site : string;
  sleep_time : Q;
  scraped : bool
}.

(** The three actions of the code and the names the specification gives
    them. *)
Definition CONTINUE : string := "scrape".
Definition RETRYABLE_ERROR : string := "error".
Definition HARD_STOP : string := "break".

(** What the code reads of a [requests.Response]. *)
Record Response := mkResponse {
  status_code : Z;
  text : string
}.

(** [requests.exceptions]: [Timeout] and [HTTPError] are subclasses of
    [RequestException]; [ConnectionError] stands for every other
    subclass. *)
Inductive RequestException :=
| HTTPError
| Timeout
| ConnectionError.

(** The log messages and exception messages of the module. *)
Inductive Message :=
| MsgBudgetExceeded
    (* "Minimum sleep times number of requests exceed the maximum total time." *)
| MsgSizeMismatch (len : nat) (n_requests : Z)
    (* "Error generating sleep intervals: {len} != {n_requests}" *)
| MsgCreatingDirectory
    (* "Directory 'grammar_pages' does not exist. Creating it." *)
| MsgSaveFailed (site : string)
    (* "Error saving source code for {site}: {e}" *)
| MsgRateLimit (site : string)
    (* "Rate limit exceeded for {site}. Exiting." *)
| MsgHttpError (site : string)
    (* "HTTP error occurred while scraping {site}: {http_err}" *)
| MsgRequestError (site : string)
    (* "Error scraping {site}: {e}" *)
| MsgTimeout (site : string)
    (* "Timeout occurred while trying to access {site}" *)
| MsgSkipping (site : string)
    (* "Skipping {site} as it has already been scraped." *)
| MsgProcessed (site : string)
    (* "Processed response from {site}" *)
| MsgSessionClosed
    (* "Session closed" *)
| MsgInterrupted
    (* "Scraping interrupted by user." *)
| MsgSessionClosedAfterInterruption
    (* "Session closed after interruption." *)
| MsgNegativeSleep.
    (* time.sleep: "sleep length must be non-negative" *)

Inductive Level := DEBUG | INFO | WARNING | ERROR.

Inductive Exception :=
| ValueError (msg : Message)
| IndexError
| FileNotFoundError
| IOError
| RequestError (e : RequestException)
| KeyboardInterrupt.

(** [BeautifulSoup(markup, "html.parser")] and [soup.prettify()] are kept
    symbolic: a file holds either bytes that were there before, or the
    prettified parse of a response body. *)
Inductive Soup := BeautifulSoup (markup : string).

Inductive FileContent :=
| Bytes (s : string)
| Prettify (soup : Soup).

(** The effects of the program, in one trace. *)
Inductive Event :=
| EvLog (lvl : Level) (msg : Message)
| EvSleep (secs : Q)
| EvSessionOpen (sid : nat)
| EvSessionClose (sid : nat)
| EvGet (via : option nat) (url : string)
| EvMakedirs
| EvWrite (name : string)
| EvYield (r : ResponseResult).

(** The state of the outside world. [grammar_pages] is the output store,
    the directory [../grammar_pages]: [None] when the directory does not
    exist, else the map from file names to contents. The sink reaches
    the directory from the place of the module and the executor lists it
    from the working directory: the program is run from the directory of
    the module, where the two are one. [trace] has the newest event
    first. *)
Record World := mkWorld {
  grammar_pages : option (gmap string FileContent);
  requests_made : nat;
  sessions_created : nat;
  rng_draws : nat;
  trace : list Event
}.

(** What a network call gives back. *)
Inductive FetchResult :=
| Responded (response : Response)
| Failed (e : RequestException)
| Interrupted.

(** The answers of the environment.
    - [network k url]: the result of the [k]-th network call (from 0).
    - [sleep_interrupted k]: a [KeyboardInterrupt] arrives during the
      [time.sleep] that follows when [k] calls have been made.
    - [write_fails name]: [open(name, "w")] raises [IOError].
    - [timestamp k]: what [datetime.now().strftime("%Y%m%d%H%M%S")]
      returns when [k] calls have been made.
    - [entropy k]: the [k]-th value drawn from the random generator. *)
Record Environment := mkEnvironment {
  network : nat -> string -> FetchResult;
  sleep_interrupted : nat -> bool;
  write_fails : string -> bool;
  timestamp : nat -> string;
  entropy : nat -> Z
}.

(** The library functions the code calls.
    - [unquote s] is [urllib.parse.unquote(s)];
    - [quote s safe] is [urllib.parse.quote(s, safe=safe)];
    - [raise_for_status r] is [None] when [r.raise_for_status()] returns
      and [Some e] when it raises [e]. *)
Record Externals := mkExternals {
  unquote : string -> string;
  quote : string -> string -> string;
  raise_for_status : Response -> option RequestException
}.

(** ** The state and exception monad *)

Inductive Result (A : Type) :=
| Ok (a : A)
| Raise (e : Exception).
Arguments Ok {A} a.
Arguments Raise {A} e.

Definition M (A : Type) : Type := World -> Result A * World.

Definition ret {A} (a : A) : M A := fun w => (Ok a, w).

Definition raise {A} (e : Exception) : M A := fun w => (Raise e, w).

Definition bind {A B} (m : M A) (k : A -> M B) : M B :=
  fun w =>
    match m w with
    | (Ok a, w') => k a w'
    | (Raise e, w') => (Raise e, w')
    end.

Notation "'let*' x := c1 'in' c2" := (bind c1 (fun x => c2))
  (at level 10, x name, c1 at level 100, c2 at level 200).
Notation "c1 >> c2" := (bind c1 (fun _ => c2))
  (at level 100, c2 at level 200, right associativity).

(** [try: body  except <handled>: handler]; [handler e] is [None] for an
    exception no clause matches. *)
Definition try_except {A} (body : M A) (handler : Exception -> option (M A))
  : M A :=
  fun w =>
    match body w with
    | (Ok a, w') => (Ok a, w')
    | (Raise e, w') =>
        match handler e with
        | Some h => h w'
        | None => (Raise e, w')
        end
    end.

(** ** Primitive effects *)

Definition emit (e : Event) (w : World) : World :=
  {| grammar_pages := grammar_pages w;
     requests_made := requests_made w;
     sessions_created := sessions_created w;
     rng_draws := rng_draws w;
     trace := e :: trace w |}.

Definition set_grammar_pages (d : option (gmap string FileContent))
    (w : World) : World :=
  {| grammar_pages := d;
     requests_made := requests_made w;
     sessions_created := sessions_created w;
     rng_draws := rng_draws w;
     trace := trace w |}.

Definition count_request (w : World) : World :=
  {| grammar_pages := grammar_pages w;
     requests_made := S (requests_made w);
     sessions_created := sessions_created w;
     rng_draws := rng_draws w;
     trace := trace w |}.

Definition count_session (w : World) : World :=
  {| grammar_pages := grammar_pages w;
     requests_made := requests_made w;
     sessions_created := S (sessions_created w);
     rng_draws := rng_draws w;
     trace := trace w |}.

Definition count_draw (w : World) : World :=
  {| grammar_pages := grammar_pages w;
     requests_made := requests_made w;
     sessions_created := sessions_created w;
     rng_draws := S (rng_draws w);
     trace := trace w |}.

(** [logging.debug], [logging.info], [logging.warning], [logging.error] *)
Definition logging (lvl : Level) (msg : Message) : M unit :=
  fun w => (Ok tt, emit (EvLog lvl msg) w).

Definition Qlt_bool (x y : Q) : bool := negb (Qle_bool y x).

(** ** The program *)

Section Program.

Variable ext : Externals.
Variable env : Environment.

(** *** Operating system, clock and random generator *)

(** [time.sleep(secs)]: a negative length raises [ValueError]; the wait
    can be cut short by a [KeyboardInterrupt]. *)
Definition time_sleep (secs : Q) : M unit :=
  fun w =>
    if Qlt_bool secs 0 then (Raise (ValueError MsgNegativeSleep), w)
    else if sleep_interrupted env (requests_made w)
         then (Raise KeyboardInterrupt, w)
         else (Ok tt, emit (EvSleep secs) w).

(** [random.random()]: 53 random bits over [2^53], a value in [[0, 1)]. *)
Definition random_random : M Q :=
  fun w =>
    (Ok (Qmake (entropy env (rng_draws w) mod 2 ^ 53) (2 ^ 53)),
     count_draw w).

(** [random.uniform(a, b)] is [a + (b - a) * random()]. *)
Definition random_uniform (a b : Q) : M Q :=
  let* r := random_random in
  ret (a + (b - a) * r)%Q.

(** [random._randbelow(n)]: an integer of [range(n)] chosen by the
    generator. *)
Definition randbelow (n : nat) : M nat :=
  fun w =>
    (Ok (Z.to_nat (entropy env (rng_draws w) mod Z.of_nat n)),
     count_draw w).

(** [os.path.exists(grammar_pages_dir)] *)
Definition dir_exists : M bool :=
  fun w =>
    (Ok (match grammar_pages w with Some _ => true | None => false end), w).

(** [os.makedirs(grammar_pages_dir)] *)
Definition os_makedirs : M unit :=
  fun w => (Ok tt, set_grammar_pages (Some ∅) (emit EvMakedirs w)).

(** [os.path.exists(filename)] for a file of the output store. *)
Definition file_exists (filename : string) : M bool :=
  fun w =>
    (Ok (match grammar_pages w with
         | Some files =>
             match files !! filename with Some _ => true | None => false end
         | None => false
         end), w).

(** [dt.datetime.now().strftime("%Y%m%d%H%M%S")] *)
Definition now_strftime : M string :=
  fun w => (Ok (timestamp env (requests_made w)), w).

(** [with open(filename, "w", encoding="utf-8") as file:
       file.write(content)] *)
Definition open_write (filename : string) (content : FileContent) : M unit :=
  fun w =>
    match grammar_pages w with
    | None => (Raise FileNotFoundError, w)
    | Some files =>
        if write_fails env filename then (Raise IOError, w)
        else (Ok tt,
              emit (EvWrite filename)
                (set_grammar_pages (Some (<[filename := content]> files)) w))
    end.

(** [os.listdir("../grammar_pages")] *)
Definition os_listdir : M (list string) :=
  fun w =>
    match grammar_pages w with
    | None => (Raise FileNotFoundError, w)
    | Some files => (Ok (map fst (map_to_list files)), w)
    end.

(** [except IOError] catches [OSError] and its subclasses, among them
    [FileNotFoundError] and [requests.exceptions.RequestException]. *)
Definition is_IOError (e : Exception) : bool :=
  match e with
  | IOError | FileNotFoundError | RequestError _ => true
  | _ => false
  end.

(** *** [gen_random_sleeps] *)

(** The body of [for i in range(n_requests)], over the indices still to
    visit. [remaining_time / (n_requests - i)] divides by a number that is
    at least 1, since [i] ranges over [range(n_requests)]. *)
Fixpoint fill_loop (n_requests : Z) (indices : list nat)
    (remaining_time : Q) (sleep_intervals : list Q) : M (Q * list Q) :=
  match indices with
  | [] => ret (remaining_time, sleep_intervals)
  | i :: indices' =>
      if Qle_bool remaining_time 0 then ret (remaining_time, sleep_intervals)
      else
        let max_additional_sleep :=
          (remaining_time / inject_Z (n_requests - Z.of_nat i))%Q in
        let* additional_sleep := random_uniform 0 max_additional_sleep in
        match sleep_intervals !! i with
        | None => raise IndexError
        | Some interval =>
            fill_loop n_requests indices'
              (remaining_time - additional_sleep)%Q
              (<[i := (interval + additional_sleep)%Q]> sleep_intervals)
        end
  end.

(** The body of [random.shuffle]:
    [for i in reversed(range(1, len(x))):
       j = randbelow(i + 1); x[i], x[j] = x[j], x[i]] *)
Fixpoint shuffle_loop (indices : list nat) (x : list Q) : M (list Q) :=
  match indices with
  | [] => ret x
  | i :: indices' =>
      let* j := randbelow (i + 1) in
      match x !! i, x !! j with
      | Some xi, Some xj => shuffle_loop indices' (<[j := xi]> (<[i := xj]> x))
      | _, _ => raise IndexError
      end
  end.

Definition random_shuffle (x : list Q) : M (list Q) :=
  shuffle_loop (reverse (seq 1 (length x - 1))) x.

Definition gen_random_sleeps (min_sleep max_total_time : Q) (n_requests : Z)
  : M (list Q) :=
  if Qlt_bool max_total_time (inject_Z n_requests * min_sleep)%Q then
    logging ERROR MsgBudgetExceeded >>
    raise (ValueError MsgBudgetExceeded)
  else
    let remaining_time :=
      (max_total_time - inject_Z n_requests * min_sleep)%Q in
    let sleep_intervals := replicate (Z.to_nat n_requests) min_sleep in
    let* filled :=
      fill_loop n_requests (seq 0 (Z.to_nat n_requests))
        remaining_time sleep_intervals in
    let sleep_intervals := snd filled in
    if negb (Z.of_nat (length sleep_intervals) =? n_requests)%Z then
      let error_msg := MsgSizeMismatch (length sleep_intervals) n_requests in
      logging ERROR error_msg >>
      raise (ValueError error_msg)
    else
      random_shuffle sleep_intervals.

(** *** [save_source_code] *)

Definition save_source_code (soup : Soup) (site : string) : M unit :=
  let filename := unquote ext (trailing_segment site) +:+ ".html" in
  let* present := dir_exists in
  (if negb present
   then logging WARNING MsgCreatingDirectory >> os_makedirs
   else ret tt) >>
  let* taken := file_exists filename in
  let* filename :=
    (if taken : bool
     then let* stamp := now_strftime in
          ret (filename +:+ "_" +:+ stamp +:+ ".html")
     else ret filename) in
  try_except (open_write filename (Prettify soup))
    (fun e =>
       if is_IOError e then Some (logging ERROR (MsgSaveFailed site))
       else None).

(** *** [process_response] *)

Definition process_response (response : Response) (site : string)
    (sleep_time : Q) : M ResponseResult :=
  try_except
    ((match raise_for_status ext response with
      | Some e => raise (RequestError e)
      | None => ret tt
      end) >>
     if (status_code response =? 429)%Z then
       logging ERROR (MsgRateLimit site) >>
       ret (mkResponseResult "break" site sleep_time false)
     else
       time_sleep sleep_time >>
       let soup := BeautifulSoup (text response) in
       save_source_code soup site >>
       ret (mkResponseResult "scrape" site sleep_time true))
    (fun e =>
       match e with
       | RequestError HTTPError =>
           Some (logging ERROR (MsgHttpError site) >>
                 ret (mkResponseResult "error" site sleep_time false))
       | RequestError _ =>
           Some (logging ERROR (MsgRequestError site) >>
                 ret (mkResponseResult "error" site sleep_time false))
       | _ => None
       end).

(** *** [scrape_sites] *)

(** [requests.Session()] *)
Definition requests_Session : M nat :=
  fun w =>
    let sid := sessions_created w in
    (Ok sid, emit (EvSessionOpen sid) (count_session w)).

(** [session.close()] *)
Definition session_close (sid : nat) : M unit :=
  fun w => (Ok tt, emit (EvSessionClose sid) w).

(** [session.get(url, timeout=10)] when [via] is the session,
    [requests.get(url, timeout=10)] when [via] is [None]. *)
Definition http_get (via : option nat) (url : string) : M Response :=
  fun w =>
    let w' := emit (EvGet via url) (count_request w) in
    match network env (requests_made w) url with
    | Responded response => (Ok response, w')
    | Failed e => (Raise (RequestError e), w')
    | Interrupted => (Raise KeyboardInterrupt, w')
    end.

(** [yield result] *)
Definition yield (result : ResponseResult) : M unit :=
  fun w => (Ok tt, emit (EvYield result) w).

(** How one pass through the body of the [for] loop ends: it goes on
    with the next pair, leaves the loop by [break], or an exception leaves
    the loop. *)
Inductive Control :=
| Continue
| Break
| Propagate (e : Exception).

(** The statement [if sleep_time < min_session_interval: ... else: ...]
    up to the call it ends with; the result is the variable [session]
    after it. *)
Definition choose_session (min_session_interval : Q) (session : option nat)
    (sleep_time : Q) (w : World) : option nat * World :=
  if Qlt_bool sleep_time min_session_interval then
    match session with
    | None =>
        let sid := sessions_created w in
        (Some sid, snd (requests_Session w))
    | Some sid => (Some sid, w)
    end
  else
    match session with
    | Some sid => (None, snd (session_close sid w))
    | None => (None, w)
    end.

(** The rest of the [try] block: the call, the classification, [break]
    or [yield]. *)
Definition try_block (session : option nat) (encoded_site site : string)
    (sleep_time : Q) : M Control :=
  let* response := http_get session encoded_site in
  let* result := process_response response site sleep_time in
  logging DEBUG (MsgProcessed site) >>
  if String.eqb (action result) "break" then ret Break
  else yield result >> ret Continue.

(** [except requests.exceptions.Timeout] and
    [except requests.exceptions.RequestException] *)
Definition except_clauses (site : string) (sleep_time : Q) (e : Exception)
  : option (M Control) :=
  match e with
  | RequestError Timeout =>
      Some (logging ERROR (MsgTimeout site) >>
            yield (mkResponseResult "error" site sleep_time false) >>
            ret Continue)
  | RequestError _ =>
      Some (logging ERROR (MsgRequestError site) >>
            yield (mkResponseResult "error" site sleep_time false) >>
            ret Continue)
  | _ => None
  end.

(** [finally:
       if session is not None and sleep_time >= min_session_interval: ...] *)
Definition finally_clause (min_session_interval : Q) (session : option nat)
    (sleep_time : Q) (w : World) : option nat * World :=
  match session with
  | Some sid =>
      if Qle_bool min_session_interval sleep_time
      then (None,
            snd ((session_close sid >> logging DEBUG MsgSessionClosed) w))
      else (session, w)
  | None => (session, w)
  end.

(** One pass through the body of the [for] loop, from the value of
    [session] before it to the value after it. *)
Definition loop_body (skip_sites : list string) (min_session_interval : Q)
    (session : option nat) (site : string) (sleep_time : Q) (w : World)
  : Control * option nat * World :=
  let unquoted_name := unquote ext (trailing_segment site) in
  if bool_decide (unquoted_name ∈ skip_sites) then
    (Continue, session, snd (logging INFO (MsgSkipping site) w))
  else
    let encoded_site := quote ext site ":/?=&" in
    let '(session, w) :=
      choose_session min_session_interval session sleep_time w in
    let '(r, w) :=
      try_except (try_block session encoded_site site sleep_time)
        (except_clauses site sleep_time) w in
    let '(session, w) :=
      finally_clause min_session_interval session sleep_time w in
    (match r with Ok c => c | Raise e => Propagate e end, session, w).

(** The [for] loop over [zip(sites, times)]. *)
Fixpoint scrape_loop (skip_sites : list string) (min_session_interval : Q)
    (session : option nat) (sites_times : list (string * Q)) (w : World)
  : Control * option nat * World :=
  match sites_times with
  | [] => (Continue, session, w)
  | (site, sleep_time) :: rest =>
      match loop_body skip_sites min_session_interval session
              site sleep_time w with
      | (Continue, session, w) =>
          scrape_loop skip_sites min_session_interval session rest w
      | stopped => stopped
      end
  end.

(** The generator run to its end, as [list(scrape_sites(...))] runs it;
    the results it yields are the [EvYield] events of the trace. *)
Definition scrape_sites (sites : list string) (times : list Q)
    (min_session_interval : Q) : M unit :=
  fun w =>
    let sites_times := zip sites times in
    let session : option nat := None in
    match os_listdir w with
    | (Raise e, w) => (Raise e, w)
    | (Ok skip_sites, w) =>
        let skip_sites := map before_first_dot skip_sites in
        match scrape_loop skip_sites min_session_interval session
                sites_times w with
        | (Propagate KeyboardInterrupt, session, w) =>
            let w := snd (logging INFO MsgInterrupted w) in
            let w :=
              match session with
              | Some sid =>
                  snd ((session_close sid >>
                        logging INFO MsgSessionClosedAfterInterruption) w)
              | None => w
              end in
            (Raise KeyboardInterrupt, w)
        | (Propagate e, session, w) => (Raise e, w)
        | (_, session, w) =>
            match session with
            | Some sid => session_close sid w
            | None => (Ok tt, w)
            end
        end
    end.

End Program.

(** ** Reference models of the libraries *)

(** [requests.Response.raise_for_status]: raises [HTTPError] for a status
    of the client-error range (400 to 499) or of the server-error range
    (500 to 599) and returns for every other status. *)
Definition requests_raise_for_status (response : Response)
  : option RequestException :=
  if ((400 <=? status_code response) && (status_code response <? 600))%Z
  then Some HTTPError
  else None.

Definition hex_digit_value (c : ascii) : option N :=
  let n := N_of_ascii c in
  if ((48 <=? n) && (n <=? 57))%N then Some (n - 48)%N
  else if ((65 <=? n) && (n <=? 70))%N then Some (n - 55)%N
  else if ((97 <=? n) && (n <=? 102))%N then Some (n - 87)%N
  else None.

Definition hex_digit (d : N) : ascii :=
  if (d <? 10)%N then ascii_of_N (48 + d) else ascii_of_N (55 + d).

(** [urllib.parse.unquote] on the UTF-8 bytes: an escape [%XX] with two
    hexadecimal digits becomes the byte [XX], every other character
    stays. (The library replaces bytes that are not valid UTF-8 by
    U+FFFD; the model agrees with it whenever the decoded bytes are valid
    UTF-8.) *)
Fixpoint urllib_unquote (s : string) : string :=
  match s with
  | EmptyString => EmptyString
  | String c rest =>
      if Ascii.eqb c "%" then
        match rest with
        | String h (String l rest') =>
            match hex_digit_value h, hex_digit_value l with
            | Some a, Some b =>
                String (ascii_of_N (16 * a + b)) (urllib_unquote rest')
            | _, _ => String c (urllib_unquote rest)
            end
        | _ => String c (urllib_unquote rest)
        end
      else String c (urllib_unquote rest)
  end.

(** The characters [urllib.parse.quote] never escapes: ASCII letters,
    digits and ["_.-~"]. *)
Definition always_safe (c : ascii) : bool :=
  let n := N_of_ascii c in
  (((65 <=? n) && (n <=? 90)) || ((97 <=? n) && (n <=? 122))
   || ((48 <=? n) && (n <=? 57)))%N
  || contains_char c "_.-~".

(** [urllib.parse.quote(s, safe=safe)] on the UTF-8 bytes. *)
Fixpoint urllib_quote (s safe : string) : string :=
  match s with
  | EmptyString => EmptyString
  | String c rest =>
      if always_safe c || contains_char c safe
      then String c (urllib_quote rest safe)
      else
        let n := N_of_ascii c in
        String "%" (String (hex_digit (n / 16)) (String (hex_digit (n mod 16))
          (urllib_quote rest safe)))
  end.

Definition python_libs : Externals :=
  {| unquote := urllib_unquote;
     quote := urllib_quote;
     raise_for_status := requests_raise_for_status |}.

(** ** Observations on traces *)

(** The observations below read a trace that has the newest event
    first and keep that order; [outcomes] and [calls] give the results
    yielded and the URLs called in the order of time. *)
Definition yielded (tr : list Event) : list ResponseResult :=
  omap (fun e => match e with EvYield r => Some r | _ => None end) tr.

Definition requested (tr : list Event) : list string :=
  omap (fun e => match e with EvGet _ url => Some url | _ => None end) tr.

Definition sleeps (tr : list Event) : list Q :=
  omap (fun e => match e with EvSleep secs => Some secs | _ => None end) tr.

Definition written (tr : list Event) : list string :=
  omap (fun e => match e with EvWrite name => Some name | _ => None end) tr.

(** The messages logged at the level [ERROR]. *)
Definition errors (tr : list Event) : list Message :=
  omap (fun e => match e with EvLog ERROR msg => Some msg | _ => None end) tr.

Definition outcomes (w : World) : list ResponseResult :=
  reverse (yielded (trace w)).

Definition calls (w : World) : list string :=
  reverse (requested (trace w)).

(** The sessions that are open after the trace [tr] (newest event
    first): opened and not closed since. *)
Fixpoint live_sessions (tr : list Event) : list nat :=
  match tr with
  | [] => []
  | EvSessionOpen sid :: tr' => sid :: live_sessions tr'
  | EvSessionClose sid :: tr' =>
      filter (fun s => s ≠ sid) (live_sessions tr')
  | _ :: tr' => live_sessions tr'
  end.

(** At every moment of the trace [tr] at most one session was open; the
    moments of a trace that has the newest event first are its
    suffixes. *)
Definition at_most_one_live (tr : list Event) : Prop :=
  ∀ past, past `suffix_of` tr → length (live_sessions past) ≤ 1.

(** The variable [session] tells which session is open, and at most one
    session was open at every moment so far. *)
Definition session_inv (session : option nat) (w : World) : Prop :=
  live_sessions (trace w) = option_list session ∧
  at_most_one_live (trace w).

(** The worlds [w] and [w'] show the same results, calls, waits, writes
    and errors, and have the same store and the same number of calls. *)
Definition same_observations (w w' : World) : Prop :=
  yielded (trace w') = yielded (trace w) ∧
  requested (trace w') = requested (trace w) ∧
  sleeps (trace w') = sleeps (trace w) ∧
  written (trace w') = written (trace w) ∧
  errors (trace w') = errors (trace w) ∧
  grammar_pages w' = grammar_pages w ∧
  requests_made w' = requests_made w.

(** The worlds [w] and [w'] agree on the three counters. *)
Definition same_counters (w w' : World) : Prop :=
  requests_made w' = requests_made w ∧
  sessions_created w' = sessions_created w ∧
  rng_draws w' = rng_draws w.

(** The worlds [w] and [w'] differ in the number of random draws alone. *)
Definition only_draws (w w' : World) : Prop :=
  grammar_pages w' = grammar_pages w ∧ requests_made w' = requests_made w ∧
  sessions_created w' = sessions_created w ∧ trace w' = trace w.

(** ** Extensions of a trace *)

(** [extends allowed tr tr']: the trace [tr'] is [tr] with new events
    put in front, all of them [allowed]. *)
Inductive extends (allowed : Event → bool) (tr : list Event)
  : list Event → Prop :=
| extends_refl : extends allowed tr tr
| extends_cons e tr' :
    allowed e = true → extends allowed tr tr' → extends allowed tr (e :: tr').

(** Log records and the events of the output store. *)
Definition store_event (e : Event) : bool :=
  match e with
  | EvLog _ _ | EvMakedirs | EvWrite _ => true
  | _ => false
  end.

(** The events of the classifier: those of the store, and waits. *)
Definition local_event (e : Event) : bool :=
  match e with
  | EvLog _ _ | EvMakedirs | EvWrite _ | EvSleep _ => true
  | _ => false
  end.

(** Every event but the opening and the closing of a session. *)
Definition no_session_event (e : Event) : bool :=
  match e with
  | EvSessionOpen _ | EvSessionClose _ => false
  | _ => true
  end.

(** Log records below the level [ERROR] and the opening and closing of
    sessions. *)
Definition bookkeeping_event (e : Event) : bool :=
  match e with
  | EvLog ERROR _ => false
  | EvLog _ _ | EvSessionOpen _ | EvSessionClose _ => true
  | _ => false
  end.

(** From [w] to [w'] nothing happened but bookkeeping: the store, the
    number of calls and the random generator are as they were. *)
Definition bookkeeping (w w' : World) : Prop :=
  extends bookkeeping_event (trace w) (trace w') ∧
  grammar_pages w' = grammar_pages w ∧
  requests_made w' = requests_made w ∧
  rng_draws w' = rng_draws w.

(** ** Vocabulary of the statements *)

(** The resume set of an output store, as [scrape_sites] computes it. *)
Definition resume_set (files : gmap string FileContent) : list string :=
  map before_first_dot (map fst (map_to_list files)).

(** The decision of the resume filter, as the loop takes it. *)
Definition should_skip (ext : Externals) (skip_sites : list string)
    (site : string) : bool :=
  bool_decide (unquote ext (trailing_segment site) ∈ skip_sites).

(** The URLs of the targets of a batch the resume filter lets through,
    in the order of the batch. *)
Definition fetchable (ext : Externals) (skip_sites : list string)
    (sites : list string) : list string :=
  map (fun site => quote ext site ":/?=&")
    (filter (fun site => should_skip ext skip_sites site = false) sites).

(** The name of the artifact of a target, the name with the timestamp
    suffix, and the name [save_source_code] writes to in the world [w]. *)
Definition artifact_name (ext : Externals) (site : string) : string :=
  unquote ext (trailing_segment site) +:+ ".html".

Definition stamped_name (env : Environment) (filename : string) (w : World)
  : string :=
  filename +:+ "_" +:+ timestamp env (requests_made w) +:+ ".html".

Definition save_target (ext : Externals) (env : Environment) (site : string)
    (w : World) : string :=
  let filename := artifact_name ext site in
  match grammar_pages w with
  | Some files =>
      match files !! filename with
      | Some _ => stamped_name env filename w
      | None => filename
      end
  | None => filename
  end.

(** The world in which the response of a call is classified. *)
Definition after_call (via : option nat) (url : string) (w : World) : World :=
  emit (EvGet via url) (count_request w).


(** The results [process_response] can have. *)
Inductive classified (site : string) (sleep_time : Q)
  : Result ResponseResult → Prop :=
| classified_scrape :
    classified site sleep_time
      (Ok (mkResponseResult CONTINUE site sleep_time true))
| classified_error :
    classified site sleep_time
      (Ok (mkResponseResult RETRYABLE_ERROR site sleep_time false))
| classified_break :
    classified site sleep_time
      (Ok (mkResponseResult HARD_STOP site sleep_time false))
| classified_negative_sleep :
    classified site sleep_time (Raise (ValueError MsgNegativeSleep))
| classified_interrupt :
    classified site sleep_time (Raise KeyboardInterrupt).

(** ** Worlds and environments of the examples *)

(** A network that answers the [k]-th call with the [k]-th entry of a
    script, and refuses the connection once the script is used up. *)
Definition scripted (script : list FetchResult) (k : nat) (url : string)
  : FetchResult :=
  nth k script (Failed ConnectionError).

(** An environment without interrupts, where every write is accepted or
    every write is refused, the clock stands still and the random
    generator repeats one value. *)
Definition quiet (script : list FetchResult) (disk_full : bool)
  : Environment :=
  {| network := scripted script;
     sleep_interrupted := fun _ => false;
     write_fails := fun _ => disk_full;
     timestamp := fun _ => "20240101120000";
     entropy := fun _ => (2 ^ 52)%Z |}.


(** An empty output store and an empty trace. *)
Definition fresh_world : World :=
  {| grammar_pages := Some ∅;
     requests_made := 0;
     sessions_created := 0;
     rng_draws := 0;
     trace := [] |}.

Definition in_store (files : gmap string FileContent) : World :=
  {| grammar_pages := Some files;
     requests_made := 0;
     sessions_created := 0;
     rng_draws := 0;
     trace := [] |}.

Definition grammar_point (name : string) : string :=
  "https://bunpro.jp/grammar_points/" +:+ name.



Definition page (body : string) : FetchResult :=
  Responded (mkResponse 200 body).

Definition too_many_requests : FetchResult :=
  Responded (mkResponse 429 "Too Many Requests").


(** A store where the artifact of ["ga"] was saved twice within one
    second before. *)
Definition saved_twice : gmap string FileContent :=
  <["ga.html_20240101120000.html" := Bytes "second"]>
    (<["ga.html" := Bytes "first"]> ∅).

(** A store that holds the artifact of a target whose name holds a dot. *)
Definition dotted_store : gmap string FileContent :=
  {["v1.2.html" := Bytes "saved"]}.

(** ** More observations on traces *)

(** The sessions opened, the way of each network call (through a session
    or isolated), and the targets the resume filter passed over, newest
    first. *)
Definition opened (tr : list Event) : list nat :=
  omap (fun e => match e with EvSessionOpen sid => Some sid | _ => None end) tr.

Definition vias (tr : list Event) : list (option nat) :=
  omap (fun e => match e with EvGet via _ => Some via | _ => None end) tr.

Definition skipped (tr : list Event) : list string :=
  omap (fun e =>
          match e with
          | EvLog INFO (MsgSkipping site) => Some site
          | _ => None
          end) tr.

(** The target and the delay a result carries. *)
Definition target_of (r : ResponseResult) : string * Q :=
  (site r, sleep_time r).

(** A result the executor can yield: [CONTINUE] with [scraped = true] or
    [RETRYABLE_ERROR] with [scraped = false]. *)
Definition yieldable (r : ResponseResult) : Prop :=
  (action r = CONTINUE ∧ scraped r = true) ∨
  (action r = RETRYABLE_ERROR ∧ scraped r = false).

(** A file name [open] accepts: it holds no NUL byte. For a name with a
    NUL byte [open] raises a [ValueError], which is no [IOError]; the
    model of the sink does not have that failure. *)
Definition accepted_name (name : string) : Prop :=
  contains_char "000" name = false.

(** Follows the specification's words (stripping file extensions): the
    file name without its extension, the suffix from the last dot on; a
    name without a dot is kept. *)
Fixpoint strip_extension (name : string) : string :=
  match name with
  | EmptyString => EmptyString
  | String c rest =>
      if Ascii.eqb c "." && negb (contains_char "." rest) then EmptyString
      else String c (strip_extension rest)
  end.

(** ** The catalog, the clock and the entry point *)

(** [get_scrape_urls], [calc_duration] and the block under
    [if __name__ == "__main__"] run in a [Process]: the [World] of the
    scraper, the log records these three write, and the file
    [scrape_results.json]. *)

(** A value [json.load] returns: [None], a [bool], a number, a [str], a
    [list], or a [dict] with its items in the order of insertion. *)
#[warnings="-register-all"]
Inductive Json :=
| JNull
| JBool (b : bool)
| JNumber (q : Q)
| JString (s : string)
| JArray (items : list Json)
| JObject (members : list (string * Json)).

(** A naive [datetime], as [dt.datetime.now()] gives it: the date as its
    proleptic Gregorian ordinal ([toordinal()]) and the time of day. *)
Record DateTime := mkDateTime {
  ordinal : Z;
  hour : Z;
  minute : Z;
  second : Z;
  microsecond : Z
}.

(** The log messages of the three. *)
Inductive Notice :=
| NoticeJsonNotFound (json_path : string)
    (* "JSON file {json_path} not found." *)
| NoticeJsonDecode (json_path : string)
    (* "Error decoding JSON from {json_path}." *)
| NoticeEndBeforeStart
    (* "End time must come after start time." *)
| NoticeStartingLevel (level : string)
    (* "Starting scraping for level: {level}" *)
| NoticeNoUrls (level : string)
    (* "No URLs found for level {level}. Skipping." *)
| NoticeFinishedLevel (level : string) (n : nat)
    (* "Finished level {level}. Scraped {n} sites." *)
| NoticeCompleted.
    (* "Scraping completed for all levels." *)

(** The exceptions that can leave the three: those of the scraper,
    [TypeError], [AttributeError], [OSError], the [ValueError] of
    [calc_duration] and of [random.randint], and what reading a file can
    raise besides: [UnicodeDecodeError] (bytes that are no UTF-8),
    [RecursionError] (a document nested too deep), or an exception of
    another class, given by its name (a [MemoryError], the [ValueError] of
    a number with too many digits). *)
Inductive PyException :=
| ScraperError (e : Exception)
| TypeError
| AttributeError
| OSError
| DurationError (notice : Notice)
| EmptyRangeError
| UnicodeDecodeError
| RecursionError
| OtherError (class_name : string).

(** What [open(json_path, "r")] followed by [json.load(file)] comes to:
    one of the two exceptions [get_scrape_urls] catches, an exception it
    does not catch, or the data. *)
Inductive JsonRead :=
| NoSuchFile     (* open raises FileNotFoundError *)
| NotJson        (* json.load raises json.JSONDecodeError *)
| Unreadable (e : PyException)
    (* open or json.load raises [e], neither of the two: another OSError
       (PermissionError, IsADirectoryError), UnicodeDecodeError,
       RecursionError, ... *)
| Loaded (data : Json).

(** [journal] has the newest record first; a record holds the number of
    events of the scraper's trace that came before it. [scrape_results]
    is the content of [scrape_results.json], [None] when the file does not
    exist: the list of the results, one JSON object of four members for
    each. *)
Record Process := mkProcess {
  world : World;
  journal : list (nat * Level * Notice);
  scrape_results : option (list ResponseResult)
}.

(** More answers of the environment.
    - [json_load k path]: what reading the JSON file [path] gives when
      [k] network calls have been made.
    - [dump_fails]: [open("scrape_results.json", "w")] raises [OSError].
    - [now k]: what [dt.datetime.now()] returns when [k] network calls
      have been made. *)
Record Host := mkHost {
  json_load : nat -> string -> JsonRead;
  dump_fails : bool;
  now : nat -> DateTime
}.

Inductive Outcome (A : Type) :=
| Done (a : A)
| Crash (e : PyException).
Arguments Done {A} a.
Arguments Crash {A} e.

Definition P (A : Type) : Type := Process -> Outcome A * Process.

Definition pret {A} (a : A) : P A := fun p => (Done a, p).

Definition pcrash {A} (e : PyException) : P A := fun p => (Crash e, p).

Definition pbind {A B} (m : P A) (k : A -> P B) : P B :=
  fun p =>
    match m p with
    | (Done a, p') => k a p'
    | (Crash e, p') => (Crash e, p')
    end.

Notation "'let+' x := c1 'in' c2" := (pbind c1 (fun x => c2))
  (at level 10, x name, c1 at level 100, c2 at level 200).
Notation "c1 >>> c2" := (pbind c1 (fun _ => c2))
  (at level 100, c2 at level 200, right associativity).

Definition set_world (w : World) (p : Process) : Process :=
  {| world := w; journal := journal p; scrape_results := scrape_results p |}.

(** A computation of the scraper, run in the process. *)
Definition lift {A} (m : M A) : P A :=
  fun p =>
    match m (world p) with
    | (Ok a, w) => (Done a, set_world w p)
    | (Raise e, w) => (Crash (ScraperError e), set_world w p)
    end.

(** [logging.info], [logging.warning], [logging.error] with a message of
    the three. *)
Definition notify (lvl : Level) (notice : Notice) : P unit :=
  fun p =>
    (Done tt,
     {| world := world p;
        journal := (length (trace (world p)), lvl, notice) :: journal p;
        scrape_results := scrape_results p |}).

(** *** [get_scrape_urls] *)

Definition base_url : string := "https://bunpro.jp".

Fixpoint lookup_member (key : string) (members : list (string * Json))
  : option Json :=
  match members with
  | [] => None
  | (k, v) :: rest => if String.eqb k key then Some v else lookup_member key rest
  end.

(** [data.get(key, default)]: only a [dict] has the method. *)
Definition dict_get (data : Json) (key : string) (default : Json) : P Json :=
  match data with
  | JObject members =>
      pret (match lookup_member key members with
            | Some v => v
            | None => default
            end)
  | _ => pcrash AttributeError
  end.

(** The items a [for] loop over a value visits: the elements of a
    [list], the keys of a [dict], the characters of a [str]; the other
    values are not iterable. (A character of more than one byte gives more
    than one item here; each item is a [str] either way.) *)
Definition iterate (v : Json) : P (list Json) :=
  match v with
  | JArray items => pret items
  | JObject members => pret (map (fun member => JString (fst member)) members)
  | JString s =>
      pret (map (fun c => JString (String c "")) (list_ascii_of_string s))
  | _ => pcrash TypeError
  end.

(** [grammar_point.values()]: only a [dict] has the method. *)
Definition dict_values (grammar_point : Json) : P (list Json) :=
  match grammar_point with
  | JObject members => pret (map snd members)
  | _ => pcrash AttributeError
  end.

(** [base_url + url]: only a [str] can be concatenated to a [str]. *)
Definition str_add (s : string) (url : Json) : P string :=
  match url with
  | JString u => pret (s +:+ u)
  | _ => pcrash TypeError
  end.

(** [for url in grammar_point.values():
       scrape_sites.append(base_url + url)] *)
Fixpoint urls_loop (urls : list Json) (scrape_sites : list string)
  : P (list string) :=
  match urls with
  | [] => pret scrape_sites
  | url :: rest =>
      let+ site := str_add base_url url in
      urls_loop rest (scrape_sites ++ [site])
  end.

(** [for grammar_point in grammar_points: ...] *)
Fixpoint grammar_points_loop (grammar_points : list Json)
    (scrape_sites : list string) : P (list string) :=
  match grammar_points with
  | [] => pret scrape_sites
  | grammar_point :: rest =>
      let+ urls := dict_values grammar_point in
      let+ scrape_sites := urls_loop urls scrape_sites in
      grammar_points_loop rest scrape_sites
  end.

Section Entry.

Variable ext : Externals.
Variable env : Environment.
Variable host : Host.

Definition get_scrape_urls (json_path n_level : string) : P (list string) :=
  fun p =>
    match json_load host (requests_made (world p)) json_path with
    | NoSuchFile =>
        (notify ERROR (NoticeJsonNotFound json_path) >>> pret []) p
    | NotJson =>
        (notify ERROR (NoticeJsonDecode json_path) >>> pret []) p
    | Unreadable e => (Crash e, p)
    | Loaded data =>
        (let+ grammar_points := dict_get data n_level (JArray []) in
         let+ grammar_points := iterate grammar_points in
         grammar_points_loop grammar_points []) p
    end.

(** *** [calc_duration] *)

(** [dt.datetime.now()] *)
Definition datetime_now : P DateTime :=
  fun p => (Done (now host (requests_made (world p))), p).

(** [d.replace(hour=h, minute=m, second=s)] *)
Definition datetime_replace (d : DateTime) (h m s : Z) : DateTime :=
  {| ordinal := ordinal d;
     hour := h;
     minute := m;
     second := s;
     microsecond := microsecond d |}.

(** [a > b] on naive datetimes compares the fields from the date down to
    the microsecond. *)
Fixpoint fields_gt (a b : list Z) : bool :=
  match a, b with
  | x :: a', y :: b' => (y <? x)%Z || ((x =? y)%Z && fields_gt a' b')
  | _, _ => false
  end.

Definition datetime_fields (d : DateTime) : list Z :=
  [ordinal d; hour d; minute d; second d; microsecond d].

Definition datetime_gt (a b : DateTime) : bool :=
  fields_gt (datetime_fields a) (datetime_fields b).

Definition seconds_of_day (d : DateTime) : Z :=
  (second d + minute d * 60 + hour d * 3600)%Z.

(** [a - b], a [timedelta], as its number of microseconds. *)
Definition datetime_sub (a b : DateTime) : Z :=
  (((ordinal a - ordinal b) * 86400
    + (seconds_of_day a - seconds_of_day b)) * 10 ^ 6
   + (microsecond a - microsecond b))%Z.

(** [duration.total_seconds()] *)
Definition total_seconds (microseconds : Z) : Q :=
  Qmake microseconds (10 ^ 6).

Definition calc_duration (start end_ : option DateTime) : P Q :=
  let+ start :=
    match start with
    | None => datetime_now
    | Some start => pret start
    end in
  let end_ :=
    match end_ with
    | None => datetime_replace start 23 59 59
    | Some end_ => end_
    end in
  if datetime_gt start end_ then
    notify ERROR NoticeEndBeforeStart >>>
    pcrash (DurationError NoticeEndBeforeStart)
  else
    let duration := datetime_sub end_ start in
    pret (total_seconds duration).

(** *** The entry point *)

Definition JSON_PATH : string := "grammar_points.json".
Definition LEVELS : list string := ["Non-JLPT"; "N5"; "N4"; "N3"; "N2"; "N1"].
Definition MIN_SLEEP : Z := 2.
Definition MAX_SLEEP : Z := 8.
Definition MIN_SESSION_INTERVAL : Q := 30.

(** [random.randint(a, b)] is [randrange(a, b + 1)]: [a] plus a number
    below the width [b - a + 1], and [ValueError] for an empty range. *)
Definition random_randint (a b : Z) : P Z :=
  let width := (b - a + 1)%Z in
  if (0 <? width)%Z then
    let+ k := lift (randbelow env (Z.to_nat width)) in
    pret (a + Z.of_nat k)%Z
  else pcrash EmptyRangeError.

(** [[random.randint(MIN_SLEEP, MAX_SLEEP) for _ in range(n_requests)]] *)
Fixpoint sleep_times_loop (n_requests : nat) : P (list Q) :=
  match n_requests with
  | 0 => pret []
  | S n =>
      let+ sleep_time := random_randint MIN_SLEEP MAX_SLEEP in
      let+ rest := sleep_times_loop n in
      pret (inject_Z sleep_time :: rest)
  end.

(** [list(scrape_sites(sites, times, min_session_interval))]: the
    generator is run to its end and the results it yields are collected;
    they are the results the run adds to the trace. *)
Definition list_scrape_sites (sites : list string) (times : list Q)
    (min_session_interval : Q) : P (list ResponseResult) :=
  fun p =>
    let before := length (outcomes (world p)) in
    match scrape_sites ext env sites times min_session_interval (world p) with
    | (Ok _, w) => (Done (drop before (outcomes w)), set_world w p)
    | (Raise e, w) => (Crash (ScraperError e), set_world w p)
    end.

(** One pass through the body of [for level in LEVELS], from the value
    of [all_results] before it to the value after it. *)
Definition level_body (level : string) (all_results : list ResponseResult)
  : P (list ResponseResult) :=
  notify INFO (NoticeStartingLevel level) >>>
  let+ sites_to_scrape_list := get_scrape_urls JSON_PATH level in
  match sites_to_scrape_list with
  | [] =>
      notify WARNING (NoticeNoUrls level) >>>
      pret all_results
  | _ =>
      let n_requests := length sites_to_scrape_list in
      let+ sleep_times := sleep_times_loop n_requests in
      let+ results :=
        list_scrape_sites sites_to_scrape_list sleep_times
          MIN_SESSION_INTERVAL in
      notify INFO (NoticeFinishedLevel level (length results)) >>>
      pret (all_results ++ results)
  end.

Fixpoint levels_loop (levels : list string)
    (all_results : list ResponseResult) : P (list ResponseResult) :=
  match levels with
  | [] => pret all_results
  | level :: rest =>
      let+ all_results := level_body level all_results in
      levels_loop rest all_results
  end.

(** [with open("scrape_results.json", "w", encoding="utf-8") as f:
       json.dump(all_results, f, ensure_ascii=False, indent=4)] *)
Definition json_dump (all_results : list ResponseResult) : P unit :=
  fun p =>
    if dump_fails host then (Crash OSError, p)
    else (Done tt,
          {| world := world p;
             journal := journal p;
             scrape_results := Some all_results |}).

Definition main : P unit :=
  let+ all_results := levels_loop LEVELS [] in
  json_dump all_results >>>
  notify INFO NoticeCompleted.

End Entry.

(** What [get_scrape_urls(JSON_PATH, level)] returns or raises in the
    process [p]. *)
Definition level_urls (host : Host) (p : Process) (level : string)
  : Outcome (list string) :=
  (get_scrape_urls host JSON_PATH level p).1.

(** The records of the journal at the level [ERROR], newest first. *)
Definition alarms (entries : list (nat * Level * Notice)) : list Notice :=
  omap (fun entry =>
          match entry with
          | (_, ERROR, notice) => Some notice
          | _ => None
          end) entries.

(** A delay the entry point draws: a whole number of seconds from
    [MIN_SLEEP] to [MAX_SLEEP]. *)
Definition drawn_delay (d : Q) : Prop :=
  ∃ z : Z, d = inject_Z z ∧ (MIN_SLEEP <= z <= MAX_SLEEP)%Z.

(** What the entry point does to the world of the scraper while it goes
    through [k] levels and collects [results]: the results are those
    yielded meanwhile; every network call goes through a session; at most
    [k] sessions are opened; every wait is a drawn delay; and without
    the output directory no call is made and nothing is collected. *)
Definition entry_run (k : nat) (w w' : World) (results : list ResponseResult)
  : Prop :=
  outcomes w' = outcomes w ++ results ∧
  (∃ channels,
     vias (trace w') = channels ++ vias (trace w) ∧
     Forall is_Some channels ∧
     requests_made w' = length channels + requests_made w) ∧
  sessions_created w' ≤ k + sessions_created w ∧
  (∃ waits,
     sleeps (trace w') = waits ++ sleeps (trace w) ∧
     Forall drawn_delay waits) ∧
  (grammar_pages w = None →
   grammar_pages w' = None ∧ requests_made w' = requests_made w ∧
   results = []).

(** A [datetime] has its time of day within the day. *)
Definition valid_datetime (d : DateTime) : Prop :=
  (0 <= hour d < 24)%Z ∧ (0 <= minute d < 60)%Z ∧ (0 <= second d < 60)%Z ∧
  (0 <= microsecond d < 10 ^ 6)%Z.

(** The catalog [update_grammar_points] writes: for each level the list
    of its grammar points, each a [dict] of one or more names with their
    paths. *)
Definition catalog_level (grammar_points : list (list (string * string)))
  : Json :=
  JArray
    (map (fun grammar_point =>
            JObject (map (fun entry => (fst entry, JString (snd entry)))
                       grammar_point))
       grammar_points).

(** The paths of the grammar points of a level, in the order of the
    catalog. *)
Definition catalog_paths (grammar_points : list (list (string * string)))
  : list string :=
  concat (map (map snd) grammar_points).

(** *** Processes and hosts of the examples *)

(** A world where the output directory does not exist. *)
Definition no_directory : World :=
  {| grammar_pages := None;
     requests_made := 0;
     sessions_created := 0;
     rng_draws := 0;
     trace := [] |}.

Definition fresh_process : Process :=
  {| world := fresh_world; journal := []; scrape_results := None |}.

Definition process_without_directory : Process :=
  {| world := no_directory; journal := []; scrape_results := None |}.

Definition midnight : DateTime :=
  {| ordinal := 739000; hour := 0; minute := 0; second := 0;
     microsecond := 0 |}.

(** A host whose catalog is the same at every moment. *)
Definition host_with (catalog : JsonRead) : Host :=
  {| json_load := fun _ _ => catalog;
     dump_fails := false;
     now := fun _ => midnight |}.

Definition small_catalog : Json :=
  JObject
    [("N5", catalog_level [[("ga", "/grammar_points/ga")];
                           [("wo", "/grammar_points/wo")]]);
     ("N4", catalog_level [])].

(** * Properties *)

(** ** Rational arithmetic *)

Lemma Qlt_bool_true (x y : Q) : Qlt_bool x y = true ↔ (x < y)%Q.
Proof.
  unfold Qlt_bool. rewrite negb_true_iff, <- not_true_iff_false, Qle_bool_iff.
  split; [apply Qnot_le_lt | apply Qlt_not_le].
Qed.

Lemma Qlt_bool_false (x y : Q) : Qlt_bool x y = false ↔ (y <= x)%Q.
Proof.
  unfold Qlt_bool. rewrite negb_false_iff. apply Qle_bool_iff.
Qed.

Lemma Qle_bool_false (x y : Q) : Qle_bool x y = false ↔ (y < x)%Q.
Proof.
  rewrite <- not_true_iff_false, Qle_bool_iff.
  split; [apply Qnot_le_lt | apply Qlt_not_le].
Qed.

Section Allocator.

Variable env : Environment.

Lemma shuffle_loop_spec (indices : list nat) :
  ∀ (x : list Q) (w : World),
    Forall (λ i, (i < length x)%nat) indices →
    ∃ x' w',
      shuffle_loop env indices x w = (Ok x', w') ∧ x' ≡ₚ x ∧ only_draws w w'.
Proof.
  induction indices as [|i indices IH]; intros x w Hidx.
  - exists x, w. by unfold only_draws.
  - apply Forall_cons in Hidx as [Hi Hidx]. simpl.
    unfold bind, randbelow.
    set (j := Z.to_nat (entropy env (rng_draws w) mod Z.of_nat (i + 1))).
    assert (j < length x)%nat as Hj.
    { pose proof (Z.mod_pos_bound (entropy env (rng_draws w))
                    (Z.of_nat (i + 1)) ltac:(lia)) as Hmod.
      unfold j. lia. }
    destruct (lookup_lt_is_Some_2 x i Hi) as [xi Hxi].
    destruct (lookup_lt_is_Some_2 x j Hj) as [xj Hxj].
    rewrite Hxi, Hxj.
    destruct (IH (<[j := xi]> (<[i := xj]> x)) (count_draw w))
      as (x' & w' & Hrun & Hperm & Hfr).
    { by rewrite !length_insert. }
    exists x', w'. split; [done |]. split.
    + rewrite Hperm. by apply Permutation_insert_swap.
    + destruct Hfr as (? & ? & ? & ?). by unfold only_draws.
Qed.

Lemma random_shuffle_spec (x : list Q) (w : World) :
  ∃ x' w', random_shuffle env x w = (Ok x', w') ∧ x' ≡ₚ x ∧ only_draws w w'.
Proof.
  apply shuffle_loop_spec. apply Forall_forall.
  intros i Hi. apply elem_of_reverse, elem_of_seq in Hi. lia.
Qed.

End Allocator.

(** ** Splitting strings *)

Lemma str_split_cons (sep : ascii) (s : string) :
  ∃ piece pieces, str_split sep s = piece :: pieces.
Proof.
  destruct s as [|c s]; simpl; [by eexists _, _ |].
  destruct (Ascii.eqb c sep); [by eexists _, _ |].
  destruct (str_split sep s); by eexists _, _.
Qed.

Lemma before_first_dot_String (c : ascii) (s : string) :
  before_first_dot (String c s) =
    if Ascii.eqb c "." then "" else String c (before_first_dot s).
Proof.
  unfold before_first_dot. simpl.
  destruct (Ascii.eqb c "."); [done |].
  by destruct (str_split_cons "." s) as (piece & pieces & ->).
Qed.

(** The prefix before the first dot holds no dot. *)
Lemma before_first_dot_no_dot (name : string) :
  contains_char "." (before_first_dot name) = false.
Proof.
  induction name as [|c name IH]; [done |].
  rewrite before_first_dot_String.
  destruct (Ascii.eqb c ".") eqn:Hc; [done |]. simpl. by rewrite Hc.
Qed.

(** A name without a dot is its own prefix. *)
Lemma before_first_dot_id (name : string) :
  contains_char "." name = false → before_first_dot name = name.
Proof.
  induction name as [|c name IH]; [done |].
  intros Hname. simpl in Hname. apply orb_false_iff in Hname as [Hc Hname].
  rewrite before_first_dot_String, Hc. by rewrite IH.
Qed.

(** Everything from the first dot on is cut. *)
Lemma before_first_dot_append (stem rest : string) :
  contains_char "." stem = false →
  before_first_dot (stem +:+ "." +:+ rest) = stem.
Proof.
  induction stem as [|c stem IH]; [done |].
  intros Hstem. simpl in Hstem. apply orb_false_iff in Hstem as [Hc Hstem].
  change (String c stem +:+ "." +:+ rest)
    with (String c (stem +:+ "." +:+ rest)).
  rewrite before_first_dot_String, Hc. by rewrite IH.
Qed.

(** A name with a dot is its prefix before the first dot, the dot and
    a rest. *)
Lemma before_first_dot_cut (name : string) :
  contains_char "." name = false ∨
  ∃ rest, name = before_first_dot name +:+ "." +:+ rest.
Proof.
  induction name as [|c name IH]; [by left |].
  rewrite before_first_dot_String. simpl.
  destruct (Ascii.eqb_spec c ".") as [-> | Hc].
  - right. by exists name.
  - destruct IH as [-> | [rest Hrest]]; [by left | right].
    exists rest.
    change (String c name
            = String c (before_first_dot name +:+ "." +:+ rest)).
    by rewrite <- Hrest.
Qed.

(** Splitting at a separator splits the parts before and after it. *)
Lemma str_split_app (sep : ascii) (before after : string) :
  str_split sep (before +:+ String sep after)
    = str_split sep before ++ str_split sep after.
Proof.
  induction before as [|c before IH]; simpl.
  - by rewrite Ascii.eqb_refl.
  - rewrite IH. destruct (Ascii.eqb c sep); [done |].
    by destruct (str_split_cons sep before) as (piece & pieces & ->).
Qed.

Lemma str_split_whole (sep : ascii) (s : string) :
  contains_char sep s = false → str_split sep s = [s].
Proof.
  induction s as [|c s IH]; [done |]. simpl.
  intros [Hc Hs]%orb_false_iff. by rewrite Hc, (IH Hs).
Qed.

(** The trailing segment of a path is what follows its last slash. *)
Lemma trailing_segment_after_slash (prefix segment : string) :
  contains_char "/" segment = false →
  trailing_segment (prefix +:+ "/" +:+ segment) = segment.
Proof.
  intros Hsegment. unfold trailing_segment.
  change ("/" +:+ segment) with (String "/" segment).
  rewrite str_split_app, (str_split_whole _ _ Hsegment).
  by rewrite last_last.
Qed.


(** ** Traces *)

Lemma extends_trans (allowed : Event → bool) (tr1 tr2 tr3 : list Event) :
  extends allowed tr1 tr2 → extends allowed tr2 tr3 → extends allowed tr1 tr3.
Proof.
  intros H12 H23. induction H23 as [|e tr3 He _ IH]; [done |].
  by constructor.
Qed.

Lemma extends_weaken (allowed allowed' : Event → bool) (tr tr' : list Event) :
  (∀ e, allowed e = true → allowed' e = true) →
  extends allowed tr tr' → extends allowed' tr tr'.
Proof.
  intros Hsub. induction 1 as [|e tr' He _ IH]; constructor; auto.
Qed.

Lemma extends_app (allowed : Event → bool) (tr tr' : list Event) :
  extends allowed tr tr' →
  ∃ delta, tr' = delta ++ tr ∧ Forall (λ e, allowed e = true) delta.
Proof.
  induction 1 as [|e tr' He _ (delta & -> & Hall)].
  - by exists [].
  - exists (e :: delta). split; [done | by constructor].
Qed.

Lemma extends_omap {A} (f : Event → option A) (allowed : Event → bool)
    (tr tr' : list Event) :
  (∀ e, allowed e = true → f e = None) →
  extends allowed tr tr' → omap f tr' = omap f tr.
Proof.
  intros Hnone. induction 1 as [|e tr' He _ IH]; [done |].
  simpl. by rewrite (Hnone e He).
Qed.

Lemma extends_live_sessions (tr tr' : list Event) :
  extends no_session_event tr tr' → live_sessions tr' = live_sessions tr.
Proof.
  induction 1 as [|e tr' He _ IH]; [done |].
  destruct e; simpl in *; done.
Qed.

Lemma at_most_one_live_cons (e : Event) (tr : list Event) :
  at_most_one_live tr → (length (live_sessions (e :: tr)) ≤ 1)%nat →
  at_most_one_live (e :: tr).
Proof.
  intros Htr He past [[|e' k] Hpast]; simplify_eq/=; [done |].
  apply Htr. by exists k.
Qed.

Lemma extends_at_most_one_live (tr tr' : list Event) :
  extends no_session_event tr tr' →
  at_most_one_live tr → at_most_one_live tr'.
Proof.
  induction 1 as [|e tr' He Hext IH]; [done |]. intros Htr.
  apply at_most_one_live_cons; [by apply IH |].
  rewrite (extends_live_sessions tr (e :: tr')) by by constructor.
  apply Htr. done.
Qed.

Lemma local_no_session (e : Event) :
  local_event e = true → no_session_event e = true.
Proof. by destruct e. Qed.

Lemma store_local (e : Event) : store_event e = true → local_event e = true.
Proof. by destruct e. Qed.

(** What bookkeeping leaves as it is. *)
Lemma bookkeeping_observations (w w' : World) :
  bookkeeping w w' →
  yielded (trace w') = yielded (trace w) ∧
  requested (trace w') = requested (trace w) ∧
  sleeps (trace w') = sleeps (trace w) ∧
  written (trace w') = written (trace w) ∧
  errors (trace w') = errors (trace w).
Proof.
  intros (Hext & _).
  repeat split;
    (eapply extends_omap; [| exact Hext]; by intros [[]| | | | | | |]).
Qed.

(** What the events of the classifier leave as it is. *)
Lemma local_observations (tr tr' : list Event) :
  extends local_event tr tr' →
  yielded tr' = yielded tr ∧ requested tr' = requested tr ∧
  live_sessions tr' = live_sessions tr.
Proof.
  intros Hext. repeat split.
  - eapply extends_omap; [| exact Hext]. by intros [].
  - eapply extends_omap; [| exact Hext]. by intros [].
  - apply extends_live_sessions.
    eapply extends_weaken; [apply local_no_session | done].
Qed.

(** An event that is not allowed was there before the extension. *)
Lemma extends_elem_of (allowed : Event → bool) (tr tr' : list Event)
    (e : Event) :
  extends allowed tr tr' → allowed e = false → e ∈ tr' → e ∈ tr.
Proof.
  induction 1 as [|e' tr' He' _ IH]; [done |].
  intros He [-> | Hin]%elem_of_cons; [congruence | by apply IH].
Qed.

Lemma bookkeeping_same_observations (w w' : World) :
  bookkeeping w w' → same_observations w w'.
Proof.
  intros Hbk. destruct (bookkeeping_observations _ _ Hbk) as (? & ? & ? & ? & ?).
  destruct Hbk as (_ & ? & ? & _). by unfold same_observations.
Qed.

Lemma same_observations_trans (w1 w2 w3 : World) :
  same_observations w1 w2 → same_observations w2 w3 → same_observations w1 w3.
Proof.
  unfold same_observations.
  intros (? & ? & ? & ? & ? & ? & ?) (? & ? & ? & ? & ? & ? & ?).
  repeat split; congruence.
Qed.

(** The events of the store are no waits. *)
Lemma store_events_no_wait (tr tr' : list Event) :
  extends store_event tr tr' → sleeps tr' = sleeps tr.
Proof.
  intros Hext. eapply extends_omap; [| exact Hext]. by intros [].
Qed.

(** ** The persistence sink and the classifier *)

Lemma append_not_self (s t : string) : t ≠ "" → s +:+ t ≠ s.
Proof.
  intros Ht. induction s as [|c s IH]; simpl.
  - done.
  - intros [= Heq]. by apply IH.
Qed.

Lemma stamped_name_fresh (env : Environment) (filename : string) (w : World) :
  stamped_name env filename w ≠ filename.
Proof. unfold stamped_name. by apply append_not_self. Qed.

Ltac unfold_sink :=
  unfold save_source_code, try_except, bind, ret, raise, logging, dir_exists,
    os_makedirs, file_exists, now_strftime, open_write, is_IOError.

Ltac unfold_classifier :=
  unfold process_response, time_sleep; unfold_sink.

Section Sink.

Variable ext : Externals.
Variable env : Environment.

(** [save_source_code] always returns; it adds log records and store
    events to the trace and leaves a store that exists. *)
Lemma save_source_code_effects (soup : Soup) (site : string) (w : World) :
  ∃ w',
    save_source_code ext env soup site w = (Ok tt, w') ∧
    extends store_event (trace w) (trace w') ∧
    same_counters w w' ∧
    is_Some (grammar_pages w').
Proof.
  unfold_sink.
  destruct (grammar_pages w) as [files|] eqn:Hdir; simpl; rewrite ?Hdir.
  - destruct (files !! _) eqn:Htaken; simpl; rewrite Hdir;
      destruct (write_fails env _); simpl; eexists; (split; [reflexivity |]);
        (split; [repeat constructor | split; [done | by eexists]]).
  - rewrite lookup_empty. simpl.
    destruct (write_fails env _); simpl; eexists; (split; [reflexivity |]);
      (split; [repeat constructor | split; [done | by eexists]]).
Qed.

(** When the write is refused, the sink logs the failure; the store has
    the files it had. *)
Lemma save_source_code_write_refused (soup : Soup) (site : string) (w : World) :
  write_fails env (save_target ext env site w) = true →
  ∃ w',
    save_source_code ext env soup site w = (Ok tt, w') ∧
    trace w' = EvLog ERROR (MsgSaveFailed site) :: 
               match grammar_pages w with
               | Some _ => trace w
               | None => EvMakedirs :: EvLog WARNING MsgCreatingDirectory
                           :: trace w
               end ∧
    grammar_pages w' = Some (default ∅ (grammar_pages w)) ∧
    same_counters w w'.
Proof.
  unfold save_target, stamped_name, artifact_name. unfold_sink.
  destruct (grammar_pages w) as [files|] eqn:Hdir; simpl; rewrite ?Hdir.
  - destruct (files !! _) eqn:Htaken; simpl; rewrite Hdir;
      intros ->; simpl; eexists; (split; [reflexivity |]); by simpl.
  - rewrite lookup_empty. simpl. intros ->. simpl.
    eexists; (split; [reflexivity |]); by simpl.
Qed.

(** When the write is accepted, the artifact is in the store under the
    name the sink chose. *)
Lemma save_source_code_write_accepted (soup : Soup) (site : string)
    (w : World) :
  write_fails env (save_target ext env site w) = false →
  ∃ w',
    save_source_code ext env soup site w = (Ok tt, w') ∧
    grammar_pages w' =
      Some (<[save_target ext env site w := Prettify soup]>
              (default ∅ (grammar_pages w))) ∧
    trace w' = EvWrite (save_target ext env site w) ::
               match grammar_pages w with
               | Some _ => trace w
               | None => EvMakedirs :: EvLog WARNING MsgCreatingDirectory
                           :: trace w
               end ∧
    same_counters w w'.
Proof.
  unfold save_target, stamped_name, artifact_name. unfold_sink.
  destruct (grammar_pages w) as [files|] eqn:Hdir; simpl; rewrite ?Hdir.
  - destruct (files !! _) eqn:Htaken; simpl; rewrite Hdir;
      intros ->; simpl; eexists; (split; [reflexivity |]); by simpl.
  - rewrite lookup_empty. simpl. intros ->. simpl.
    eexists; (split; [reflexivity |]); by simpl.
Qed.

(** C8 (amended). When the artifact name of a target is taken in the
    output store, [save_source_code] directs the write to the name with
    the timestamp suffix, which differs from the artifact name; the file
    under the artifact name and every file under another name than the
    suffixed one are as before; the suffixed name holds the new artifact
    when the write succeeds, and the store is as before when it fails. *)
Theorem save_source_code_keeps_existing_file
    (soup : Soup) (site : string) (w : World)
    (files : gmap string FileContent) (old : FileContent) :
  grammar_pages w = Some files →
  files !! artifact_name ext site = Some old →
  let stamped := stamped_name env (artifact_name ext site) w in
  ∃ w' files',
    save_source_code ext env soup site w = (Ok tt, w') ∧
    grammar_pages w' = Some files' ∧
    stamped ≠ artifact_name ext site ∧
    files' !! artifact_name ext site = Some old ∧
    (∀ name, name ≠ stamped → files' !! name = files !! name) ∧
    (write_fails env stamped = false →
       files' !! stamped = Some (Prettify soup) ∧
       written (trace w') = stamped :: written (trace w)) ∧
    (write_fails env stamped = true →
       files' = files ∧ written (trace w') = written (trace w)).
Proof.
  intros Hdir Hold stamped.
  pose proof (stamped_name_fresh env (artifact_name ext site) w) as Hfresh.
  subst stamped. unfold stamped_name, artifact_name in *.
  unfold_sink. rewrite Hdir. simpl. rewrite Hdir, Hold. simpl. rewrite Hdir.
  destruct (write_fails env _) eqn:Hfault; simpl.
  - exists (emit (EvLog ERROR (MsgSaveFailed site)) w), files.
    repeat split; try done.
  - eexists _, (<[_ := Prettify soup]> files).
    split; [reflexivity |]. simpl. repeat split; try done.
    + by rewrite lookup_insert_ne.
    + intros name Hname. by rewrite lookup_insert_ne.
    + by rewrite lookup_insert_eq.
Qed.

(** *** The four ways of [process_response] *)

Lemma process_response_http_error (response : Response) (site : string)
    (sleep_time : Q) (w : World) (e : RequestException) :
  raise_for_status ext response = Some e →
  process_response ext env response site sleep_time w =
    (Ok (mkResponseResult "error" site sleep_time false),
     emit (EvLog ERROR match e with
                       | HTTPError => MsgHttpError site
                       | _ => MsgRequestError site
                       end) w).
Proof.
  intros He. unfold_classifier. rewrite He. by destruct e.
Qed.

Lemma process_response_rate_limited (response : Response) (site : string)
    (sleep_time : Q) (w : World) :
  raise_for_status ext response = None →
  status_code response = 429%Z →
  process_response ext env response site sleep_time w =
    (Ok (mkResponseResult HARD_STOP site sleep_time false),
     emit (EvLog ERROR (MsgRateLimit site)) w).
Proof.
  intros Hok Hstatus. unfold_classifier. by rewrite Hok, Hstatus.
Qed.

Lemma process_response_success (response : Response) (site : string)
    (sleep_time : Q) (w : World) :
  raise_for_status ext response = None →
  status_code response ≠ 429%Z →
  (0 <= sleep_time)%Q →
  sleep_interrupted env (requests_made w) = false →
  process_response ext env response site sleep_time w =
    (Ok (mkResponseResult "scrape" site sleep_time true),
     snd (save_source_code ext env (BeautifulSoup (text response)) site
            (emit (EvSleep sleep_time) w))).
Proof.
  intros Hok Hstatus Hdelay Hcalm.
  destruct (save_source_code_effects (BeautifulSoup (text response)) site
              (emit (EvSleep sleep_time) w)) as (w' & Hsave & _).
  rewrite Hsave. revert Hsave.
  unfold process_response, time_sleep, try_except, bind, ret, raise.
  rewrite Hok. apply Z.eqb_neq in Hstatus. rewrite Hstatus.
  apply Qlt_bool_false in Hdelay. rewrite Hdelay, Hcalm.
  by intros ->.
Qed.

Lemma process_response_effects (response : Response) (site : string)
    (sleep_time : Q) (w : World) :
  ∃ r w',
    process_response ext env response site sleep_time w = (r, w') ∧
    classified site sleep_time r ∧
    extends local_event (trace w) (trace w') ∧
    same_counters w w' ∧
    (is_Some (grammar_pages w) → is_Some (grammar_pages w')).
Proof.
  destruct (raise_for_status ext response) as [e|] eqn:Hstatus.
  { rewrite (process_response_http_error _ _ _ _ e Hstatus).
    eexists _, _. split; [reflexivity |].
    split; [constructor |]. split; [by repeat constructor | done]. }
  destruct (decide (status_code response = 429%Z)) as [Hlimit | Hlimit].
  { rewrite (process_response_rate_limited _ _ _ _ Hstatus Hlimit).
    eexists _, _. split; [reflexivity |].
    split; [constructor |]. split; [by repeat constructor | done]. }
  destruct (Qlt_bool sleep_time 0) eqn:Hneg.
  { unfold process_response, time_sleep, try_except, bind, ret, raise.
    rewrite Hstatus. apply Z.eqb_neq in Hlimit. rewrite Hlimit, Hneg.
    eexists _, _. split; [reflexivity |].
    split; [constructor |]. split; [constructor | done]. }
  destruct (sleep_interrupted env (requests_made w)) eqn:Hint.
  { unfold process_response, time_sleep, try_except, bind, ret, raise.
    rewrite Hstatus. apply Z.eqb_neq in Hlimit. rewrite Hlimit, Hneg, Hint.
    eexists _, _. split; [reflexivity |].
    split; [constructor |]. split; [constructor | done]. }
  apply Qlt_bool_false in Hneg.
  rewrite (process_response_success _ _ _ _ Hstatus Hlimit Hneg Hint).
  destruct (save_source_code_effects (BeautifulSoup (text response)) site
              (emit (EvSleep sleep_time) w)) as (w' & -> & Hext & Hcnt & Hdir).
  eexists _, _. split; [reflexivity |]. simpl.
  split; [constructor |]. split; [| done].
  apply extends_trans with (EvSleep sleep_time :: trace w).
  - by repeat constructor.
  - eapply extends_weaken; [apply store_local | done].
Qed.

End Sink.

(** ** The crawl executor *)

Section Executor.

Variable ext : Externals.
Variable env : Environment.

(** *** One pass through the loop body *)

(** A target of the resume set is passed over: no call, no result, the
    session as it was. *)
Lemma loop_body_skip (skip_sites : list string) (min_session_interval : Q)
    (session : option nat) (site : string) (sleep_time : Q) (w : World) :
  should_skip ext skip_sites site = true →
  loop_body ext env skip_sites min_session_interval session site sleep_time w
    = (Continue, session, emit (EvLog INFO (MsgSkipping site)) w).
Proof.
  unfold should_skip, loop_body. by intros ->.
Qed.

(** The [try] block with its [except] clauses, when the call fails. *)
Lemma try_block_failed (session : option nat) (url site : string)
    (sleep_time : Q) (w : World) (e : RequestException) :
  network env (requests_made w) url = Failed e →
  try_except (try_block ext env session url site sleep_time)
    (except_clauses site sleep_time) w =
    (Ok Continue,
     emit (EvYield (mkResponseResult "error" site sleep_time false))
       (emit (EvLog ERROR match e with
                          | Timeout => MsgTimeout site
                          | _ => MsgRequestError site
                          end)
          (after_call session url w))).
Proof.
  intros Hnet.
  unfold try_except, try_block, http_get, bind. rewrite Hnet.
  by destruct e.
Qed.

(** ... when the call is interrupted. *)
Lemma try_block_interrupted (session : option nat) (url site : string)
    (sleep_time : Q) (w : World) :
  network env (requests_made w) url = Interrupted →
  try_except (try_block ext env session url site sleep_time)
    (except_clauses site sleep_time) w =
    (Raise KeyboardInterrupt, after_call session url w).
Proof.
  intros Hnet.
  unfold try_except, try_block, http_get, bind. by rewrite Hnet.
Qed.

(** ... when the call returns a response. *)
Lemma try_block_responded (session : option nat) (url site : string)
    (sleep_time : Q) (w : World) (response : Response) :
  network env (requests_made w) url = Responded response →
  try_except (try_block ext env session url site sleep_time)
    (except_clauses site sleep_time) w =
    match process_response ext env response site sleep_time
            (after_call session url w) with
    | (Ok result, w') =>
        if String.eqb (action result) "break"
        then (Ok Break, emit (EvLog DEBUG (MsgProcessed site)) w')
        else (Ok Continue,
              emit (EvYield result) (emit (EvLog DEBUG (MsgProcessed site)) w'))
    | (Raise e, w') => (Raise e, w')
    end.
Proof.
  intros Hnet.
  destruct (process_response_effects ext env response site sleep_time
              (after_call session url w)) as (r & w' & Hrun & Hr & _).
  unfold try_except, try_block, http_get, bind. rewrite Hnet.
  fold (after_call session url w). rewrite Hrun.
  destruct Hr; simpl; done.
Qed.

(** *** The session variable *)

Lemma live_sessions_close (sid : nat) (tr : list Event) :
  live_sessions tr = [sid] → live_sessions (EvSessionClose sid :: tr) = [].
Proof.
  intros Hlive. simpl. rewrite Hlive.
  rewrite filter_cons_False by (intros Hne; by apply Hne). done.
Qed.

Lemma choose_session_bookkeeping (min_session_interval : Q)
    (session : option nat) (sleep_time : Q) (w : World) :
  bookkeeping w (snd (choose_session min_session_interval session sleep_time w)).
Proof.
  unfold choose_session, bookkeeping.
  destruct (Qlt_bool _ _), session; simpl;
    (split; [by repeat constructor | done]).
Qed.

Lemma finally_clause_bookkeeping (min_session_interval : Q)
    (session : option nat) (sleep_time : Q) (w : World) :
  bookkeeping w (snd (finally_clause min_session_interval session sleep_time w)).
Proof.
  unfold finally_clause, bookkeeping.
  destruct session; [destruct (Qle_bool _ _) |]; simpl;
    (split; [by repeat constructor | done]).
Qed.

(** The session variable after the choice: a session when the delay is
    below the threshold, none otherwise; a session is opened only when
    the delay is below the threshold and none was held. *)
Lemma choose_session_variable (min_session_interval : Q)
    (session : option nat) (sleep_time : Q) (w : World) :
  let chosen := choose_session min_session_interval session sleep_time w in
  ((sleep_time < min_session_interval)%Q → is_Some (fst chosen)) ∧
  ((min_session_interval <= sleep_time)%Q → fst chosen = None) ∧
  (∀ sid, EvSessionOpen sid ∈ trace (snd chosen) →
          EvSessionOpen sid ∈ trace w ∨
          ((sleep_time < min_session_interval)%Q ∧ session = None)).
Proof.
  unfold choose_session. simpl.
  destruct (Qlt_bool sleep_time min_session_interval) eqn:Hshort.
  - apply Qlt_bool_true in Hshort.
    destruct session as [sid|]; simpl.
    + split; [by eexists |]. split; [intros; exfalso; lra | by left].
    + split; [by eexists |]. split; [intros; exfalso; lra |].
      intros sid [[= _] | Hin]%elem_of_cons; [by right | by left].
  - apply Qlt_bool_false in Hshort.
    destruct session as [sid|]; simpl.
    + split; [intros; exfalso; lra |]. split; [done |].
      intros sid' [[=] | Hin]%elem_of_cons; by left.
    + split; [intros; exfalso; lra |]. split; [done | by left].
Qed.

Lemma choose_session_inv (min_session_interval : Q) (session : option nat)
    (sleep_time : Q) (w : World) :
  session_inv session w →
  let chosen := choose_session min_session_interval session sleep_time w in
  session_inv (fst chosen) (snd chosen).
Proof.
  intros [Hlive Hone]. unfold choose_session. simpl.
  destruct (Qlt_bool sleep_time min_session_interval),
    session as [sid|]; simpl in *; try done.
  - split; [simpl; by rewrite Hlive |].
    apply at_most_one_live_cons; [done |]. simpl. by rewrite Hlive.
  - split; [by apply live_sessions_close |].
    apply at_most_one_live_cons; [done |].
    rewrite live_sessions_close by done. simpl. lia.
Qed.

(** The session variable after the [finally] clause: as it was when the
    delay is below the threshold, none otherwise; the clause opens no
    session. *)
Lemma finally_clause_variable (min_session_interval : Q)
    (session : option nat) (sleep_time : Q) (w : World) :
  let final := finally_clause min_session_interval session sleep_time w in
  ((sleep_time < min_session_interval)%Q →
     fst final = session ∧ live_sessions (trace (snd final))
                           = live_sessions (trace w)) ∧
  ((min_session_interval <= sleep_time)%Q → fst final = None) ∧
  (∀ sid, EvSessionOpen sid ∈ trace (snd final) → EvSessionOpen sid ∈ trace w).
Proof.
  unfold finally_clause. simpl.
  destruct session as [sid|]; simpl; [| done].
  destruct (Qle_bool min_session_interval sleep_time) eqn:Hlong; simpl.
  - apply Qle_bool_iff in Hlong.
    split; [intros; exfalso; lra |]. split; [done |].
    intros sid' [[=] | [[=] | Hin]%elem_of_cons]%elem_of_cons. done.
  - apply Qle_bool_false in Hlong. split; [done |].
    split; [intros; exfalso; lra | done].
Qed.

Lemma finally_clause_inv (min_session_interval : Q) (session : option nat)
    (sleep_time : Q) (w : World) :
  session_inv session w →
  let final := finally_clause min_session_interval session sleep_time w in
  session_inv (fst final) (snd final).
Proof.
  intros [Hlive Hone]. unfold finally_clause. simpl.
  destruct session as [sid|]; simpl in *; [| done].
  destruct (Qle_bool min_session_interval sleep_time); simpl; [| done].
  split; [by apply live_sessions_close |].
  apply at_most_one_live_cons; [apply at_most_one_live_cons; [done |] |].
  - rewrite live_sessions_close by done. simpl. lia.
  - simpl. rewrite Hlive.
    rewrite filter_cons_False by (intros Hne; by apply Hne). simpl. lia.
Qed.

(** *** What every pass through the body does *)

Lemma try_block_effects (session : option nat) (url site : string)
    (sleep_time : Q) (w : World) :
  ∃ r w',
    try_except (try_block ext env session url site sleep_time)
      (except_clauses site sleep_time) w = (r, w') ∧
    extends no_session_event (trace w) (trace w') ∧
    requested (trace w') = url :: requested (trace w) ∧
    requests_made w' = S (requests_made w) ∧
    (is_Some (grammar_pages w) → is_Some (grammar_pages w')).
Proof.
  destruct (network env (requests_made w) url) as [response|e|] eqn:Hnet.
  - rewrite (try_block_responded _ _ _ _ _ _ Hnet).
    destruct (process_response_effects ext env response site sleep_time
                (after_call session url w))
      as (r & w2 & -> & Hr & Hext & (Hreq & _) & Hdir).
    destruct (local_observations _ _ Hext) as (_ & Hcalls & _).
    assert (extends no_session_event (trace w) (trace w2)) as Hext'.
    { eapply extends_trans; [by apply (extends_cons _ _ (EvGet session url)),
                                       extends_refl |].
      eapply extends_weaken; [apply local_no_session | done]. }
    destruct Hr; simpl;
      (eexists _, _; split; [reflexivity |]; simpl;
       split; [by repeat constructor |]; rewrite Hcalls, Hreq; done).
  - rewrite (try_block_failed _ _ _ _ _ e Hnet).
    eexists _, _. split; [reflexivity |]. simpl.
    split; [by repeat constructor | done].
  - rewrite (try_block_interrupted _ _ _ _ _ Hnet).
    eexists _, _. split; [reflexivity |]. simpl.
    split; [by repeat constructor | done].
Qed.

Lemma loop_body_effects (skip_sites : list string) (min_session_interval : Q)
    (session : option nat) (site : string) (sleep_time : Q) (w : World) :
  ∃ c session' w',
    loop_body ext env skip_sites min_session_interval session site
      sleep_time w = (c, session', w') ∧
    (session_inv session w → session_inv session' w') ∧
    requested (trace w') =
      (if should_skip ext skip_sites site then []
       else [quote ext site ":/?=&"]) ++ requested (trace w) ∧
    requests_made w' =
      (if should_skip ext skip_sites site then 0 else 1)
      + requests_made w ∧
    (is_Some (grammar_pages w) → is_Some (grammar_pages w')) ∧
    (should_skip ext skip_sites site = false →
     (min_session_interval <= sleep_time)%Q → session' = None) ∧
    (∀ sid, EvSessionOpen sid ∈ trace w' →
            EvSessionOpen sid ∈ trace w ∨
            ((sleep_time < min_session_interval)%Q ∧ session = None ∧
             should_skip ext skip_sites site = false)).
Proof.
  destruct (should_skip ext skip_sites site) eqn:Hskip.
  { rewrite (loop_body_skip _ _ _ _ _ _ Hskip).
    eexists _, _, _. split; [reflexivity |]. simpl.
    split.
    { intros [Hlive Hone]. split; [done |].
      apply at_most_one_live_cons; [done | simpl; by apply Hone]. }
    repeat split; try done.
    intros sid [[=] | Hin]%elem_of_cons. by left. }
  unfold loop_body. unfold should_skip in Hskip. rewrite Hskip.
  pose proof (choose_session_bookkeeping min_session_interval session
                sleep_time w) as Hbk1.
  pose proof (choose_session_inv min_session_interval session sleep_time w)
    as Hinv1.
  pose proof (choose_session_variable min_session_interval session
                sleep_time w) as (_ & _ & Hopen1).
  destruct (choose_session min_session_interval session sleep_time w)
    as [s1 w1]. simpl in Hbk1, Hinv1, Hopen1.
  destruct (try_block_effects s1 (quote ext site ":/?=&") site sleep_time w1)
    as (r & w2 & -> & Hext & Hcalls & Hcount & Hdir).
  pose proof (finally_clause_bookkeeping min_session_interval s1
                sleep_time w2) as Hbk2.
  pose proof (finally_clause_inv min_session_interval s1 sleep_time w2)
    as Hinv2.
  pose proof (finally_clause_variable min_session_interval s1
                sleep_time w2) as (_ & Hlong2 & Hopen2).
  destruct (finally_clause min_session_interval s1 sleep_time w2)
    as [s2 w3]. simpl in Hbk2, Hinv2, Hlong2, Hopen2.
  eexists _, _, _. split; [reflexivity |].
  destruct (bookkeeping_observations _ _ Hbk1) as (_ & Hc1 & _).
  destruct (bookkeeping_observations _ _ Hbk2) as (_ & Hc2 & _).
  destruct Hbk1 as (_ & Hg1 & Hn1 & _), Hbk2 as (_ & Hg2 & Hn2 & _).
  split.
  { intros Hinv. apply Hinv2. destruct (Hinv1 Hinv) as [Hlive Hone].
    split.
    - by rewrite (extends_live_sessions _ _ Hext).
    - by apply (extends_at_most_one_live _ _ Hext). }
  split; [by rewrite Hc2, Hcalls, Hc1 |].
  split; [rewrite Hn2, Hcount, Hn1; done |].
  split; [rewrite Hg2, <- Hg1; done |].
  split; [intros _; exact Hlong2 |].
  intros sid Hopen. apply Hopen2 in Hopen.
  apply (extends_elem_of _ _ _ _ Hext) in Hopen; [| done].
  destruct (Hopen1 sid Hopen) as [? | [? ?]]; [by left | by right].
Qed.

(** A pass for a target the resume filter lets through: bookkeeping,
    then the [try] block with its [except] clauses, then bookkeeping. *)
Lemma loop_body_structure (skip_sites : list string) (min_session_interval : Q)
    (session : option nat) (site : string) (sleep_time : Q) (w : World) :
  should_skip ext skip_sites site = false →
  ∃ s1 w1,
    bookkeeping w w1 ∧
    ((sleep_time < min_session_interval)%Q → is_Some s1) ∧
    ∀ r w2,
      try_except (try_block ext env s1 (quote ext site ":/?=&") site sleep_time)
        (except_clauses site sleep_time) w1 = (r, w2) →
      ∃ session' w',
        loop_body ext env skip_sites min_session_interval session site
          sleep_time w
        = (match r with Ok c => c | Raise e => Propagate e end, session', w') ∧
        bookkeeping w2 w' ∧
        ((sleep_time < min_session_interval)%Q → session' = s1).
Proof.
  intros Hskip. unfold loop_body. unfold should_skip in Hskip. rewrite Hskip.
  pose proof (choose_session_bookkeeping min_session_interval session
                sleep_time w) as Hbk1.
  pose proof (choose_session_variable min_session_interval session
                sleep_time w) as (Hsome & _).
  destruct (choose_session min_session_interval session sleep_time w)
    as [s1 w1]. simpl in Hbk1, Hsome.
  exists s1, w1. split; [done |]. split; [done |].
  intros r w2 ->.
  pose proof (finally_clause_bookkeeping min_session_interval s1
                sleep_time w2) as Hbk2.
  pose proof (finally_clause_variable min_session_interval s1
                sleep_time w2) as (Hkeep & _).
  destruct (finally_clause min_session_interval s1 sleep_time w2)
    as [s2 w3]. simpl in Hbk2, Hkeep.
  exists s2, w3. split; [done |]. split; [done |].
  intros Hshort. by apply Hkeep.
Qed.

(** A call that fails is recorded as an error, without a wait, and the
    loop goes on. *)
Lemma loop_body_failed (skip_sites : list string) (min_session_interval : Q)
    (session : option nat) (site : string) (sleep_time : Q) (w : World)
    (e : RequestException) :
  should_skip ext skip_sites site = false →
  network env (requests_made w) (quote ext site ":/?=&") = Failed e →
  ∃ session' w',
    loop_body ext env skip_sites min_session_interval session site
      sleep_time w = (Continue, session', w') ∧
    yielded (trace w') =
      mkResponseResult "error" site sleep_time false :: yielded (trace w) ∧
    sleeps (trace w') = sleeps (trace w) ∧
    written (trace w') = written (trace w) ∧
    grammar_pages w' = grammar_pages w ∧
    ((sleep_time < min_session_interval)%Q → is_Some session').
Proof.
  intros Hskip Hnet.
  destruct (loop_body_structure skip_sites min_session_interval session site
              sleep_time w Hskip) as (s1 & w1 & Hbk1 & Hsome & Hbody).
  destruct (bookkeeping_observations _ _ Hbk1) as (Hy1 & _ & Hs1 & Hw1 & _).
  destruct Hbk1 as (_ & Hg1 & Hn1 & _).
  rewrite <- Hn1 in Hnet.
  destruct (Hbody _ _ (try_block_failed s1 _ site sleep_time w1 e Hnet))
    as (s' & w' & -> & Hbk2 & Hkeep).
  destruct (bookkeeping_observations _ _ Hbk2) as (Hy2 & _ & Hs2 & Hw2 & _).
  destruct Hbk2 as (_ & Hg2 & _).
  exists s', w'. split; [done |].
  rewrite Hy2, Hs2, Hw2, Hg2. simpl. rewrite Hy1, Hs1, Hw1, Hg1.
  repeat split; try done.
  intros Hshort. rewrite (Hkeep Hshort). by apply Hsome.
Qed.

(** A response is handed to the classifier; its result is yielded unless
    it is a hard stop, which leaves the loop. *)
Lemma loop_body_responded (skip_sites : list string) (min_session_interval : Q)
    (session : option nat) (site : string) (sleep_time : Q) (w : World)
    (response : Response) :
  should_skip ext skip_sites site = false →
  network env (requests_made w) (quote ext site ":/?=&") = Responded response →
  ∃ s1 w1,
    same_observations w w1 ∧
    ((sleep_time < min_session_interval)%Q → is_Some s1) ∧
    match process_response ext env response site sleep_time
            (after_call s1 (quote ext site ":/?=&") w1) with
    | (Ok result, w2) =>
        ∃ session' w',
          loop_body ext env skip_sites min_session_interval session site
            sleep_time w
          = (if String.eqb (action result) "break" then Break else Continue,
             session', w') ∧
          same_observations
            (if String.eqb (action result) "break" then w2
             else emit (EvYield result) w2) w'
    | (Raise e, w2) =>
        ∃ session' w',
          loop_body ext env skip_sites min_session_interval session site
            sleep_time w = (Propagate e, session', w') ∧
          same_observations w2 w'
    end.
Proof.
  intros Hskip Hnet.
  destruct (loop_body_structure skip_sites min_session_interval session site
              sleep_time w Hskip) as (s1 & w1 & Hbk1 & Hsome & Hbody).
  pose proof Hbk1 as (_ & _ & Hn1 & _).
  rewrite <- Hn1 in Hnet.
  pose proof (try_block_responded s1 _ site sleep_time w1 response Hnet)
    as Htry.
  apply bookkeeping_same_observations in Hbk1.
  exists s1, w1. split; [done |]. split; [done |].
  destruct (process_response ext env response site sleep_time
              (after_call s1 (quote ext site ":/?=&") w1)) as [[result|e] w2].
  - destruct (String.eqb (action result) "break");
      destruct (Hbody _ _ Htry) as (s' & w' & Hrun & Hbk2 & _);
      apply bookkeeping_same_observations in Hbk2;
      exists s', w'; (split; [done |]); [done |].
    eapply same_observations_trans; [| exact Hbk2]. by unfold same_observations.
  - destruct (Hbody _ _ Htry) as (s' & w' & Hrun & Hbk2 & _).
    apply bookkeeping_same_observations in Hbk2.
    by exists s', w'.
Qed.

Lemma loop_body_calls (skip_sites : list string) (min_session_interval : Q)
    (session : option nat) (site : string) (sleep_time : Q) (w : World)
    (c : Control) (session' : option nat) (w' : World) :
  should_skip ext skip_sites site = false →
  loop_body ext env skip_sites min_session_interval session site sleep_time w
    = (c, session', w') →
  requested (trace w') = quote ext site ":/?=&" :: requested (trace w) ∧
  requests_made w' = S (requests_made w).
Proof.
  intros Hskip Hrun.
  destruct (loop_body_effects skip_sites min_session_interval session site
              sleep_time w) as (? & ? & ? & Hrun' & _ & Hreq & Hcount & _).
  rewrite Hrun in Hrun'. injection Hrun' as <- <- <-.
  rewrite Hskip in Hreq, Hcount. done.
Qed.

Lemma save_target_agree (site : string) (w w' : World) :
  grammar_pages w' = grammar_pages w → requests_made w' = requests_made w →
  save_target ext env site w' = save_target ext env site w.
Proof.
  unfold save_target, stamped_name. by intros -> ->.
Qed.

(** An HTTP error status is recorded as an error, without a wait, and the
    loop goes on. *)
Lemma loop_body_error_status (skip_sites : list string)
    (min_session_interval : Q) (session : option nat) (site : string)
    (sleep_time : Q) (w : World) (response : Response)
    (e : RequestException) :
  should_skip ext skip_sites site = false →
  network env (requests_made w) (quote ext site ":/?=&") = Responded response →
  raise_for_status ext response = Some e →
  ∃ session' w',
    loop_body ext env skip_sites min_session_interval session site
      sleep_time w = (Continue, session', w') ∧
    yielded (trace w') =
      mkResponseResult "error" site sleep_time false :: yielded (trace w) ∧
    sleeps (trace w') = sleeps (trace w) ∧
    written (trace w') = written (trace w) ∧
    grammar_pages w' = grammar_pages w.
Proof.
  intros Hskip Hnet Hstatus.
  destruct (loop_body_responded skip_sites min_session_interval session site
              sleep_time w response Hskip Hnet)
    as (s1 & w1 & Hobs1 & _ & Hcase).
  rewrite (process_response_http_error ext env _ _ _ _ e Hstatus) in Hcase.
  destruct Hcase as (s' & w' & Hrun & Hobs2). simpl in Hrun, Hobs2.
  exists s', w'. split; [done |].
  destruct Hobs1 as (Hy1 & _ & Hs1 & Hw1 & _ & Hg1 & _).
  destruct Hobs2 as (Hy2 & _ & Hs2 & Hw2 & _ & Hg2 & _).
  simpl in *. rewrite Hy2, Hs2, Hw2, Hg2, Hy1, Hs1, Hw1, Hg1. done.
Qed.


(** A successful response: the wait, the write, a [CONTINUE] result, and
    the loop goes on, whether the write was accepted or refused. *)
Lemma loop_body_success (skip_sites : list string)
    (min_session_interval : Q) (session : option nat) (site : string)
    (sleep_time : Q) (w : World) (response : Response) :
  should_skip ext skip_sites site = false →
  network env (requests_made w) (quote ext site ":/?=&") = Responded response →
  raise_for_status ext response = None →
  status_code response ≠ 429%Z →
  (0 <= sleep_time)%Q →
  sleep_interrupted env (S (requests_made w)) = false →
  let target := save_target ext env site (count_request w) in
  ∃ session' w',
    loop_body ext env skip_sites min_session_interval session site
      sleep_time w = (Continue, session', w') ∧
    yielded (trace w') =
      mkResponseResult "scrape" site sleep_time true :: yielded (trace w) ∧
    sleeps (trace w') = sleep_time :: sleeps (trace w) ∧
    if write_fails env target
    then written (trace w') = written (trace w) ∧
         errors (trace w') = MsgSaveFailed site :: errors (trace w) ∧
         grammar_pages w' = Some (default ∅ (grammar_pages w))
    else written (trace w') = target :: written (trace w) ∧
         errors (trace w') = errors (trace w) ∧
         grammar_pages w' =
           Some (<[target := Prettify (BeautifulSoup (text response))]>
                   (default ∅ (grammar_pages w))).
Proof.
  intros Hskip Hnet Hstatus Hlimit Hdelay Hcalm target.
  destruct (loop_body_responded skip_sites min_session_interval session site
              sleep_time w response Hskip Hnet)
    as (s1 & w1 & Hobs1 & _ & Hcase).
  destruct Hobs1 as (Hy1 & _ & Hs1 & Hw1 & He1 & Hg1 & Hn1).
  set (w1' := after_call s1 (quote ext site ":/?=&") w1) in *.
  assert (sleep_interrupted env (requests_made w1') = false) as Hcalm'
    by (simpl; by rewrite Hn1).
  rewrite (process_response_success ext env _ _ _ _ Hstatus Hlimit Hdelay
             Hcalm') in Hcase.
  destruct Hcase as (s' & w' & Hrun & Hobs2). simpl in Hrun, Hobs2.
  exists s', w'. split; [done |].
  destruct Hobs2 as (Hy2 & _ & Hs2 & Hw2 & He2 & Hg2 & _). simpl in *.
  set (w2 := emit (EvSleep sleep_time) w1') in *.
  assert (save_target ext env site w2 = target) as Htarget.
  { apply save_target_agree; simpl; [done | by rewrite Hn1]. }
  rewrite Hy2, Hs2, Hw2, He2, Hg2.
  assert (grammar_pages w2 = grammar_pages w) as Hg by done.
  destruct (write_fails env target) eqn:Hfault.
  - destruct (save_source_code_write_refused ext env
                (BeautifulSoup (text response)) site w2)
      as (w3 & -> & Htr & Hdir & _); [by rewrite Htarget |].
    simpl. rewrite Htr, Hdir, Hg.
    destruct (grammar_pages w); simpl; rewrite Hy1, Hs1, Hw1, He1; done.
  - destruct (save_source_code_write_accepted ext env
                (BeautifulSoup (text response)) site w2)
      as (w3 & -> & Hdir & Htr & _); [by rewrite Htarget |].
    simpl. rewrite Htr, Hdir, Hg, Htarget.
    destruct (grammar_pages w); simpl; rewrite Hy1, Hs1, Hw1, He1; done.
Qed.

(** *** The loop *)

Lemma scrape_loop_effects (skip_sites : list string) (min_session_interval : Q)
    (sites_times : list (string * Q)) :
  ∀ (session : option nat) (w : World),
    ∃ c session' w' fetched,
      scrape_loop ext env skip_sites min_session_interval session
        sites_times w = (c, session', w') ∧
      (session_inv session w → session_inv session' w') ∧
      (is_Some (grammar_pages w) → is_Some (grammar_pages w')) ∧
      requested (trace w') = reverse fetched ++ requested (trace w) ∧
      requests_made w' = length fetched + requests_made w ∧
      fetched `prefix_of` (fetchable ext skip_sites sites_times.*1) ∧
      (∀ sid, EvSessionOpen sid ∈ trace w' →
              EvSessionOpen sid ∈ trace w ∨
              ∃ site sleep_time,
                (site, sleep_time) ∈ sites_times ∧
                (sleep_time < min_session_interval)%Q ∧
                should_skip ext skip_sites site = false).
Proof.
  induction sites_times as [|[site sleep_time] rest IH]; intros session w.
  { exists Continue, session, w, []. simpl.
    split; [done |]. split; [done |]. split; [done |]. split; [done |].
    split; [done |]. split; [done | by left]. }
  simpl.
  destruct (loop_body_effects skip_sites min_session_interval session site
              sleep_time w)
    as (c & s1 & w1 & -> & Hinv1 & Hreq1 & Hcount1 & Hdir1 & _ & Hopen1).
  assert (∀ fetched : list string,
            fetched `prefix_of` (fetchable ext skip_sites rest.*1) →
            ((if should_skip ext skip_sites site then []
              else [quote ext site ":/?=&"]) ++ fetched)
              `prefix_of` (fetchable ext skip_sites
                             ((site, sleep_time) :: rest).*1))
    as Hprefix.
  { intros fetched Hfetched. unfold fetchable in *. simpl.
    rewrite filter_cons.
    destruct (decide (should_skip ext skip_sites site = false)) as [Hgo | Hgo].
    - rewrite Hgo. simpl. by apply prefix_cons.
    - apply not_false_is_true in Hgo. rewrite Hgo. done. }
  assert (∀ sid, EvSessionOpen sid ∈ trace w1 →
            EvSessionOpen sid ∈ trace w ∨
            ∃ site' sleep_time',
              (site', sleep_time') ∈ (site, sleep_time) :: rest ∧
              (sleep_time' < min_session_interval)%Q ∧
              should_skip ext skip_sites site' = false) as Hopen1'.
  { intros sid Hsid. destruct (Hopen1 sid Hsid) as [? | (? & _ & ?)];
      [by left | right]. exists site, sleep_time. split; [by left | done]. }
  destruct c.
  - destruct (IH s1 w1)
      as (c & s2 & w2 & fetched & -> & Hinv2 & Hdir2 & Hreq2 & Hcount2
          & Hpre2 & Hopen2).
    exists c, s2, w2,
      ((if should_skip ext skip_sites site then []
        else [quote ext site ":/?=&"]) ++ fetched).
    split; [done |]. split; [auto |]. split; [auto |].
    split.
    { rewrite Hreq2, Hreq1.
      destruct (should_skip ext skip_sites site); simpl; [done |].
      rewrite reverse_cons, <- app_assoc. done. }
    split.
    { rewrite Hcount2, Hcount1, length_app.
      destruct (should_skip ext skip_sites site); simpl; lia. }
    split; [by apply Hprefix |].
    intros sid Hsid. destruct (Hopen2 sid Hsid) as [Hw1 | Hrest].
    + by apply Hopen1'.
    + right. destruct Hrest as (site' & t' & Hin & Hlt).
      exists site', t'. split; [by right | done].
  - exists Break, s1, w1,
      (if should_skip ext skip_sites site then []
       else [quote ext site ":/?=&"]).
    split; [done |]. split; [done |]. split; [done |].
    split.
    { rewrite Hreq1. by destruct (should_skip ext skip_sites site). }
    split.
    { rewrite Hcount1. by destruct (should_skip ext skip_sites site). }
    split; [| done].
    specialize (Hprefix [] (prefix_nil _)). by rewrite app_nil_r in Hprefix.
  - exists (Propagate e), s1, w1,
      (if should_skip ext skip_sites site then []
       else [quote ext site ":/?=&"]).
    split; [done |]. split; [done |]. split; [done |].
    split.
    { rewrite Hreq1. by destruct (should_skip ext skip_sites site). }
    split.
    { rewrite Hcount1. by destruct (should_skip ext skip_sites site). }
    split; [| done].
    specialize (Hprefix [] (prefix_nil _)). by rewrite app_nil_r in Hprefix.
Qed.

(** *** The whole run *)

Lemma scrape_sites_sessions (sites : list string) (times : list Q)
    (min_session_interval : Q) (w : World) :
  session_inv None w →
  ∃ r w',
    scrape_sites ext env sites times min_session_interval w = (r, w') ∧
    at_most_one_live (trace w') ∧
    (r = Ok tt ∨ r = Raise KeyboardInterrupt → live_sessions (trace w') = []) ∧
    (∀ sid, EvSessionOpen sid ∈ trace w' →
            EvSessionOpen sid ∈ trace w ∨
            ∃ site sleep_time,
              (site, sleep_time) ∈ zip sites times ∧
              (sleep_time < min_session_interval)%Q).
Proof.
  intros Hinv. unfold scrape_sites, os_listdir.
  destruct (grammar_pages w) as [files|].
  2:{ eexists _, _. split; [reflexivity |]. destruct Hinv as [Hlive Hone].
      split; [done |]. split; [done | by left]. }
  destruct (scrape_loop_effects (map before_first_dot (map fst (map_to_list files)))
              min_session_interval (zip sites times) None w)
    as (c & s' & w' & fetched & -> & Hinv' & _ & _ & _ & _ & Hopen).
  destruct (Hinv' Hinv) as [Hlive Hone].
  assert (∀ sid,
            EvSessionOpen sid ∈ trace w' →
            EvSessionOpen sid ∈ trace w ∨
            ∃ site sleep_time,
              (site, sleep_time) ∈ zip sites times ∧
              (sleep_time < min_session_interval)%Q) as Hopen'.
  { intros sid Hsid. destruct (Hopen sid Hsid) as [? | (site & t & ? & ? & _)];
      [by left | right; by exists site, t]. }
  destruct c as [| |e]; [| |destruct e]; destruct s' as [sid|];
    simpl in Hlive; unfold session_close, logging, bind; simpl;
    (eexists _, _; split; [reflexivity |]; simpl).
  all: try (split; [done |]; split; [try done; by intros [[=] | [=]] |
                                      exact Hopen']).
  all: try (split;
      [repeat (apply at_most_one_live_cons; [| simpl; rewrite ?Hlive;
         rewrite ?filter_cons_False by (intros Hne; by apply Hne);
         simpl; lia]); done |]).
  all: try (split;
      [intros _; rewrite ?Hlive;
         rewrite ?filter_cons_False by (intros Hne; by apply Hne); done |]).
  all: try (intros sid' Hsid;
      repeat (apply elem_of_cons in Hsid as [[=] | Hsid]); by apply Hopen').
Qed.


(** *** Delay, persistence failure *)



(** *** The session *)

(** The [try] block begins with the call: every other event of the
    block comes after it, and none of them opens or closes a session. *)
Lemma try_block_after_call (session : option nat) (url site : string)
    (sleep_time : Q) (w : World) :
  ∃ r w',
    try_except (try_block ext env session url site sleep_time)
      (except_clauses site sleep_time) w = (r, w') ∧
    extends no_session_event (trace (after_call session url w)) (trace w').
Proof.
  destruct (network env (requests_made w) url) as [response|e|] eqn:Hnet.
  - rewrite (try_block_responded _ _ _ _ _ _ Hnet).
    destruct (process_response_effects ext env response site sleep_time
                (after_call session url w))
      as (r & w2 & -> & Hr & Hext & _).
    assert (extends no_session_event (trace (after_call session url w))
              (trace w2)) as Hext'.
    { eapply extends_weaken; [apply local_no_session | done]. }
    destruct Hr; simpl;
      (eexists _, _; split; [reflexivity |]; simpl; by repeat constructor).
  - rewrite (try_block_failed _ _ _ _ _ e Hnet).
    eexists _, _. split; [reflexivity |]. simpl. by repeat constructor.
  - rewrite (try_block_interrupted _ _ _ _ _ Hnet).
    eexists _, _. split; [reflexivity |]. constructor.
Qed.

(** A pass whose delay is at or above the threshold: the session that
    is held is closed first, then the call is made without a session, and
    no session is opened or closed after the call. *)
Lemma loop_body_isolated_call (skip_sites : list string)
    (min_session_interval : Q) (session : option nat) (site : string)
    (sleep_time : Q) (w : World) :
  should_skip ext skip_sites site = false →
  (min_session_interval <= sleep_time)%Q →
  ∃ c w' later,
    loop_body ext env skip_sites min_session_interval session site
      sleep_time w = (c, None, w') ∧
    trace w' =
      later ++ EvGet None (quote ext site ":/?=&")
      :: match session with
         | Some sid => [EvSessionClose sid]
         | None => []
         end ++ trace w ∧
    Forall (λ e, no_session_event e = true) later.
Proof.
  intros Hskip Hlong. unfold loop_body. unfold should_skip in Hskip.
  rewrite Hskip. unfold choose_session.
  apply Qlt_bool_false in Hlong. rewrite Hlong.
  set (w1 := match session with
             | Some sid => snd (session_close sid w)
             | None => w
             end).
  assert ((let (session0, w0) :=
             match session with
             | Some sid => (None, snd (session_close sid w))
             | None => (None, w)
             end in
           let (r, w2) :=
             try_except
               (try_block ext env session0 (quote ext site ":/?=&") site
                  sleep_time) (except_clauses site sleep_time) w0 in
           let (session1, w3) :=
             finally_clause min_session_interval session0 sleep_time w2 in
           (match r with Ok c => c | Raise e => Propagate e end, session1, w3))
          = (let (r, w2) :=
               try_except
                 (try_block ext env None (quote ext site ":/?=&") site
                    sleep_time) (except_clauses site sleep_time) w1 in
             (match r with Ok c => c | Raise e => Propagate e end, None, w2)))
    as ->.
  { subst w1. by destruct session. }
  destruct (try_block_after_call None (quote ext site ":/?=&") site
              sleep_time w1) as (r & w2 & -> & Hext).
  apply extends_app in Hext as (later & Htr & Hall).
  eexists _, w2, later. split; [reflexivity |]. split; [| done].
  rewrite Htr. subst w1. by destruct session.
Qed.

(** C6 (amended). In one pass through the loop body the session
    invariant is kept; a session is opened only when the delay of the
    request is below the threshold and none is held; when the delay is
    at or above the threshold the session that is held is closed before
    the call, the call is made without a session, nothing opens or
    closes a session after it, and the variable is [None]; a request
    that fails with a delay below the threshold leaves the session open
    (the cleanup of the [finally] clause closes only at or above the
    threshold). Over the whole run at most one session is open at every
    moment, sessions are opened only for requests with a delay below the
    threshold, and none is open when the run returns or is cancelled by
    [KeyboardInterrupt]. *)
Theorem session_lifecycle :
  (∀ skip_sites min_session_interval session site sleep_time w,
     session_inv session w →
     ∃ c session' w',
       loop_body ext env skip_sites min_session_interval session site
         sleep_time w = (c, session', w') ∧
       session_inv session' w' ∧
       (∀ sid, EvSessionOpen sid ∈ trace w' →
               EvSessionOpen sid ∈ trace w ∨
               ((sleep_time < min_session_interval)%Q ∧ session = None)) ∧
       (should_skip ext skip_sites site = false →
        (min_session_interval <= sleep_time)%Q →
        session' = None ∧ live_sessions (trace w') = [] ∧
        ∃ later,
          trace w' =
            later ++ EvGet None (quote ext site ":/?=&")
            :: match session with
               | Some sid => [EvSessionClose sid]
               | None => []
               end ++ trace w ∧
          Forall (λ e, no_session_event e = true) later) ∧
       (should_skip ext skip_sites site = false →
        (sleep_time < min_session_interval)%Q →
        ∀ e, network env (requests_made w) (quote ext site ":/?=&")
               = Failed e →
             c = Continue ∧
             ∃ sid, session' = Some sid ∧ live_sessions (trace w') = [sid])) ∧
  (∀ sites times min_session_interval w,
     session_inv None w →
     ∃ r w',
       scrape_sites ext env sites times min_session_interval w = (r, w') ∧
       at_most_one_live (trace w') ∧
       (r = Ok tt ∨ r = Raise KeyboardInterrupt →
        live_sessions (trace w') = []) ∧
       (∀ sid, EvSessionOpen sid ∈ trace w' →
               EvSessionOpen sid ∈ trace w ∨
               ∃ site sleep_time,
                 (site, sleep_time) ∈ zip sites times ∧
                 (sleep_time < min_session_interval)%Q)).
Proof.
  split.
  - intros skip_sites min_session_interval session site sleep_time w Hinv.
    destruct (loop_body_effects skip_sites min_session_interval session site
                sleep_time w)
      as (c & s' & w' & Hrun & Hinv' & _ & _ & _ & Hlong & Hopen).
    exists c, s', w'. split; [done |].
    destruct (Hinv' Hinv) as [Hlive Hone].
    split; [done |]. split.
    { intros sid Hsid. destruct (Hopen sid Hsid) as [? | (? & ? & _)];
        [by left | by right]. }
    split.
    { intros Hskip Hle. specialize (Hlong Hskip Hle). subst s'.
      split; [done |]. split; [done |].
      destruct (loop_body_isolated_call skip_sites min_session_interval
                  session site sleep_time w Hskip Hle)
        as (c2 & w2 & later & Hrun2 & Htr & Hall).
      rewrite Hrun in Hrun2. injection Hrun2 as <- <-.
      by exists later. }
    intros Hskip Hshort e Hnet.
    destruct (loop_body_failed skip_sites min_session_interval session site
                sleep_time w e Hskip Hnet)
      as (s2 & w2 & Hrun2 & _ & _ & _ & _ & Hsome).
    rewrite Hrun in Hrun2. injection Hrun2 as -> -> ->.
    split; [done |]. destruct (Hsome Hshort) as [sid ->]. by exists sid.
  - intros sites times min_session_interval w Hinv.
    by apply scrape_sites_sessions.
Qed.

(** *** Hard stop *)


(** *** The resume filter *)



(** The resume set of a run is computed from the store the run starts
    with: the calls of the run are, in order, calls for targets that this
    set lets through. *)
Lemma scrape_sites_calls (sites : list string) (times : list Q)
    (min_session_interval : Q) (w : World) (files : gmap string FileContent) :
  grammar_pages w = Some files →
  ∃ r w' fetched,
    scrape_sites ext env sites times min_session_interval w = (r, w') ∧
    calls w' = calls w ++ fetched ∧
    fetched `prefix_of` (fetchable ext (resume_set files) (zip sites times).*1).
Proof.
  intros Hdir. unfold scrape_sites, os_listdir. rewrite Hdir.
  fold (resume_set files).
  destruct (scrape_loop_effects (resume_set files) min_session_interval
              (zip sites times) None w)
    as (c & s' & w' & fetched & -> & _ & _ & Hreq & _ & Hpre & _).
  assert (reverse (requested (trace w')) = calls w ++ fetched) as Hcalls.
  { rewrite Hreq, reverse_app, reverse_involutive. done. }
  unfold calls.
  destruct c as [| |e]; [| |destruct e]; destruct s' as [sid|];
    unfold session_close, logging, bind; simpl;
    eexists _, _, fetched; (split; [reflexivity |]); simpl; done.
Qed.

(** C7 (amended). A pass skips its target exactly when the decoded
    trailing path segment of the target, the part of the target after its
    last slash, is in the resume set; and the resume set holds, for each
    file of the listing, the name cut at its first dot, not the name
    without its extension. So a target is skipped exactly when its
    decoded segment holds no dot and the store holds a file with that
    name, or with that name followed by a dot and anything. A skipped
    pass makes no call and yields nothing, any other pass makes the call.
    The resume set of a run is the one of the store the run starts with
    and the loop never changes it: the calls of a run are calls for
    targets that set lets through, in order. So when a target occurs
    twice in a batch and is not in the resume set, the second occurrence
    is fetched as the first was, although the first wrote its artifact to
    the store during the run (stated for an artifact name that [open]
    accepts and a store that takes the writes). *)
Theorem resume_filter_snapshot
    (sites : list string) (times : list Q) (min_session_interval : Q)
    (w : World) (files : gmap string FileContent) :
  grammar_pages w = Some files →
  (∀ site prefix segment,
     contains_char "/" segment = false →
     site = segment ∨ site = prefix +:+ "/" +:+ segment →
     (should_skip ext (resume_set files) site = true ↔
      contains_char "." (unquote ext segment) = false ∧
      ∃ name,
        is_Some (files !! name) ∧
        (name = unquote ext segment ∨
         ∃ rest, name = unquote ext segment +:+ "." +:+ rest))) ∧
  (∀ skip_sites session site sleep_time w0,
     if should_skip ext skip_sites site
     then loop_body ext env skip_sites min_session_interval session site
            sleep_time w0
          = (Continue, session, emit (EvLog INFO (MsgSkipping site)) w0)
     else ∃ c session' w',
            loop_body ext env skip_sites min_session_interval session site
              sleep_time w0 = (c, session', w') ∧
            requested (trace w') =
              quote ext site ":/?=&" :: requested (trace w0)) ∧
  (∃ r w' fetched,
     scrape_sites ext env sites times min_session_interval w = (r, w') ∧
     calls w' = calls w ++ fetched ∧
     fetched `prefix_of`
       (fetchable ext (resume_set files) (zip sites times).*1)) ∧
  (∀ site t1 t2 r1 r2,
     should_skip ext (resume_set files) site = false →
     network env (requests_made w) (quote ext site ":/?=&") = Responded r1 →
     network env (S (requests_made w)) (quote ext site ":/?=&")
       = Responded r2 →
     raise_for_status ext r1 = None → status_code r1 ≠ 429%Z →
     raise_for_status ext r2 = None → status_code r2 ≠ 429%Z →
     (0 <= t1)%Q → (0 <= t2)%Q →
     sleep_interrupted env (S (requests_made w)) = false →
     sleep_interrupted env (S (S (requests_made w))) = false →
     (∀ name, write_fails env name = false) →
     accepted_name (artifact_name ext site) →
     ∃ w' files' name1 name2,
       scrape_sites ext env [site; site] [t1; t2] min_session_interval w
         = (Ok tt, w') ∧
       calls w' = calls w ++ [quote ext site ":/?=&"; quote ext site ":/?=&"] ∧
       outcomes w' =
         outcomes w ++ [mkResponseResult CONTINUE site t1 true;
                        mkResponseResult CONTINUE site t2 true] ∧
       written (trace w') = name2 :: name1 :: written (trace w) ∧
       grammar_pages w' = Some files' ∧
       is_Some (files' !! artifact_name ext site)).
Proof.
  intros Hdir. split; [| split; [| split]].
  - intros site prefix segment Hsegment Hsite.
    assert (trailing_segment site = segment) as Hlast.
    { destruct Hsite as [-> | ->].
      - unfold trailing_segment. by rewrite (str_split_whole _ _ Hsegment).
      - by apply trailing_segment_after_slash. }
    unfold should_skip, resume_set.
    rewrite Hlast, bool_decide_eq_true, list_elem_of_fmap. split.
    + intros (name & Hcut & ([name' content] & -> & Hin%elem_of_map_to_list)
                %list_elem_of_fmap).
      simpl in *. split; [rewrite Hcut; apply before_first_dot_no_dot |].
      exists name'. split; [by eexists |]. rewrite Hcut.
      destruct (before_first_dot_cut name') as [Hplain | [rest Hrest]].
      * left. symmetry. by apply before_first_dot_id.
      * right. by exists rest.
    + intros (Hdot & name & [content Hname] & Hshape).
      exists name. split.
      * symmetry. destruct Hshape as [-> | [rest ->]].
        -- by apply before_first_dot_id.
        -- by apply before_first_dot_append.
      * apply list_elem_of_fmap. exists (name, content).
        split; [done |]. by apply elem_of_map_to_list.
  - intros skip_sites session site sleep_time w0.
    destruct (should_skip ext skip_sites site) eqn:Hskip.
    + by apply loop_body_skip.
    + destruct (loop_body_effects skip_sites min_session_interval session site
                  sleep_time w0) as (c & s' & w' & Hrun & _).
      exists c, s', w'. split; [done |].
      by apply (loop_body_calls _ _ _ _ _ _ _ _ _ Hskip Hrun).
  - by apply scrape_sites_calls.
  - intros site t1 t2 r1 r2 Hgo Hnet1 Hnet2 Hs1 Hl1 Hs2 Hl2 Hd1 Hd2 Hcalm1
      Hcalm2 Hdisk _.
    unfold scrape_sites, os_listdir. rewrite Hdir. fold (resume_set files).
    simpl.
    destruct (loop_body_success (resume_set files) min_session_interval None
                site t1 w r1 Hgo Hnet1 Hs1 Hl1 Hd1 Hcalm1)
      as (sa & wa & Hrun1 & Hy1 & _ & Hstore1).
    destruct (loop_body_calls _ _ _ _ _ _ _ _ _ Hgo Hrun1) as [Hc1 Hn1].
    rewrite Hrun1. rewrite Hdisk, Hdir in Hstore1. simpl in Hstore1.
    destruct Hstore1 as (Hw1 & _ & Hg1).
    rewrite <- Hn1 in Hnet2, Hcalm2.
    destruct (loop_body_success (resume_set files) min_session_interval sa
                site t2 wa r2 Hgo Hnet2 Hs2 Hl2 Hd2 Hcalm2)
      as (sb & wb & Hrun2 & Hy2 & _ & Hstore2).
    destruct (loop_body_calls _ _ _ _ _ _ _ _ _ Hgo Hrun2) as [Hc2 Hn2].
    rewrite Hrun2. rewrite Hdisk, Hg1 in Hstore2. simpl in Hstore2.
    destruct Hstore2 as (Hw2 & _ & Hg2).
    assert (is_Some (<[save_target ext env site (count_request w)
                       := Prettify (BeautifulSoup (text r1))]> files
                     !! artifact_name ext site)) as Hthere.
    { unfold save_target. simpl. rewrite Hdir.
      destruct (files !! artifact_name ext site) as [old|] eqn:Hold.
      - rewrite lookup_insert_ne by apply stamped_name_fresh. by eexists.
      - rewrite lookup_insert_eq. by eexists. }
    assert (save_target ext env site (count_request wa)
            = stamped_name env (artifact_name ext site) (count_request wa))
      as Hstamped.
    { unfold save_target at 1. simpl. rewrite Hg1.
      by destruct Hthere as [? ->]. }
    assert (yielded (trace wb) =
              [mkResponseResult CONTINUE site t2 true;
               mkResponseResult CONTINUE site t1 true] ++ yielded (trace w))
      as Hy by (by rewrite Hy2, Hy1).
    assert (requested (trace wb) =
              [quote ext site ":/?=&"; quote ext site ":/?=&"]
              ++ requested (trace w)) as Hc by (by rewrite Hc2, Hc1).
    unfold outcomes, calls.
    destruct sb as [sid|]; simpl;
      eexists _, _, _, _; (split; [reflexivity |]); simpl;
      rewrite Hy, Hc, !reverse_app, Hw2, Hw1, Hg2;
      (split; [done |]); (split; [done |]); (split; [done |]);
      (split; [done |]);
      rewrite Hstamped, lookup_insert_ne by apply stamped_name_fresh; done.
Qed.

End Executor.

(** ** The code at concrete inputs *)

(** C1 (the code departs from the claim). With the [raise_for_status] of
    [requests], a response with status 429 never reaches the status
    check: [process_response] classifies it as [RETRYABLE_ERROR], not as
    [HARD_STOP], and the only effect is the log record of an HTTP error;
    the executor yields that result and goes on with the rest of the
    batch. *)
Theorem rate_limited_response_is_an_error
    (env : Environment) (body site : string) (sleep_time : Q) (w : World) :
  process_response python_libs env (mkResponse 429 body) site sleep_time w =
    (Ok (mkResponseResult RETRYABLE_ERROR site sleep_time false),
     emit (EvLog ERROR (MsgHttpError site)) w) ∧
  (∀ skip_sites min_session_interval session rest,
     should_skip python_libs skip_sites site = false →
     network env (requests_made w) (quote python_libs site ":/?=&")
       = Responded (mkResponse 429 body) →
     ∃ session' w',
       loop_body python_libs env skip_sites min_session_interval session
         site sleep_time w = (Continue, session', w') ∧
       yielded (trace w') =
         mkResponseResult RETRYABLE_ERROR site sleep_time false
           :: yielded (trace w) ∧
       scrape_loop python_libs env skip_sites min_session_interval session
         ((site, sleep_time) :: rest) w
       = scrape_loop python_libs env skip_sites min_session_interval
           session' rest w').
Proof.
  split.
  - by apply (process_response_http_error python_libs env _ _ _ _ HTTPError).
  - intros skip_sites min_session_interval session rest Hskip Hnet.
    destruct (loop_body_error_status python_libs env skip_sites
                min_session_interval session site sleep_time w
                (mkResponse 429 body) HTTPError Hskip Hnet ltac:(done))
      as (s' & w' & Hrun & Hy & _).
    exists s', w'. simpl. by rewrite Hrun.
Qed.


(** C6 (counterexample). A request with a delay below the threshold whose
    call times out: after the pass, with its cleanup, the session that
    was opened for the call is still open and still held. *)
Lemma session_survives_failed_request :
  ∃ w',
    loop_body python_libs (quiet [Failed Timeout] false) [] 30 None
      (grammar_point "ga") 2 fresh_world = (Continue, Some 0, w') ∧
    live_sessions (trace w') = [0].
Proof.
  eexists. split; [vm_compute; reflexivity |]. vm_compute. reflexivity.
Qed.

(** C8 (counterexample). The artifact name and the name with the
    timestamp suffix are both taken: the sink writes over the file under
    the suffixed name, and no file is added to the store. *)
Lemma stamped_file_is_overwritten :
  ∃ w' files',
    save_source_code python_libs (quiet [] false) (BeautifulSoup "third")
      (grammar_point "ga") (in_store saved_twice) = (Ok tt, w') ∧
    grammar_pages w' = Some files' ∧
    saved_twice !! "ga.html_20240101120000.html" = Some (Bytes "second") ∧
    files' !! "ga.html_20240101120000.html"
      = Some (Prettify (BeautifulSoup "third")) ∧
    dom files' = dom saved_twice.
Proof.
  eexists _, _. split; [vm_compute; reflexivity |].
  split; [reflexivity |]. split; [vm_compute; reflexivity |].
  split; vm_compute; reflexivity.
Qed.

(** C7 (counterexample). The store holds the artifact of a target whose
    name holds a dot. The file name without its extension is the decoded
    trailing segment of the target, so a resume set made by stripping
    file extensions would hold the target and the target would be
    skipped. The resume set of the code holds the name cut at its first
    dot; the target is not in it, and the run fetches the target. *)
Lemma stripped_name_is_not_the_resume_identifier :
  map strip_extension (map fst (map_to_list dotted_store)) = ["v1.2"] ∧
  unquote python_libs (trailing_segment (grammar_point "v1.2")) = "v1.2" ∧
  resume_set dotted_store = ["v1"] ∧
  should_skip python_libs (resume_set dotted_store) (grammar_point "v1.2")
    = false ∧
  ∃ w',
    scrape_sites python_libs (quiet [page "<p>v1.2</p>"] false)
      [grammar_point "v1.2"] [2%Q] 30 (in_store dotted_store) = (Ok tt, w') ∧
    calls w' = [grammar_point "v1.2"] ∧
    map action (outcomes w') = [CONTINUE].
Proof.
  split; [vm_compute; reflexivity |]. split; [vm_compute; reflexivity |].
  split; [vm_compute; reflexivity |]. split; [vm_compute; reflexivity |].
  eexists. split; [vm_compute; reflexivity |].
  split; vm_compute; reflexivity.
Qed.

(** ** The theorems at concrete inputs *)

Lemma session_inv_fresh : session_inv None fresh_world.
Proof.
  split; [done |]. intros past [k Hk]. simpl in Hk.
  symmetry in Hk. apply app_eq_nil in Hk as [_ ->]. simpl. lia.
Qed.

(** The third target of a batch is answered with status 429; two
    targets follow. *)
Lemma rate_limited_response_is_an_error_witness :
  ∃ session' w',
    loop_body python_libs (quiet [too_many_requests] false) [] 30 None
      (grammar_point "ni") 3 fresh_world = (Continue, session', w') ∧
    yielded (trace w') =
      mkResponseResult RETRYABLE_ERROR (grammar_point "ni") 3 false
        :: yielded (trace fresh_world) ∧
    scrape_loop python_libs (quiet [too_many_requests] false) [] 30 None
      [(grammar_point "ni", 3%Q); (grammar_point "de", 5%Q);
       (grammar_point "to", 4%Q)] fresh_world
    = scrape_loop python_libs (quiet [too_many_requests] false) [] 30
        session' [(grammar_point "de", 5%Q); (grammar_point "to", 4%Q)] w'.
Proof.
  apply (proj2 (rate_limited_response_is_an_error
                  (quiet [too_many_requests] false) "Too Many Requests"
                  (grammar_point "ni") 3 fresh_world));
    by vm_compute.
Defined.



(** The artifact of ["ga"] is in the store when it is saved again. *)
Lemma save_source_code_keeps_existing_file_witness :
  ∃ w' files',
    save_source_code python_libs (quiet [] false) (BeautifulSoup "again")
      (grammar_point "ga") (in_store {["ga.html" := Bytes "first"]})
      = (Ok tt, w') ∧
    grammar_pages w' = Some files' ∧
    files' !! "ga.html" = Some (Bytes "first") ∧
    files' !! "ga.html_20240101120000.html"
      = Some (Prettify (BeautifulSoup "again")).
Proof.
  destruct (save_source_code_keeps_existing_file python_libs (quiet [] false)
              (BeautifulSoup "again") (grammar_point "ga")
              (in_store {["ga.html" := Bytes "first"]})
              {["ga.html" := Bytes "first"]} (Bytes "first")
              ltac:(reflexivity) ltac:(by vm_compute))
    as (w' & files' & Hrun & Hdir & _ & Hold & _ & Hnew & _).
  exists w', files'. split; [exact Hrun |]. split; [exact Hdir |].
  split; [exact Hold |]. apply Hnew. reflexivity.
Defined.


(** A run of two targets with delays below the threshold, from a world
    without sessions. *)
Lemma session_lifecycle_witness :
  session_inv None fresh_world ∧
  ∃ r w',
    scrape_sites python_libs (quiet [page "<p>ga</p>"; Failed Timeout] false)
      [grammar_point "ga"; grammar_point "wo"] [2; 8]%Q 30 fresh_world
      = (r, w') ∧
    at_most_one_live (trace w') ∧
    (r = Ok tt ∨ r = Raise KeyboardInterrupt →
     live_sessions (trace w') = []) ∧
    (∀ sid, EvSessionOpen sid ∈ trace w' →
            EvSessionOpen sid ∈ trace fresh_world ∨
            ∃ site sleep_time,
              (site, sleep_time)
                ∈ zip [grammar_point "ga"; grammar_point "wo"] [2; 8]%Q ∧
              (sleep_time < 30)%Q).
Proof.
  split; [exact session_inv_fresh |].
  apply (proj2 (session_lifecycle python_libs
                  (quiet [page "<p>ga</p>"; Failed Timeout] false))).
  exact session_inv_fresh.
Defined.

(** The same target twice in a batch, on an empty store. *)
Lemma resume_filter_snapshot_witness :
  grammar_pages fresh_world = Some ∅ ∧
  ∃ w' files' name1 name2,
    scrape_sites python_libs
      (quiet [page "<p>ga</p>"; page "<p>ga</p>"] false)
      [grammar_point "ga"; grammar_point "ga"] [2; 8]%Q 30 fresh_world
      = (Ok tt, w') ∧
    calls w' =
      calls fresh_world ++
      [quote python_libs (grammar_point "ga") ":/?=&";
       quote python_libs (grammar_point "ga") ":/?=&"] ∧
    outcomes w' =
      outcomes fresh_world ++
      [mkResponseResult CONTINUE (grammar_point "ga") 2 true;
       mkResponseResult CONTINUE (grammar_point "ga") 8 true] ∧
    written (trace w') = name2 :: name1 :: written (trace fresh_world) ∧
    grammar_pages w' = Some files' ∧
    is_Some (files' !! artifact_name python_libs (grammar_point "ga")).
Proof.
  split; [reflexivity |].
  destruct (resume_filter_snapshot python_libs
              (quiet [page "<p>ga</p>"; page "<p>ga</p>"] false)
              [grammar_point "ga"; grammar_point "ga"] [2; 8]%Q 30
              fresh_world ∅ ltac:(reflexivity)) as (_ & _ & _ & Htwice).
  apply (Htwice (grammar_point "ga") 2%Q 8%Q (mkResponse 200 "<p>ga</p>")
           (mkResponse 200 "<p>ga</p>")); by vm_compute.
Defined.


(** * Further properties of the executor *)

Section ExecutorExtras.

Variable ext : Externals.
Variable env : Environment.

(** ** One pass, seen through its results *)

(** A pass yields nothing or one result; a result it yields is for its
    target, carries its delay, and is never a hard stop. *)
Lemma loop_body_yields (skip_sites : list string) (min_session_interval : Q)
    (session : option nat) (site : string) (sleep_time : Q) (w : World) :
  ∃ c session' w',
    loop_body ext env skip_sites min_session_interval session site
      sleep_time w = (c, session', w') ∧
    (yielded (trace w') = yielded (trace w) ∨
     ∃ r, yielded (trace w') = r :: yielded (trace w) ∧
          target_of r = (site, sleep_time) ∧ yieldable r ∧
          c = Continue ∧ should_skip ext skip_sites site = false).
Proof.
  destruct (should_skip ext skip_sites site) eqn:Hskip.
  { rewrite (loop_body_skip ext env _ _ _ _ _ _ Hskip).
    eexists _, _, _. split; [reflexivity |]. by left. }
  destruct (network env (requests_made w) (quote ext site ":/?=&"))
    as [response|e|] eqn:Hnet.
  - destruct (loop_body_responded ext env skip_sites min_session_interval
                session site sleep_time w response Hskip Hnet)
      as (s1 & w1 & Hobs1 & _ & Hcase).
    destruct (process_response_effects ext env response site sleep_time
                (after_call s1 (quote ext site ":/?=&") w1))
      as (r & w2 & Hrun & Hr & Hext & _).
    rewrite Hrun in Hcase.
    destruct (local_observations _ _ Hext) as (Hy2 & _).
    destruct Hobs1 as (Hy1 & _).
    destruct Hr; destruct Hcase as (s' & w' & Hbody & Hobs2);
      destruct Hobs2 as (Hy3 & _); simpl in *;
      eexists _, s', w'; (split; [exact Hbody |]);
      rewrite Hy3, ?Hy2; simpl; rewrite ?Hy2, Hy1.
    + right. eexists. split; [reflexivity |]. split; [done |].
      split; [by left | done].
    + right. eexists. split; [reflexivity |]. split; [done |].
      split; [by right | done].
    + by left.
    + by left.
    + by left.
  - destruct (loop_body_failed ext env skip_sites min_session_interval session
                site sleep_time w e Hskip Hnet)
      as (s' & w' & Hbody & Hy & _).
    exists Continue, s', w'. split; [done |]. right.
    eexists. split; [exact Hy |]. split; [done |]. split; [by right | done].
  - destruct (loop_body_structure ext env skip_sites min_session_interval
                session site sleep_time w Hskip)
      as (s1 & w1 & Hbk1 & _ & Hbody).
    destruct (bookkeeping_observations _ _ Hbk1) as (Hy1 & _).
    destruct Hbk1 as (_ & _ & Hn1 & _). rewrite <- Hn1 in Hnet.
    destruct (Hbody _ _ (try_block_interrupted ext env s1 _ site sleep_time w1
                           Hnet)) as (s' & w' & Hrun & Hbk2 & _).
    destruct (bookkeeping_observations _ _ Hbk2) as (Hy2 & _).
    eexists _, s', w'. split; [exact Hrun |]. left.
    rewrite Hy2. simpl. done.
Qed.

(** ** The results of a run *)

Lemma scrape_loop_results (skip_sites : list string) (min_session_interval : Q)
    (sites_times : list (string * Q)) :
  ∀ (session : option nat) (w : World),
    ∃ c session' w' results,
      scrape_loop ext env skip_sites min_session_interval session
        sites_times w = (c, session', w') ∧
      yielded (trace w') = reverse results ++ yielded (trace w) ∧
      map target_of results `sublist_of` sites_times ∧
      Forall yieldable results ∧
      length results + requests_made w ≤ requests_made w' ∧
      requests_made w' ≤ length sites_times + requests_made w.
Proof.
  induction sites_times as [|[site sleep_time] rest IH]; intros session w.
  { exists Continue, session, w, []. simpl.
    split; [done |]. split; [done |]. split; [done |]. split; [done |]. lia. }
  simpl.
  destruct (loop_body_yields skip_sites min_session_interval session site
              sleep_time w) as (c & s1 & w1 & Hrun & Hy).
  destruct (loop_body_effects ext env skip_sites min_session_interval session
              site sleep_time w)
    as (c' & s1' & w1' & Hrun' & _ & _ & Hcount & _).
  rewrite Hrun in Hrun'. injection Hrun' as <- <- <-. rewrite Hrun.
  assert (∃ first,
            yielded (trace w1) = reverse first ++ yielded (trace w) ∧
            map target_of first `sublist_of` [(site, sleep_time)] ∧
            Forall yieldable first ∧
            length first + requests_made w ≤ requests_made w1 ∧
            requests_made w1 ≤ 1 + requests_made w) as Hfirst.
  { destruct Hy as [Hy | (r & Hy & Htarget & Hok & _ & Hskip)].
    - exists []. split; [done |]. split; [apply sublist_nil_l |].
      split; [done |]. rewrite Hcount.
      destruct (should_skip ext skip_sites site); simpl; lia.
    - exists [r]. split; [done |]. simpl. rewrite Htarget.
      split; [done |]. split; [by constructor |].
      rewrite Hcount, Hskip. simpl. lia. }
  destruct Hfirst as (first & Hy1 & Hsub1 & Hok1 & Hlo1 & Hhi1).
  destruct c.
  - destruct (IH s1 w1)
      as (c & s2 & w2 & results & -> & Hy2 & Hsub2 & Hok2 & Hlo2 & Hhi2).
    exists c, s2, w2, (first ++ results). split; [done |].
    split; [by rewrite Hy2, Hy1, reverse_app, <- app_assoc |].
    split.
    { rewrite map_app.
      by apply (sublist_app _ [(site, sleep_time)] _ rest). }
    split; [by apply Forall_app |].
    rewrite length_app. lia.
  - exists Break, s1, w1, first. split; [done |]. split; [done |].
    split.
    { rewrite <- (app_nil_r (map target_of first)).
      apply (sublist_app _ [(site, sleep_time)] _ rest); [done |].
      apply sublist_nil_l. }
    split; [done |]. lia.
  - exists (Propagate e), s1, w1, first. split; [done |]. split; [done |].
    split.
    { rewrite <- (app_nil_r (map target_of first)).
      apply (sublist_app _ [(site, sleep_time)] _ rest); [done |].
      apply sublist_nil_l. }
    split; [done |]. lia.
Qed.

(** X1. The results a run yields come in the order of the batch: they
    are results for a subsequence of the targets of [zip(sites, times)],
    each carrying the delay paired with its target; each is [CONTINUE]
    with [scraped = true] or [RETRYABLE_ERROR] with [scraped = false], a
    hard stop is never yielded; and no result is yielded without a
    network call. *)
Theorem results_follow_the_batch (sites : list string) (times : list Q)
    (min_session_interval : Q) (w : World) :
  ∃ r w' results,
    scrape_sites ext env sites times min_session_interval w = (r, w') ∧
    outcomes w' = outcomes w ++ results ∧
    map target_of results `sublist_of` zip sites times ∧
    Forall yieldable results ∧
    Forall (λ result, action result ≠ HARD_STOP) results ∧
    length results + requests_made w ≤ requests_made w'.
Proof.
  assert (∀ results, Forall yieldable results →
            Forall (λ result, action result ≠ HARD_STOP) results) as Hnever.
  { intros results Hok. eapply Forall_impl; [exact Hok |].
    intros result [[-> _] | [-> _]]; done. }
  unfold scrape_sites, os_listdir.
  destruct (grammar_pages w) as [files|].
  2:{ exists (Raise FileNotFoundError), w, []. rewrite app_nil_r.
      split; [done |]. split; [done |]. split; [apply sublist_nil_l |].
      split; [done |]. split; [done |]. simpl. lia. }
  destruct (scrape_loop_results (map before_first_dot (map fst (map_to_list files)))
              min_session_interval (zip sites times) None w)
    as (c & s' & w' & results & -> & Hy & Hsub & Hok & Hlo & _).
  assert (reverse (yielded (trace w')) = outcomes w ++ results) as Hout.
  { rewrite Hy, reverse_app, reverse_involutive. done. }
  unfold outcomes.
  destruct c as [| |e]; [| |destruct e]; destruct s' as [sid|];
    unfold session_close, logging, bind; simpl;
    eexists _, _, results; (split; [reflexivity |]); simpl;
    (split; [exact Hout |]); (split; [exact Hsub |]);
    (split; [exact Hok |]); (split; [by apply Hnever | exact Hlo]).
Qed.

(** X2. A run makes at most one network call for each pair of
    [zip(sites, times)]: targets beyond the shorter of the two lists are
    never fetched, and without delays nothing is fetched at all. *)
Theorem calls_bounded_by_the_shorter_list (sites : list string)
    (times : list Q) (min_session_interval : Q) (w : World) :
  ∃ r w',
    scrape_sites ext env sites times min_session_interval w = (r, w') ∧
    requests_made w' ≤ (length sites `min` length times) + requests_made w ∧
    length (outcomes w') ≤
      (length sites `min` length times) + length (outcomes w).
Proof.
  unfold scrape_sites, os_listdir.
  destruct (grammar_pages w) as [files|].
  2:{ exists (Raise FileNotFoundError), w. split; [done |]. lia. }
  destruct (scrape_loop_results (map before_first_dot (map fst (map_to_list files)))
              min_session_interval (zip sites times) None w)
    as (c & s' & w' & results & -> & Hy & Hsub & Hok & Hlo & Hhi).
  rewrite length_zip in Hhi.
  assert (length (reverse (yielded (trace w')))
          ≤ (length sites `min` length times) + length (outcomes w)) as Hout.
  { unfold outcomes. rewrite !length_reverse, Hy, length_app, length_reverse.
    lia. }
  unfold outcomes.
  destruct c as [| |e]; [| |destruct e]; destruct s' as [sid|];
    unfold session_close, logging, bind; simpl;
    eexists _, _; (split; [reflexivity |]); simpl; done.
Qed.

(** ** Resuming *)

(** A target whose artifact is in the store, under a name without a dot,
    is in the resume set. *)
Lemma stored_artifact_in_resume_set (files : gmap string FileContent)
    (site : string) :
  is_Some (files !! artifact_name ext site) →
  contains_char "." (unquote ext (trailing_segment site)) = false →
  should_skip ext (resume_set files) site = true.
Proof.
  intros [content Hstored] Hplain. unfold should_skip.
  apply bool_decide_eq_true. unfold resume_set.
  apply list_elem_of_fmap. exists (artifact_name ext site). split.
  - unfold artifact_name.
    change (unquote ext (trailing_segment site) +:+ ".html")
      with (unquote ext (trailing_segment site) +:+ "." +:+ "html").
    by rewrite before_first_dot_append.
  - apply list_elem_of_fmap. exists (artifact_name ext site, content).
    split; [done |]. by apply elem_of_map_to_list.
Qed.

Lemma skip_records_unobserved {A : Type} (f : Event → option A)
    (sites : list string) :
  (∀ site, f (EvLog INFO (MsgSkipping site)) = None) →
  omap f (reverse (map (λ site, EvLog INFO (MsgSkipping site)) sites)) = [].
Proof.
  intros Hf. induction sites as [|site rest IH]; [done |].
  simpl. rewrite reverse_cons, omap_app, IH.
  unfold omap, list_omap. by rewrite Hf.
Qed.

Lemma scrape_loop_all_skipped (skip_sites : list string)
    (min_session_interval : Q) (sites_times : list (string * Q)) :
  ∀ (session : option nat) (w : World),
    Forall (λ site, should_skip ext skip_sites site = true) sites_times.*1 →
    ∃ w',
      scrape_loop ext env skip_sites min_session_interval session
        sites_times w = (Continue, session, w') ∧
      trace w' =
        reverse (map (λ site, EvLog INFO (MsgSkipping site)) sites_times.*1)
        ++ trace w ∧
      grammar_pages w' = grammar_pages w ∧
      same_counters w w'.
Proof.
  induction sites_times as [|[site sleep_time] rest IH]; intros session w Hall.
  { exists w. by unfold same_counters. }
  simpl in Hall. apply Forall_cons in Hall as [Hskip Hall]. simpl.
  rewrite (loop_body_skip ext env _ _ _ _ _ _ Hskip).
  destruct (IH session (emit (EvLog INFO (MsgSkipping site)) w) Hall)
    as (w' & -> & Htr & Hdir & Hcnt).
  exists w'. split; [done |]. split; [| done].
  rewrite Htr, reverse_cons, <- app_assoc. done.
Qed.

(** X3. Resuming is idempotent: when the artifact of every target of a
    batch is in the store, under a name without a dot, the run makes no
    network call, opens no session, yields nothing and leaves the store
    as it is; all it does is log one record for each pair of
    [zip(sites, times)] it passes over. *)
Theorem stored_targets_are_skipped (sites : list string) (times : list Q)
    (min_session_interval : Q) (w : World) (files : gmap string FileContent) :
  grammar_pages w = Some files →
  Forall (λ site,
            is_Some (files !! artifact_name ext site) ∧
            contains_char "." (unquote ext (trailing_segment site)) = false)
    sites →
  ∃ w',
    scrape_sites ext env sites times min_session_interval w = (Ok tt, w') ∧
    trace w' =
      reverse (map (λ site, EvLog INFO (MsgSkipping site))
                 (zip sites times).*1) ++ trace w ∧
    calls w' = calls w ∧
    outcomes w' = outcomes w ∧
    grammar_pages w' = Some files ∧
    requests_made w' = requests_made w ∧
    sessions_created w' = sessions_created w.
Proof.
  intros Hdir Hstored.
  assert (Forall (λ site, should_skip ext (resume_set files) site = true)
            (zip sites times).*1) as Hall.
  { apply Forall_forall. intros site Hin.
    assert (site ∈ sites) as Hsite.
    { apply list_elem_of_fmap in Hin as ([site' t] & -> & Hin).
      by apply elem_of_zip_l in Hin. }
    destruct (proj1 (Forall_forall _ _) Hstored site Hsite) as [Hfile Hplain].
    by apply stored_artifact_in_resume_set. }
  unfold scrape_sites, os_listdir. rewrite Hdir. fold (resume_set files).
  destruct (scrape_loop_all_skipped (resume_set files) min_session_interval
              (zip sites times) None w Hall)
    as (w' & -> & Htr & Hdir' & Hc1 & Hc2 & _).
  exists w'. split; [done |]. split; [done |].
  assert (∀ A (f : Event → option A),
            (∀ site, f (EvLog INFO (MsgSkipping site)) = None) →
            omap f (trace w') = omap f (trace w)) as Hquiet.
  { intros A f Hf. by rewrite Htr, omap_app, skip_records_unobserved. }
  unfold calls, outcomes, requested, yielded.
  rewrite !Hquiet by done. rewrite Hdir', Hdir. done.
Qed.


(** ** The channel of a call *)

(** The call of the [try] block goes the way the variable [session]
    says, and the block opens no session. *)
Lemma try_block_channel (session : option nat) (url site : string)
    (sleep_time : Q) (w : World) :
  ∃ r w',
    try_except (try_block ext env session url site sleep_time)
      (except_clauses site sleep_time) w = (r, w') ∧
    vias (trace w') = session :: vias (trace w) ∧
    sessions_created w' = sessions_created w.
Proof.
  destruct (network env (requests_made w) url) as [response|e|] eqn:Hnet.
  - rewrite (try_block_responded ext env _ _ _ _ _ _ Hnet).
    destruct (process_response_effects ext env response site sleep_time
                (after_call session url w))
      as (r & w2 & -> & Hr & Hext & (_ & Hses & _) & _).
    assert (vias (trace w2) = session :: vias (trace w)) as Hvia.
    { change (session :: vias (trace w))
        with (vias (trace (after_call session url w))).
      eapply extends_omap; [| exact Hext]. by intros []. }
    destruct Hr; simpl; (eexists _, _; split; [reflexivity |]; by simpl).
  - rewrite (try_block_failed ext env _ _ _ _ _ e Hnet).
    eexists _, _. split; [reflexivity |]. done.
  - rewrite (try_block_interrupted ext env _ _ _ _ _ Hnet).
    eexists _, _. split; [reflexivity |]. done.
Qed.

(** One pass for a target the resume filter lets through makes one call:
    below the threshold through the session held, or through a new one
    when none is held, and the session is held afterwards; at or above
    the threshold without a session, and none is held afterwards. *)
Lemma loop_body_channel (skip_sites : list string) (min_session_interval : Q)
    (session : option nat) (site : string) (sleep_time : Q) (w : World) :
  should_skip ext skip_sites site = false →
  ∃ c session' w' via,
    loop_body ext env skip_sites min_session_interval session site
      sleep_time w = (c, session', w') ∧
    vias (trace w') = via :: vias (trace w) ∧
    session' = via ∧
    if Qlt_bool sleep_time min_session_interval
    then via = Some (default (sessions_created w) session) ∧
         sessions_created w' =
           match session with
           | Some _ => sessions_created w
           | None => S (sessions_created w)
           end
    else via = None ∧ sessions_created w' = sessions_created w.
Proof.
  intros Hskip. unfold loop_body. unfold should_skip in Hskip. rewrite Hskip.
  destruct (choose_session min_session_interval session sleep_time w)
    as [s1 w1] eqn:Hchoice.
  destruct (try_block_channel s1 (quote ext site ":/?=&") site sleep_time w1)
    as (r & w2 & -> & Hvia & Hses).
  destruct (finally_clause min_session_interval s1 sleep_time w2)
    as [s2 w3] eqn:Hfinal.
  eexists _, _, _, s1. split; [reflexivity |].
  unfold choose_session in Hchoice. unfold finally_clause in Hfinal.
  destruct (Qlt_bool sleep_time min_session_interval) eqn:Hshort.
  - assert (Qle_bool min_session_interval sleep_time = false) as Hlong.
    { apply Qle_bool_false. by apply Qlt_bool_true. }
    destruct session as [sid|]; simplify_eq/=; rewrite Hlong in Hfinal;
      simplify_eq/=; rewrite Hvia, Hses; done.
  - destruct session as [sid|]; simplify_eq/=; rewrite Hvia, Hses; done.
Qed.

Lemma scrape_loop_channels (skip_sites : list string)
    (min_session_interval : Q) (sites_times : list (string * Q)) :
  ∀ (session : option nat) (w : World),
    ∃ c session' w' fetched channels,
      scrape_loop ext env skip_sites min_session_interval session
        sites_times w = (c, session', w') ∧
      fetched `sublist_of` sites_times ∧
      requested (trace w') =
        reverse (map (λ target, quote ext target.1 ":/?=&") fetched)
        ++ requested (trace w) ∧
      vias (trace w') = reverse channels ++ vias (trace w) ∧
      Forall2 (λ via target,
                 if Qlt_bool target.2 min_session_interval
                 then is_Some via else via = None)
        channels fetched.
Proof.
  induction sites_times as [|[site sleep_time] rest IH]; intros session w.
  { exists Continue, session, w, [], []. by repeat split. }
  simpl.
  destruct (should_skip ext skip_sites site) eqn:Hskip.
  { rewrite (loop_body_skip ext env _ _ _ _ _ _ Hskip).
    destruct (IH session (emit (EvLog INFO (MsgSkipping site)) w))
      as (c & s' & w' & fetched & channels & -> & Hsub & Hreq & Hvia & Hall).
    exists c, s', w', fetched, channels.
    split; [done |]. split; [by apply sublist_cons |]. done. }
  destruct (loop_body_effects ext env skip_sites min_session_interval session
              site sleep_time w)
    as (c & s1 & w1 & Hrun & _ & Hreq1 & _).
  destruct (loop_body_channel skip_sites min_session_interval session site
              sleep_time w Hskip)
    as (c' & s1' & w1' & via & Hrun' & Hvia1 & _ & Hway).
  rewrite Hrun in Hrun'. injection Hrun' as <- <- <-. rewrite Hrun.
  rewrite Hskip in Hreq1. simpl in Hreq1.
  assert (if Qlt_bool sleep_time min_session_interval
          then is_Some via else via = None) as Hway'.
  { destruct (Qlt_bool sleep_time min_session_interval);
      destruct Hway as [-> _]; [by eexists | done]. }
  assert (∃ fetched channels,
            fetched `sublist_of` (site, sleep_time) :: rest ∧
            requested (trace w1) =
              reverse (map (λ target, quote ext target.1 ":/?=&") fetched)
              ++ requested (trace w) ∧
            vias (trace w1) = reverse channels ++ vias (trace w) ∧
            Forall2 (λ via target,
                       if Qlt_bool target.2 min_session_interval
                       then is_Some via else via = None)
              channels fetched) as Hone.
  { exists [(site, sleep_time)], [via].
    split; [apply sublist_skip, sublist_nil_l |].
    split; [done |]. split; [done |].
    by repeat constructor. }
  destruct c;
    [| destruct Hone as (fetched & channels & Hone);
       by eexists _, _, _, fetched, channels ..].
  clear Hone.
  destruct (IH s1 w1)
    as (c & s2 & w2 & fetched & channels & -> & Hsub & Hreq & Hvia & Hall).
  exists c, s2, w2, ((site, sleep_time) :: fetched), (via :: channels).
  split; [done |]. split; [by apply sublist_skip |].
  split; [rewrite Hreq, Hreq1; simpl;
          by rewrite reverse_cons, <- app_assoc |].
  split; [rewrite Hvia, Hvia1; by rewrite reverse_cons, <- app_assoc |].
  by constructor.
Qed.

(** X5. The delay of a request decides the channel of its call: the
    calls of a run are those for a sublist [fetched] of
    [zip(sites, times)], in order, and the call for a pair whose delay is
    below [min_session_interval] goes through a session, the call for a
    pair whose delay is at or above it goes through none. *)
Theorem channel_follows_the_delay (sites : list string) (times : list Q)
    (min_session_interval : Q) (w : World) :
  ∃ r w' fetched channels,
    scrape_sites ext env sites times min_session_interval w = (r, w') ∧
    fetched `sublist_of` zip sites times ∧
    calls w' =
      calls w ++ map (λ target, quote ext target.1 ":/?=&") fetched ∧
    reverse (vias (trace w')) = reverse (vias (trace w)) ++ channels ∧
    Forall2 (λ via target,
               if Qlt_bool target.2 min_session_interval
               then is_Some via else via = None)
      channels fetched.
Proof.
  unfold scrape_sites, os_listdir.
  destruct (grammar_pages w) as [files|].
  2:{ exists (Raise FileNotFoundError), w, [], [].
      split; [done |]. split; [apply sublist_nil_l |].
      by rewrite !app_nil_r. }
  destruct (scrape_loop_channels
              (map before_first_dot (map fst (map_to_list files)))
              min_session_interval (zip sites times) None w)
    as (c & s' & w' & fetched & channels & -> & Hsub & Hreq & Hvia & Hall).
  assert (calls w' =
            calls w ++ map (λ target, quote ext target.1 ":/?=&") fetched)
    as Hcalls.
  { unfold calls. by rewrite Hreq, reverse_app, reverse_involutive. }
  assert (reverse (vias (trace w')) = reverse (vias (trace w)) ++ channels)
    as Hchannels.
  { by rewrite Hvia, reverse_app, reverse_involutive. }
  destruct c as [| |e]; [| |destruct e]; destruct s' as [sid|];
    unfold session_close, logging, bind; simpl;
    by (eexists _, _, fetched, channels; split; [reflexivity |]).
Qed.

Lemma scrape_loop_single_session (skip_sites : list string)
    (min_session_interval : Q) (first : nat)
    (sites_times : list (string * Q)) :
  ∀ (session : option nat) (w : World),
    Forall (λ target, (target.2 < min_session_interval)%Q) sites_times →
    (session = None ∧ sessions_created w = first) ∨
    (session = Some first ∧ sessions_created w = S first) →
    ∃ c session' w' n,
      scrape_loop ext env skip_sites min_session_interval session
        sites_times w = (c, session', w') ∧
      vias (trace w') = replicate n (Some first) ++ vias (trace w) ∧
      ((session' = None ∧ sessions_created w' = first ∧ n = 0 ∧
        session = None) ∨
       (session' = Some first ∧ sessions_created w' = S first ∧
        (session = None → 0 < n))).
Proof.
  induction sites_times as [|[site sleep_time] rest IH];
    intros session w Hshort Hheld.
  { exists Continue, session, w, 0. split; [done |]. split; [done |].
    destruct Hheld as [[-> ?] | [-> ?]]; [by left | by right]. }
  apply Forall_cons in Hshort as [Hfirst Hshort]. simpl in Hfirst. simpl.
  destruct (should_skip ext skip_sites site) eqn:Hskip.
  { rewrite (loop_body_skip ext env _ _ _ _ _ _ Hskip).
    destruct (IH session (emit (EvLog INFO (MsgSkipping site)) w) Hshort Hheld)
      as (c & s' & w' & n & -> & Hvia & Hend).
    by exists c, s', w', n. }
  destruct (loop_body_channel skip_sites min_session_interval session site
              sleep_time w Hskip)
    as (c & s1 & w1 & via & -> & Hvia1 & -> & Hway).
  apply Qlt_bool_true in Hfirst. rewrite Hfirst in Hway.
  destruct Hway as [-> Hses].
  assert (default (sessions_created w) session = first ∧
          sessions_created w1 = S first) as [Hsid Hses'].
  { destruct Hheld as [[-> ?] | [-> ?]]; simpl in *; split; congruence. }
  rewrite Hsid in *.
  destruct c.
  - destruct (IH (Some first) w1 Hshort) as (c & s' & w' & n & -> & Hvia & Hend);
      [by right |].
    exists c, s', w', (S n). split; [done |].
    split.
    { by rewrite Hvia, Hvia1, replicate_S_end, <- app_assoc. }
    destruct Hend as [(_ & _ & _ & [=]) | (-> & Hcount & _)].
    right. split; [done |]. split; [done |]. lia.
  - exists Break, (Some first), w1, 1. split; [done |]. split; [done |].
    right. split; [done |]. split; [done |]. lia.
  - exists (Propagate e), (Some first), w1, 1.
    split; [done |]. split; [done |].
    right. split; [done |]. split; [done |]. lia.
Qed.

(** X6. A batch whose delays are all below [min_session_interval] is
    fetched through a single session: the run opens at most one session,
    none when it makes no call, and every call of the run goes through
    that session. *)
Theorem single_session_below_threshold (sites : list string) (times : list Q)
    (min_session_interval : Q) (w : World) :
  Forall (λ sleep_time, (sleep_time < min_session_interval)%Q) times →
  ∃ r w' n,
    scrape_sites ext env sites times min_session_interval w = (r, w') ∧
    requests_made w' = n + requests_made w ∧
    vias (trace w') =
      replicate n (Some (sessions_created w)) ++ vias (trace w) ∧
    sessions_created w' =
      (if decide (n = 0) then 0 else 1) + sessions_created w.
Proof.
  intros Hshort.
  assert (Forall (λ target : string * Q, (target.2 < min_session_interval)%Q)
            (zip sites times)) as Hall.
  { apply Forall_forall. intros [site t] Hin. simpl.
    apply elem_of_zip_r in Hin.
    by apply (proj1 (Forall_forall _ _) Hshort). }
  unfold scrape_sites, os_listdir.
  destruct (grammar_pages w) as [files|].
  2:{ by exists (Raise FileNotFoundError), w, 0. }
  destruct (scrape_loop_single_session
              (map before_first_dot (map fst (map_to_list files)))
              min_session_interval (sessions_created w) (zip sites times)
              None w Hall ltac:(by left))
    as (c & s' & w' & n & Hrun & Hvia & Hend).
  destruct (scrape_loop_channels
              (map before_first_dot (map fst (map_to_list files)))
              min_session_interval (zip sites times) None w)
    as (c' & s'' & w'' & fetched & channels & Hrun' & _ & Hreq & Hvia' & Hall').
  destruct (scrape_loop_effects ext env
              (map before_first_dot (map fst (map_to_list files)))
              min_session_interval (zip sites times) None w)
    as (c3 & s3 & w3 & fetched3 & Hrun3 & _ & _ & Hreq3 & Hcount3 & _).
  rewrite Hrun in Hrun', Hrun3. injection Hrun' as <- <- <-.
  injection Hrun3 as <- <- <-. rewrite Hrun.
  assert (length fetched3 = n) as Hn.
  { assert (length (vias (trace w')) = length (requested (trace w')))
      as Hsame.
    { clear. induction (trace w') as [|[] tr IH]; simpl; congruence. }
    assert (length (vias (trace w)) = length (requested (trace w)))
      as Hsame0.
    { clear. induction (trace w) as [|[] tr IH]; simpl; congruence. }
    rewrite Hvia, Hreq3, !length_app, length_replicate, length_reverse
      in Hsame. lia. }
  rewrite Hn in Hcount3.
  assert (sessions_created w' =
            (if decide (n = 0) then 0 else 1) + sessions_created w) as Hcount.
  { destruct Hend as [(_ & -> & -> & _) | (_ & -> & Hpos)]; [done |].
    specialize (Hpos eq_refl). destruct n; [lia | done]. }
  destruct c as [| |e]; [| |destruct e]; destruct s' as [sid|];
    unfold session_close, logging, bind; simpl;
    by (eexists _, _, n; split; [reflexivity |]).
Qed.

(** ** A negative delay *)

(** X7. A negative delay is found only after the call: when the first
    target of a batch passes the resume filter, its call is answered by a
    response with a successful status and its delay is negative, the run
    ends with the [ValueError] of [time.sleep]. The call was made; nothing
    was yielded, written or logged; and a session that was opened for the
    call (the delay is below the threshold) is not closed. *)
Theorem negative_delay_ends_the_run (site : string) (sites : list string)
    (sleep_time : Q) (times : list Q) (min_session_interval : Q) (w : World)
    (files : gmap string FileContent) (response : Response) :
  grammar_pages w = Some files →
  should_skip ext (resume_set files) site = false →
  network env (requests_made w) (quote ext site ":/?=&") = Responded response →
  raise_for_status ext response = None →
  status_code response ≠ 429%Z →
  (sleep_time < 0)%Q →
  ∃ w',
    scrape_sites ext env (site :: sites) (sleep_time :: times)
      min_session_interval w = (Raise (ValueError MsgNegativeSleep), w') ∧
    trace w' =
      (if Qlt_bool sleep_time min_session_interval
       then [EvGet (Some (sessions_created w)) (quote ext site ":/?=&");
             EvSessionOpen (sessions_created w)]
       else [EvGet None (quote ext site ":/?=&")]) ++ trace w ∧
    grammar_pages w' = Some files ∧
    requests_made w' = S (requests_made w).
Proof.
  intros Hdir Hskip Hnet Hok Hstatus Hneg.
  apply Z.eqb_neq in Hstatus. apply Qlt_bool_true in Hneg.
  unfold scrape_sites, os_listdir. rewrite Hdir. fold (resume_set files).
  unfold should_skip in Hskip. simpl. unfold loop_body. rewrite Hskip.
  unfold choose_session.
  destruct (Qlt_bool sleep_time min_session_interval) eqn:Hshort.
  - unfold try_except, try_block, http_get, bind, requests_Session. simpl.
    rewrite Hnet. unfold process_response, try_except, bind, time_sleep, raise.
    rewrite Hok, Hstatus, Hneg. simpl.
    assert (Qle_bool min_session_interval sleep_time = false) as ->.
    { apply Qle_bool_false. by apply Qlt_bool_true. }
    eexists. split; [reflexivity |]. done.
  - unfold try_except, try_block, http_get, bind. simpl.
    rewrite Hnet. unfold process_response, try_except, bind, time_sleep, raise.
    rewrite Hok, Hstatus, Hneg. simpl.
    eexists. split; [reflexivity |]. done.
Qed.

End ExecutorExtras.

(** ** The persistence sink and the classifier, continued *)

Section SinkExtras.

Variable ext : Externals.
Variable env : Environment.

(** X9. Whether [save_source_code] returns or raises, it never removes
    or changes a file under another name than the one it writes to: every
    file of the store is still there afterwards, with its content unless
    it is the file under [save_target], and the store has at most that
    one name more. It makes no network call and opens no session. *)
Theorem save_source_code_frame (soup : Soup) (site : string) (w : World) :
  ∃ r w',
    save_source_code ext env soup site w = (r, w') ∧
    (∀ name, name ≠ save_target ext env site w →
             default ∅ (grammar_pages w') !! name
             = default ∅ (grammar_pages w) !! name) ∧
    (∀ name, is_Some (default ∅ (grammar_pages w) !! name) →
             is_Some (default ∅ (grammar_pages w') !! name)) ∧
    requests_made w' = requests_made w ∧
    sessions_created w' = sessions_created w ∧
    requested (trace w') = requested (trace w).
Proof.
  destruct (save_source_code_effects ext env soup site w)
    as (w0 & Hrun0 & Hext & _).
  assert (requested (trace w0) = requested (trace w)) as Hreq.
  { eapply extends_omap; [| exact Hext]. by intros []. }
  destruct (write_fails env (save_target ext env site w)) eqn:Hdisk.
  - destruct (save_source_code_write_refused ext env soup site w Hdisk)
      as (w' & Hrun & _ & Hstore & Hreqs & Hses & _).
    rewrite Hrun in Hrun0. injection Hrun0 as <-.
    exists (Ok tt), w'. rewrite Hstore. done.
  - destruct (save_source_code_write_accepted ext env soup site w Hdisk)
      as (w' & Hrun & Hstore & _ & Hreqs & Hses & _).
    rewrite Hrun in Hrun0. injection Hrun0 as <-.
    exists (Ok tt), w'. rewrite Hstore. simpl. split; [done |].
    split; [intros name Hname; by rewrite lookup_insert_ne |].
    split; [| done].
    intros name Hthere.
    destruct (decide (name = save_target ext env site w)) as [-> | Hname].
    + rewrite lookup_insert_eq. by eexists.
    + by rewrite lookup_insert_ne.
Qed.

(** X10. The outcomes of [process_response], which makes no network
    call. When the HTTP status check raises, it returns
    [RETRYABLE_ERROR] with [scraped = false]; when the response passes the
    check with status 429, it returns [HARD_STOP] with [scraped = false];
    on these two paths nothing is raised. On the remaining path, the
    successful one, the result it returns is [CONTINUE] with
    [scraped = true]; an exception can leave it on this path only (from
    the wait or from saving the page). Every result carries the target
    and the delay that were given. *)
Theorem process_response_outcomes (response : Response) (site : string)
    (sleep_time : Q) (w : World) :
  ∃ r w',
    process_response ext env response site sleep_time w = (r, w') ∧
    match r with
    | Ok result =>
        result =
          match raise_for_status ext response with
          | Some _ => mkResponseResult RETRYABLE_ERROR site sleep_time false
          | None =>
              if (status_code response =? 429)%Z
              then mkResponseResult HARD_STOP site sleep_time false
              else mkResponseResult CONTINUE site sleep_time true
          end
    | Raise e =>
        raise_for_status ext response = None ∧ status_code response ≠ 429%Z
    end ∧
    requests_made w' = requests_made w ∧
    requested (trace w') = requested (trace w).
Proof.
  destruct (process_response_effects ext env response site sleep_time w)
    as (r & w' & Hrun & _ & Hext & (Hreqs & _) & _).
  exists r, w'. split; [exact Hrun |].
  split; [| split; [done |];
            by destruct (local_observations _ _ Hext) as (_ & ? & _)].
  destruct (raise_for_status ext response) as [e|] eqn:Hstatus.
  { rewrite (process_response_http_error ext env response site sleep_time
               w e Hstatus) in Hrun. by injection Hrun as <- <-. }
  destruct (decide (status_code response = 429%Z)) as [Hlimit | Hlimit].
  { rewrite (process_response_rate_limited ext env response site sleep_time
               w Hstatus Hlimit) in Hrun.
    injection Hrun as <- <-. by rewrite Hlimit. }
  destruct r as [result|e]; [| done].
  destruct (Qlt_bool sleep_time 0) eqn:Hneg.
  { revert Hrun.
    unfold process_response, time_sleep, try_except, bind, ret, raise.
    rewrite Hstatus. apply Z.eqb_neq in Hlimit. by rewrite Hlimit, Hneg. }
  destruct (sleep_interrupted env (requests_made w)) eqn:Hint.
  { revert Hrun.
    unfold process_response, time_sleep, try_except, bind, ret, raise.
    rewrite Hstatus. apply Z.eqb_neq in Hlimit.
    by rewrite Hlimit, Hneg, Hint. }
  apply Qlt_bool_false in Hneg.
  rewrite (process_response_success ext env response site sleep_time w
             Hstatus Hlimit Hneg Hint) in Hrun.
  injection Hrun as <- <-. apply Z.eqb_neq in Hlimit. by rewrite Hlimit.
Qed.

End SinkExtras.

(** ** The delay allocator, continued *)

Section AllocatorExtras.

Variable env : Environment.

(** Without a budget left the filling loop stops at once. *)
Lemma fill_loop_no_budget (n_requests : Z) (indices : list nat)
    (remaining_time : Q) (sleep_intervals : list Q) (w : World) :
  (remaining_time <= 0)%Q →
  fill_loop env n_requests indices remaining_time sleep_intervals w
    = (Ok (remaining_time, sleep_intervals), w).
Proof.
  intros Hspent. apply Qle_bool_iff in Hspent.
  destruct indices as [|i indices]; simpl; [done |]. by rewrite Hspent.
Qed.

(** X11. When the floor uses up the budget
    ([n_requests * min_sleep = max_total_time]), [gen_random_sleeps]
    returns [n_requests] delays that are all equal to [min_sleep]; the
    random generator is consulted for the shuffle alone. *)
Theorem gen_random_sleeps_exact_budget
    (min_sleep max_total_time : Q) (n_requests : Z) (w : World) :
  (0 <= n_requests)%Z →
  (inject_Z n_requests * min_sleep == max_total_time)%Q →
  ∃ w',
    gen_random_sleeps env min_sleep max_total_time n_requests w
      = (Ok (replicate (Z.to_nat n_requests) min_sleep), w') ∧
    only_draws w w'.
Proof.
  intros Hn Hexact. unfold gen_random_sleeps.
  assert (Qlt_bool max_total_time (inject_Z n_requests * min_sleep) = false)
    as ->.
  { apply Qlt_bool_false. lra. }
  unfold bind at 1. rewrite fill_loop_no_budget by lra. simpl.
  rewrite length_replicate, Z2Nat.id, Z.eqb_refl by done. simpl.
  destruct (random_shuffle_spec env (replicate (Z.to_nat n_requests) min_sleep)
              w) as (shuffled & w' & -> & Hperm & Hdraws).
  exists w'. split; [| done].
  symmetry in Hperm. apply replicate_Permutation in Hperm. by rewrite Hperm.
Qed.

(** X12. A negative number of requests never gives a schedule:
    [gen_random_sleeps] raises [ValueError], with the message of the
    budget check when the floor exceeds the budget and with that of the
    length check otherwise (the list of delays is empty, which a negative
    count does not match); it logs the message and draws nothing from the
    random generator. *)
Theorem gen_random_sleeps_negative_count
    (min_sleep max_total_time : Q) (n_requests : Z) (w : World) :
  (n_requests < 0)%Z →
  ∃ msg,
    gen_random_sleeps env min_sleep max_total_time n_requests w
      = (Raise (ValueError msg), emit (EvLog ERROR msg) w) ∧
    msg = if Qlt_bool max_total_time (inject_Z n_requests * min_sleep)
          then MsgBudgetExceeded
          else MsgSizeMismatch 0 n_requests.
Proof.
  intros Hn. unfold gen_random_sleeps.
  destruct (Qlt_bool max_total_time (inject_Z n_requests * min_sleep)).
  { by exists MsgBudgetExceeded. }
  rewrite Z2Nat.nonpos by lia. simpl. unfold bind at 1. unfold ret. simpl.
  destruct n_requests; [lia | lia |].
  by exists (MsgSizeMismatch 0 (Z.neg p)).
Qed.

(** X13. For no request at all and a budget that is not negative,
    [gen_random_sleeps] returns the empty schedule and does nothing else:
    no draw from the random generator, no log record. *)
Theorem gen_random_sleeps_no_request (min_sleep max_total_time : Q)
    (w : World) :
  (0 <= max_total_time)%Q →
  gen_random_sleeps env min_sleep max_total_time 0 w = (Ok [], w).
Proof.
  intros Hbudget. unfold gen_random_sleeps.
  assert (Qlt_bool max_total_time (inject_Z 0 * min_sleep) = false) as ->.
  { apply Qlt_bool_false. change (inject_Z 0) with 0%Q. lra. }
  done.
Qed.

End AllocatorExtras.

(** * The catalog reader and the clock *)

Section CatalogExtras.

Variable host : Host.

(** The loop over the values of one grammar point appends one URL for
    each value, or raises [TypeError] at a value that is no string. *)
Lemma urls_loop_effects (urls : list Json) :
  ∀ (scrape_sites : list string) (p : Process),
    ∃ r,
      urls_loop urls scrape_sites p = (r, p) ∧
      match r with
      | Done sites =>
          ∃ added, sites = scrape_sites ++ added ∧
                   length added = length urls ∧
                   Forall (λ site, ∃ path, site = base_url +:+ path) added
      | Crash e => e = TypeError
      end.
Proof.
  induction urls as [|url urls IH]; intros sites p; simpl.
  { exists (Done sites). split; [done |]. exists []. by rewrite app_nil_r. }
  unfold pbind.
  destruct url as [| | |u| |]; simpl; try by eexists (Crash _).
  destruct (IH (sites ++ [base_url +:+ u]) p) as (r & -> & Hr).
  exists r. split; [done |].
  destruct r as [out|e]; [| done].
  destruct Hr as (added & -> & Hlen & Hall).
  exists ((base_url +:+ u) :: added).
  split; [by rewrite <- app_assoc |]. split; [simpl; lia |].
  constructor; [by exists u | done].
Qed.

Lemma grammar_points_loop_effects (grammar_points : list Json) :
  ∀ (scrape_sites : list string) (p : Process),
    ∃ r,
      grammar_points_loop grammar_points scrape_sites p = (r, p) ∧
      match r with
      | Done sites =>
          ∃ added, sites = scrape_sites ++ added ∧
                   Forall (λ site, ∃ path, site = base_url +:+ path) added
      | Crash e => e = TypeError ∨ e = AttributeError
      end.
Proof.
  induction grammar_points as [|point points IH]; intros sites p; simpl.
  { exists (Done sites). split; [done |]. exists []. by rewrite app_nil_r. }
  unfold pbind at 1.
  destruct point as [| | | | |members]; simpl;
    try (eexists (Crash _); split; [reflexivity | by right]).
  unfold pbind.
  destruct (urls_loop_effects (map snd members) sites p) as (r1 & -> & Hr1).
  destruct r1 as [sites1|e]; [| exists (Crash e); split; [done | by left]].
  destruct Hr1 as (added1 & -> & _ & Hall1).
  destruct (IH (sites ++ added1) p) as (r & -> & Hr).
  exists r. split; [done |].
  destruct r as [out|e]; [| done].
  destruct Hr as (added & -> & Hall).
  exists (added1 ++ added). split; [by rewrite <- app_assoc |].
  by apply Forall_app.
Qed.

(** The two loops do not look at the process. *)
Lemma urls_loop_pure (urls : list Json) :
  ∀ scrape_sites : list string,
    ∃ r, ∀ p : Process, urls_loop urls scrape_sites p = (r, p).
Proof.
  induction urls as [|url urls IH]; intros sites; simpl.
  { by exists (Done sites). }
  unfold pbind.
  destruct url as [| | |u| |]; simpl; try by eexists (Crash _).
  destruct (IH (sites ++ [base_url +:+ u])) as (r & Hr).
  exists r. intros p. by rewrite Hr.
Qed.

Lemma grammar_points_loop_pure (grammar_points : list Json) :
  ∀ scrape_sites : list string,
    ∃ r, ∀ p : Process,
      grammar_points_loop grammar_points scrape_sites p = (r, p).
Proof.
  induction grammar_points as [|point points IH]; intros sites; simpl.
  { by exists (Done sites). }
  destruct point as [| | | | |members]; simpl; try by eexists (Crash _).
  destruct (urls_loop_pure (map snd members) sites) as (r1 & Hr1).
  destruct r1 as [sites1|e].
  - destruct (IH sites1) as (r & Hr). exists r. intros p.
    unfold pbind. simpl. by rewrite Hr1, Hr.
  - exists (Crash e). intros p. unfold pbind. simpl. by rewrite Hr1.
Qed.

(** [get_scrape_urls] touches neither the world of the scraper nor the
    result file. *)
Lemma get_scrape_urls_quiet (json_path n_level : string) (p : Process) :
  ∃ r p',
    get_scrape_urls host json_path n_level p = (r, p') ∧
    world p' = world p ∧
    scrape_results p' = scrape_results p.
Proof.
  unfold get_scrape_urls.
  destruct (json_load host (requests_made (world p)) json_path)
    as [| |e|data]; try by eexists _, _.
  unfold pbind at 1.
  destruct data as [| | | | |members]; simpl; try by eexists _, _.
  unfold pbind at 1.
  destruct (match lookup_member n_level members with
            | Some v => v
            | None => JArray []
            end) as [| | |s|items|entries]; simpl; try by eexists _, _.
  all: match goal with
       | |- context [grammar_points_loop ?points [] ?q] =>
           destruct (grammar_points_loop_effects points [] q) as (r & -> & _)
       end.
  all: by exists r, p.
Qed.

(** What [get_scrape_urls] returns or raises depends on the process only
    through the number of network calls made, the moment the catalog is
    read at. *)
Lemma get_scrape_urls_same_moment (json_path n_level : string)
    (p q : Process) :
  requests_made (world q) = requests_made (world p) →
  (get_scrape_urls host json_path n_level q).1
    = (get_scrape_urls host json_path n_level p).1.
Proof.
  intros Hmoment. unfold get_scrape_urls. rewrite Hmoment.
  destruct (json_load host (requests_made (world p)) json_path)
    as [| |e|data]; try done.
  unfold pbind at 1 3.
  destruct data as [| | | | |members]; simpl; try done.
  unfold pbind.
  destruct (match lookup_member n_level members with
            | Some v => v
            | None => JArray []
            end) as [| | |s|items|entries]; simpl; try done.
  all: match goal with
       | |- context [grammar_points_loop ?points [] _] =>
           destruct (grammar_points_loop_pure points []) as (r & Hr);
           by rewrite !Hr
       end.
Qed.

(** X14. Whatever the catalog file holds, [get_scrape_urls] changes
    nothing but the log. When the file is missing or is no JSON it logs
    one error and returns the empty list. Any other exception of opening
    or reading the file (an [OSError] such as [PermissionError], a
    [UnicodeDecodeError], a [RecursionError]) leaves it as it was raised,
    and nothing is logged. When the file is loaded nothing is logged
    either: it returns a list whose every URL starts with the base URL
    ["https://bunpro.jp"], or it raises [AttributeError] or [TypeError]
    (the data has another shape than a dict of lists of dicts of
    strings). *)
Theorem get_scrape_urls_outcomes (json_path n_level : string) (p : Process) :
  ∃ r p',
    get_scrape_urls host json_path n_level p = (r, p') ∧
    world p' = world p ∧
    scrape_results p' = scrape_results p ∧
    match json_load host (requests_made (world p)) json_path with
    | NoSuchFile =>
        r = Done [] ∧
        journal p' =
          (length (trace (world p)), ERROR, NoticeJsonNotFound json_path)
          :: journal p
    | NotJson =>
        r = Done [] ∧
        journal p' =
          (length (trace (world p)), ERROR, NoticeJsonDecode json_path)
          :: journal p
    | Unreadable e => r = Crash e ∧ p' = p
    | Loaded data =>
        p' = p ∧
        match r with
        | Done sites => Forall (λ site, ∃ path, site = base_url +:+ path) sites
        | Crash e => e = AttributeError ∨ e = TypeError
        end
    end.
Proof.
  unfold get_scrape_urls.
  destruct (json_load host (requests_made (world p)) json_path)
    as [| |e|data].
  - eexists _, _. split; [reflexivity |]. by simpl.
  - eexists _, _. split; [reflexivity |]. by simpl.
  - by eexists _, _.
  - unfold pbind at 1.
    destruct data as [| | | | |members]; simpl;
      try (eexists _, _; split; [reflexivity |];
           split; [done |]; split; [done |]; split; [done | by left]).
    unfold pbind at 1.
    destruct (match lookup_member n_level members with
              | Some v => v
              | None => JArray []
              end) as [| | |s|items|entries]; simpl;
      try (eexists _, _; split; [reflexivity |];
           split; [done |]; split; [done |]; split; [done | by right]).
    all: match goal with
         | |- context [grammar_points_loop ?points [] ?q] =>
             destruct (grammar_points_loop_effects points [] q)
               as (r & -> & Hr)
         end.
    all: exists r, p; split; [done |]; split; [done |]; split; [done |].
    all: split; [done |].
    all: destruct r as [sites|e]; [| tauto].
    all: destruct Hr as (added & -> & Hall); done.
Qed.

Lemma urls_loop_strings (paths : list string) :
  ∀ (scrape_sites : list string) (p : Process),
    urls_loop (map JString paths) scrape_sites p =
      (Done (scrape_sites ++ map (String.append base_url) paths), p).
Proof.
  induction paths as [|path paths IH]; intros sites p; simpl.
  { by rewrite app_nil_r. }
  unfold pbind. simpl. by rewrite IH, <- app_assoc.
Qed.

Lemma grammar_points_loop_catalog
    (grammar_points : list (list (string * string))) :
  ∀ (scrape_sites : list string) (p : Process),
    match catalog_level grammar_points with
    | JArray items =>
        grammar_points_loop items scrape_sites p =
          (Done (scrape_sites
                 ++ map (String.append base_url) (catalog_paths grammar_points)),
           p)
    | _ => False
    end.
Proof.
  unfold catalog_level, catalog_paths.
  induction grammar_points as [|point points IH]; intros sites p; simpl.
  { by rewrite app_nil_r. }
  unfold pbind. simpl. rewrite map_map. simpl.
  rewrite <- (map_map snd JString), urls_loop_strings.
  rewrite IH, map_app, <- app_assoc. done.
Qed.

(** X15. For a catalog of the shape [update_grammar_points] writes (a
    dict from levels to lists of grammar points, each a dict from names to
    paths), [get_scrape_urls] returns the paths of the grammar points of
    the level, in the order of the catalog, each with the base URL in
    front; a level the catalog does not have is a level without grammar
    points. Nothing is logged. *)
Theorem get_scrape_urls_catalog (json_path n_level : string) (p : Process)
    (members : list (string * Json))
    (grammar_points : list (list (string * string))) :
  json_load host (requests_made (world p)) json_path
    = Loaded (JObject members) →
  default (JArray []) (lookup_member n_level members)
    = catalog_level grammar_points →
  get_scrape_urls host json_path n_level p =
    (Done (map (String.append base_url) (catalog_paths grammar_points)), p).
Proof.
  intros Hload Hlevel. unfold get_scrape_urls. rewrite Hload.
  unfold pbind at 1. simpl. unfold pbind at 1.
  change (match lookup_member n_level members with
          | Some v => v
          | None => JArray []
          end) with (default (JArray []) (lookup_member n_level members)).
  rewrite Hlevel.
  pose proof (grammar_points_loop_catalog grammar_points [] p) as Hloop.
  unfold catalog_level in *. simpl. done.
Qed.

End CatalogExtras.

Section ClockExtras.

Variable host : Host.

(** On datetimes with a time of day within the day, the comparison field
    by field is the comparison of the instants. *)
Lemma datetime_gt_instants (a b : DateTime) :
  valid_datetime a → valid_datetime b →
  datetime_gt a b = true ↔ (datetime_sub b a < 0)%Z.
Proof.
  intros (Hh & Hm & Hs & Hu) (Hh' & Hm' & Hs' & Hu').
  unfold datetime_gt, datetime_fields, datetime_sub, seconds_of_day. simpl.
  destruct a as [o h m s u], b as [o' h' m' s' u']. simpl in *.
  repeat match goal with
         | |- context [(?x <? ?y)%Z] => destruct (Z.ltb_spec x y)
         | |- context [(?x =? ?y)%Z] => destruct (Z.eqb_spec x y)
         end; simpl; split; try done; try lia.
Qed.

(** X16. With the end omitted, [calc_duration] never raises: it returns
    the number of seconds from the start (the current time when the start
    is omitted too) to 23:59:59 of the same day, keeping the microseconds
    of the start. The result is the whole number
    [86399 - (3600 * hour + 60 * minute + second)], between 0 and 86399,
    whatever the date and the microseconds; nothing is logged. *)
Theorem calc_duration_to_end_of_day (start : option DateTime) (p : Process) :
  valid_datetime (default (now host (requests_made (world p))) start) →
  ∃ seconds,
    calc_duration host start None p = (Done seconds, p) ∧
    (seconds ==
       inject_Z (86399 - seconds_of_day
                           (default (now host (requests_made (world p)))
                              start)))%Q ∧
    (0 <= seconds <= 86399)%Q.
Proof.
  set (begin := default (now host (requests_made (world p))) start).
  intros Hvalid.
  assert (calc_duration host start None p =
            (if datetime_gt begin (datetime_replace begin 23 59 59)
             then (notify ERROR NoticeEndBeforeStart >>>
                   pcrash (DurationError NoticeEndBeforeStart)) p
             else (Done (total_seconds
                           (datetime_sub (datetime_replace begin 23 59 59)
                              begin)), p))) as ->.
  { unfold calc_duration, pbind, datetime_now, pret. subst begin.
    destruct start as [start|]; simpl;
      by destruct (datetime_gt _ _). }
  destruct Hvalid as (Hh & Hm & Hs & Hu).
  assert (valid_datetime (datetime_replace begin 23 59 59)) as Hend.
  { unfold valid_datetime. simpl. lia. }
  assert (datetime_sub (datetime_replace begin 23 59 59) begin
          = ((86399 - seconds_of_day begin) * 10 ^ 6)%Z) as Hsub.
  { unfold datetime_sub, seconds_of_day. simpl. lia. }
  assert (0 <= 86399 - seconds_of_day begin <= 86399)%Z as Hrange.
  { unfold seconds_of_day. lia. }
  destruct (datetime_gt begin (datetime_replace begin 23 59 59)) eqn:Hgt.
  { apply datetime_gt_instants in Hgt; [| done | done]. lia. }
  eexists. split; [reflexivity |]. rewrite Hsub.
  assert (total_seconds ((86399 - seconds_of_day begin) * 10 ^ 6)
          == inject_Z (86399 - seconds_of_day begin))%Q as Heq.
  { unfold total_seconds, Qeq. simpl. lia. }
  split; [exact Heq |]. rewrite Heq.
  split.
  - rewrite <- (Zle_Qle 0). lia.
  - rewrite <- (Zle_Qle _ 86399). lia.
Qed.


End ClockExtras.

(** * The entry point *)

Section EntryExtras.

Variable ext : Externals.
Variable env : Environment.
Variable host : Host.

(** ** The waits of a run *)

Lemma process_response_waits (response : Response) (site : string)
    (sleep_time : Q) (w : World) :
  ∃ r w',
    process_response ext env response site sleep_time w = (r, w') ∧
    (sleeps (trace w') = sleeps (trace w) ∨
     sleeps (trace w') = sleep_time :: sleeps (trace w)).
Proof.
  destruct (raise_for_status ext response) as [e|] eqn:Hstatus.
  { rewrite (process_response_http_error ext env _ _ _ _ e Hstatus).
    eexists _, _. split; [reflexivity |]. by left. }
  destruct (decide (status_code response = 429%Z)) as [Hlimit | Hlimit].
  { rewrite (process_response_rate_limited ext env _ _ _ _ Hstatus Hlimit).
    eexists _, _. split; [reflexivity |]. by left. }
  destruct (Qlt_bool sleep_time 0) eqn:Hneg.
  { unfold process_response, time_sleep, try_except, bind, ret, raise.
    rewrite Hstatus. apply Z.eqb_neq in Hlimit. rewrite Hlimit, Hneg.
    eexists _, _. split; [reflexivity |]. by left. }
  destruct (sleep_interrupted env (requests_made w)) eqn:Hint.
  { unfold process_response, time_sleep, try_except, bind, ret, raise.
    rewrite Hstatus. apply Z.eqb_neq in Hlimit. rewrite Hlimit, Hneg, Hint.
    eexists _, _. split; [reflexivity |]. by left. }
  apply Qlt_bool_false in Hneg.
  rewrite (process_response_success ext env _ _ _ _ Hstatus Hlimit Hneg Hint).
  destruct (save_source_code_effects ext env (BeautifulSoup (text response))
              site (emit (EvSleep sleep_time) w)) as (w' & -> & Hext & _).
  eexists _, _. split; [reflexivity |]. right. simpl.
  by rewrite (store_events_no_wait _ _ Hext).
Qed.

Lemma loop_body_waits (skip_sites : list string) (min_session_interval : Q)
    (session : option nat) (site : string) (sleep_time : Q) (w : World) :
  ∃ c session' w',
    loop_body ext env skip_sites min_session_interval session site
      sleep_time w = (c, session', w') ∧
    (sleeps (trace w') = sleeps (trace w) ∨
     sleeps (trace w') = sleep_time :: sleeps (trace w)).
Proof.
  destruct (should_skip ext skip_sites site) eqn:Hskip.
  { rewrite (loop_body_skip ext env _ _ _ _ _ _ Hskip).
    eexists _, _, _. split; [reflexivity |]. by left. }
  destruct (loop_body_structure ext env skip_sites min_session_interval
              session site sleep_time w Hskip)
    as (s1 & w1 & Hbk1 & _ & Hbody).
  destruct (bookkeeping_observations _ _ Hbk1) as (_ & _ & Hs1 & _).
  assert (∃ r w2,
            try_except
              (try_block ext env s1 (quote ext site ":/?=&") site sleep_time)
              (except_clauses site sleep_time) w1 = (r, w2) ∧
            (sleeps (trace w2) = sleeps (trace w1) ∨
             sleeps (trace w2) = sleep_time :: sleeps (trace w1)))
    as (r & w2 & Htry & Hs2).
  { destruct (network env (requests_made w1) (quote ext site ":/?=&"))
      as [response|e|] eqn:Hnet.
    - rewrite (try_block_responded ext env _ _ _ _ _ _ Hnet).
      destruct (process_response_waits response site sleep_time
                  (after_call s1 (quote ext site ":/?=&") w1))
        as (r & w2 & -> & Hs).
      destruct r as [result|e].
      + destruct (String.eqb (action result) "break");
          eexists _, _; (split; [reflexivity |]); exact Hs.
      + eexists _, _. split; [reflexivity |]. exact Hs.
    - rewrite (try_block_failed ext env _ _ _ _ _ e Hnet).
      eexists _, _. split; [reflexivity |]. by left.
    - rewrite (try_block_interrupted ext env _ _ _ _ _ Hnet).
      eexists _, _. split; [reflexivity |]. by left. }
  destruct (Hbody r w2 Htry) as (s' & w' & Hrun & Hbk2 & _).
  destruct (bookkeeping_observations _ _ Hbk2) as (_ & _ & Hs3 & _).
  eexists _, s', w'. split; [exact Hrun |].
  rewrite Hs3, <- Hs1. exact Hs2.
Qed.

Lemma scrape_loop_waits (skip_sites : list string) (min_session_interval : Q)
    (sites_times : list (string * Q)) :
  ∀ (session : option nat) (w : World),
    ∃ c session' w' waits,
      scrape_loop ext env skip_sites min_session_interval session
        sites_times w = (c, session', w') ∧
      sleeps (trace w') = waits ++ sleeps (trace w) ∧
      Forall (λ d, d ∈ sites_times.*2) waits.
Proof.
  induction sites_times as [|[site sleep_time] rest IH]; intros session w.
  { by exists Continue, session, w, []. }
  simpl.
  destruct (loop_body_waits skip_sites min_session_interval session site
              sleep_time w) as (c & s1 & w1 & -> & Hs1).
  assert (∃ waits, sleeps (trace w1) = waits ++ sleeps (trace w) ∧
                   Forall (λ d, d ∈ sleep_time :: rest.*2) waits)
    as (first & Hfirst & Hin).
  { destruct Hs1 as [Hs1 | Hs1].
    - by exists [].
    - exists [sleep_time]. split; [done |]. constructor; [by left | done]. }
  destruct c; [| by exists Break, s1, w1, first
                | by exists (Propagate e), s1, w1, first].
  destruct (IH s1 w1) as (c & s2 & w2 & waits & -> & Hs2 & Hall).
  exists c, s2, w2, (waits ++ first). split; [done |].
  split; [by rewrite Hs2, Hfirst, <- app_assoc |].
  apply Forall_app. split; [| done].
  eapply Forall_impl; [exact Hall |]. intros d Hd. by right.
Qed.

(** ** A run of the executor, as the entry point starts it *)

(** The end of a run adds bookkeeping to what the loop did. *)
Lemma scrape_sites_after_loop (sites : list string) (times : list Q)
    (min_session_interval : Q) (w : World) (files : gmap string FileContent) :
  grammar_pages w = Some files →
  ∃ c session w1 r w',
    scrape_loop ext env (resume_set files) min_session_interval None
      (zip sites times) w = (c, session, w1) ∧
    scrape_sites ext env sites times min_session_interval w = (r, w') ∧
    bookkeeping w1 w' ∧
    sessions_created w' = sessions_created w1 ∧
    vias (trace w') = vias (trace w1).
Proof.
  intros Hdir. unfold scrape_sites, os_listdir. rewrite Hdir.
  fold (resume_set files).
  destruct (scrape_loop ext env (resume_set files) min_session_interval None
              (zip sites times) w) as [[c s'] w1].
  exists c, s', w1.
  destruct c as [| |e]; [| |destruct e]; destruct s' as [sid|];
    unfold session_close, logging, bind; simpl;
    (eexists _, _; split; [reflexivity |]; split; [reflexivity |];
     split; [| done]);
    unfold bookkeeping; simpl; (split; [by repeat constructor | done]).
Qed.

Lemma requested_vias_length (tr : list Event) :
  length (vias tr) = length (requested tr).
Proof. induction tr as [|[] tr IH]; simpl; congruence. Qed.

(** A run whose delays are all below the threshold. *)
Lemma scrape_sites_below_threshold (sites : list string) (times : list Q)
    (min_session_interval : Q) (w : World) :
  Forall (λ sleep_time, (sleep_time < min_session_interval)%Q) times →
  ∃ r w' results n waits,
    scrape_sites ext env sites times min_session_interval w = (r, w') ∧
    outcomes w' = outcomes w ++ results ∧
    requests_made w' = n + requests_made w ∧
    vias (trace w') =
      replicate n (Some (sessions_created w)) ++ vias (trace w) ∧
    sessions_created w' =
      (if decide (n = 0) then 0 else 1) + sessions_created w ∧
    sleeps (trace w') = waits ++ sleeps (trace w) ∧
    Forall (λ d, d ∈ times) waits ∧
    (grammar_pages w = None → w' = w ∧ results = [] ∧ n = 0).
Proof.
  intros Hshort.
  destruct (grammar_pages w) as [files|] eqn:Hdir.
  2:{ exists (Raise FileNotFoundError), w, [], 0, [].
      unfold scrape_sites, os_listdir. rewrite Hdir.
      by rewrite app_nil_r. }
  assert (Forall (λ target : string * Q, (target.2 < min_session_interval)%Q)
            (zip sites times)) as Hall.
  { apply Forall_forall. intros [site t] Hin. simpl.
    apply elem_of_zip_r in Hin.
    by apply (proj1 (Forall_forall _ _) Hshort). }
  destruct (scrape_sites_after_loop sites times min_session_interval w files
              Hdir) as (c & s' & w1 & r & w' & Hloop & Hrun & Hbk & Hses & Hvia).
  destruct (scrape_loop_single_session ext env (resume_set files)
              min_session_interval (sessions_created w) (zip sites times)
              None w Hall ltac:(by left))
    as (c1 & s1 & w2 & n & Hloop1 & Hvia1 & Hend).
  destruct (scrape_loop_results ext env (resume_set files)
              min_session_interval (zip sites times) None w)
    as (c2 & s2 & w3 & results & Hloop2 & Hy & _).
  destruct (scrape_loop_waits (resume_set files) min_session_interval
              (zip sites times) None w)
    as (c3 & s3 & w4 & waits & Hloop3 & Hs & Hwaits).
  destruct (scrape_loop_effects ext env (resume_set files)
              min_session_interval (zip sites times) None w)
    as (c4 & s4 & w5 & fetched & Hloop4 & _ & _ & Hreq & Hcount & _).
  rewrite Hloop in Hloop1, Hloop2, Hloop3, Hloop4.
  injection Hloop1 as <- <- <-. injection Hloop2 as <- <- <-.
  injection Hloop3 as <- <- <-. injection Hloop4 as <- <- <-.
  destruct (bookkeeping_observations _ _ Hbk) as (Hy' & _ & Hs' & _).
  destruct Hbk as (_ & _ & Hreqs & _).
  assert (length fetched = n) as Hn.
  { pose proof (requested_vias_length (trace w1)) as Hsame.
    pose proof (requested_vias_length (trace w)) as Hsame0.
    rewrite Hvia1, Hreq, !length_app, length_replicate, length_reverse
      in Hsame. lia. }
  exists r, w', results, n, waits. split; [done |].
  split; [unfold outcomes; by rewrite Hy', Hy, reverse_app, reverse_involutive |].
  split; [by rewrite Hreqs, Hcount, Hn |].
  split; [by rewrite Hvia |].
  split.
  { rewrite Hses.
    destruct Hend as [(_ & -> & -> & _) | (_ & -> & Hpos)]; [done |].
    specialize (Hpos eq_refl). destruct n; [lia | done]. }
  split; [by rewrite Hs' |].
  split; [| done].
  eapply Forall_impl; [exact Hwaits |]. intros d Hd.
  apply list_elem_of_fmap in Hd as ([site t] & -> & Hin).
  by apply elem_of_zip_r in Hin.
Qed.

(** ** The steps of the entry point *)

Lemma entry_run_refl (w : World) : entry_run 0 w w [].
Proof.
  unfold entry_run. rewrite app_nil_r. split; [done |].
  split; [by exists [] |]. split; [done |]. split; [by exists [] | done].
Qed.

Lemma entry_run_trans (k1 k2 : nat) (w1 w2 w3 : World)
    (results1 results2 : list ResponseResult) :
  entry_run k1 w1 w2 results1 → entry_run k2 w2 w3 results2 →
  entry_run (k1 + k2) w1 w3 (results1 ++ results2).
Proof.
  intros (Hy1 & (ch1 & Hv1 & Hsome1 & Hn1) & Hses1 & (ws1 & Hs1 & Hd1) & Hdir1)
         (Hy2 & (ch2 & Hv2 & Hsome2 & Hn2) & Hses2 & (ws2 & Hs2 & Hd2) & Hdir2).
  unfold entry_run.
  split; [by rewrite Hy2, Hy1, app_assoc |].
  split.
  { exists (ch2 ++ ch1). split; [by rewrite Hv2, Hv1, app_assoc |].
    split; [by apply Forall_app |]. rewrite length_app. lia. }
  split; [lia |].
  split.
  { exists (ws2 ++ ws1). split; [by rewrite Hs2, Hs1, app_assoc |].
    by apply Forall_app. }
  intros Hdir. destruct (Hdir1 Hdir) as (Hdir' & Hreq1 & ->).
  destruct (Hdir2 Hdir') as (Hdir'' & Hreq2 & ->).
  split; [done |]. split; [congruence | done].
Qed.

Lemma entry_run_weaken (k k' : nat) (w w' : World)
    (results : list ResponseResult) :
  k ≤ k' → entry_run k w w' results → entry_run k' w w' results.
Proof.
  intros Hk (Hy & Hvia & Hses & Hrest). unfold entry_run.
  split; [done |]. split; [done |]. split; [lia | done].
Qed.

Lemma entry_run_draws (w w' : World) : only_draws w w' → entry_run 0 w w' [].
Proof.
  intros (Hdir & Hreq & Hses & Htr). unfold entry_run, outcomes.
  rewrite Htr, app_nil_r. split; [done |].
  split; [by exists [] |]. split; [lia |]. split; [by exists [] |].
  intros Hnone. by rewrite Hdir.
Qed.

Lemma drawn_delay_below_threshold (d : Q) :
  drawn_delay d → (d < MIN_SESSION_INTERVAL)%Q.
Proof.
  intros (z & -> & Hz). unfold MIN_SLEEP, MAX_SLEEP in Hz.
  unfold MIN_SESSION_INTERVAL, Qlt. simpl. lia.
Qed.

Lemma entry_run_scrape_sites (sites : list string) (times : list Q)
    (w : World) :
  Forall drawn_delay times →
  ∃ r w' results,
    scrape_sites ext env sites times MIN_SESSION_INTERVAL w = (r, w') ∧
    entry_run 1 w w' results.
Proof.
  intros Hdrawn.
  destruct (scrape_sites_below_threshold sites times MIN_SESSION_INTERVAL w)
    as (r & w' & results & n & waits & Hrun & Hy & Hreq & Hvia & Hses & Hs
        & Hwaits & Hdir).
  { eapply Forall_impl; [exact Hdrawn |]. apply drawn_delay_below_threshold. }
  exists r, w', results. split; [done |]. unfold entry_run.
  split; [done |].
  split.
  { exists (replicate n (Some (sessions_created w))).
    split; [done |]. rewrite length_replicate. split; [| done].
    apply Forall_replicate. by eexists. }
  split; [rewrite Hses; destruct (decide (n = 0)); lia |].
  split.
  { exists waits. split; [done |].
    eapply Forall_impl; [exact Hwaits |]. intros d Hd.
    by apply (proj1 (Forall_forall _ _) Hdrawn). }
  intros Hnone. destruct (Hdir Hnone) as (-> & -> & _). done.
Qed.

(** The delays of a level: one for each URL, by [random.randint]. *)
Lemma sleep_times_loop_effects (n_requests : nat) :
  ∀ p : Process,
    ∃ times p',
      sleep_times_loop env n_requests p = (Done times, p') ∧
      length times = n_requests ∧
      Forall drawn_delay times ∧
      only_draws (world p) (world p') ∧
      journal p' = journal p ∧
      scrape_results p' = scrape_results p.
Proof.
  induction n_requests as [|n IH]; intros p.
  { exists [], p. by unfold only_draws. }
  simpl. unfold pbind at 1. unfold random_randint. simpl.
  change (Z.of_nat (Z.to_nat (MAX_SLEEP - MIN_SLEEP + 1))) with 7%Z.
  set (k := Z.to_nat (entropy env (rng_draws (world p)) mod 7)).
  destruct (IH (set_world (count_draw (world p)) p))
    as (times & p' & Hrun & Hlen & Hall & Hdraws & Hj & Hres).
  unfold pbind. rewrite Hrun.
  exists (inject_Z (MIN_SLEEP + Z.of_nat k) :: times), p'.
  split; [done |]. split; [simpl; lia |].
  split.
  { constructor; [| done].
    exists (MIN_SLEEP + Z.of_nat k)%Z. split; [done |].
    pose proof (Z.mod_pos_bound (entropy env (rng_draws (world p))) 7
                  ltac:(lia)) as Hmod.
    unfold MIN_SLEEP, MAX_SLEEP, k. lia. }
  destruct Hdraws as (? & ? & ? & ?). by unfold only_draws.
Qed.

(** One level. *)
Lemma level_body_effects (level : string) (all_results : list ResponseResult)
    (p : Process) :
  ∃ r p' results,
    level_body ext env host level all_results p = (r, p') ∧
    entry_run 1 (world p) (world p') results ∧
    scrape_results p' = scrape_results p ∧
    (r = Done (all_results ++ results) ∨ ∃ e, r = Crash e).
Proof.
  unfold level_body. unfold pbind at 1. unfold notify at 1.
  set (p1 := {| world := world p;
                journal := (length (trace (world p)), INFO,
                            NoticeStartingLevel level) :: journal p;
                scrape_results := scrape_results p |}).
  unfold pbind at 1.
  destruct (get_scrape_urls_quiet host JSON_PATH level p1)
    as (r1 & p2 & -> & Hw2 & Hres2).
  change (world p1) with (world p) in Hw2.
  change (scrape_results p1) with (scrape_results p) in Hres2.
  assert (entry_run 1 (world p) (world p2) []) as Hstill.
  { rewrite Hw2. apply (entry_run_weaken 0); [lia | apply entry_run_refl]. }
  destruct r1 as [sites|e].
  2:{ exists (Crash e), p2, []. split; [done |]. split; [done |].
      split; [done |]. right. by eexists. }
  destruct sites as [|site sites].
  { eexists _, _, []. split; [reflexivity |]. simpl.
    split; [done |]. split; [done |]. left. by rewrite app_nil_r. }
  unfold pbind at 1.
  destruct (sleep_times_loop_effects (length (site :: sites)) p2)
    as (times & p3 & -> & _ & Hdrawn & Hdraws & _ & Hres3).
  unfold pbind at 1. unfold list_scrape_sites.
  destruct (entry_run_scrape_sites (site :: sites) times (world p3) Hdrawn)
    as (r & w' & results & -> & Hstep).
  assert (entry_run 1 (world p) w' results) as Hall.
  { apply (entry_run_trans 0 1 _ (world p3) _ [] results); [| done].
    rewrite <- Hw2. by apply entry_run_draws. }
  destruct r as [[]|e].
  - destruct Hstep as (Hy & _). rewrite Hy, drop_app_length.
    eexists _, _, results. split; [reflexivity |]. simpl.
    split; [done |]. split; [congruence | by left].
  - eexists _, _, results. split; [reflexivity |]. simpl.
    split; [done |]. split; [congruence |]. right. by eexists.
Qed.

(** The loop over the levels. *)
Lemma levels_loop_effects (levels : list string) :
  ∀ (all_results : list ResponseResult) (p : Process),
    ∃ r p' results,
      levels_loop ext env host levels all_results p = (r, p') ∧
      entry_run (length levels) (world p) (world p') results ∧
      scrape_results p' = scrape_results p ∧
      (r = Done (all_results ++ results) ∨ ∃ e, r = Crash e).
Proof.
  induction levels as [|level levels IH]; intros all_results p.
  { exists (Done all_results), p, []. split; [done |].
    split; [apply entry_run_refl |]. split; [done |].
    left. by rewrite app_nil_r. }
  simpl. unfold pbind.
  destruct (level_body_effects level all_results p)
    as (r1 & p1 & results1 & -> & Hstep1 & Hres1 & Hr1).
  destruct Hr1 as [-> | [e ->]].
  - destruct (IH (all_results ++ results1) p1)
      as (r & p' & results & -> & Hstep & Hres & Hr).
    exists r, p', (results1 ++ results). split; [done |].
    split; [by apply (entry_run_trans 1 (length levels) _ (world p1)) |].
    split; [congruence |]. by rewrite app_assoc.
  - exists (Crash e), p1, results1. split; [done |].
    split.
    { apply (entry_run_weaken 1); [lia | done]. }
    split; [done |]. right. by eexists.
Qed.

(** ** Without the output directory *)

Lemma scrape_sites_without_directory (sites : list string) (times : list Q)
    (min_session_interval : Q) (w : World) :
  grammar_pages w = None →
  scrape_sites ext env sites times min_session_interval w
    = (Raise FileNotFoundError, w).
Proof.
  intros Hdir. unfold scrape_sites, os_listdir. by rewrite Hdir.
Qed.

(** One level: a level without URLs is passed over, a level with URLs
    ends the run at the listing of the directory. *)
Lemma level_body_without_directory (level : string)
    (all_results : list ResponseResult) (p : Process) :
  grammar_pages (world p) = None →
  ∃ r p',
    level_body ext env host level all_results p = (r, p') ∧
    grammar_pages (world p') = None ∧
    requests_made (world p') = requests_made (world p) ∧
    match level_urls host p level with
    | Done [] => r = Done all_results
    | Done (_ :: _) => r = Crash (ScraperError FileNotFoundError)
    | Crash e => r = Crash e
    end.
Proof.
  intros Hdir. unfold level_body. unfold pbind at 1. unfold notify at 1.
  set (p1 := {| world := world p;
                journal := (length (trace (world p)), INFO,
                            NoticeStartingLevel level) :: journal p;
                scrape_results := scrape_results p |}).
  unfold pbind at 1. unfold level_urls.
  rewrite <- (get_scrape_urls_same_moment host JSON_PATH level p p1 eq_refl).
  destruct (get_scrape_urls_quiet host JSON_PATH level p1)
    as (r1 & p2 & -> & Hw2 & _).
  change (world p1) with (world p) in Hw2. simpl.
  destruct r1 as [sites|e].
  2:{ exists (Crash e), p2. by rewrite Hw2. }
  destruct sites as [|site sites].
  { eexists _, _. split; [reflexivity |]. simpl. by rewrite Hw2. }
  unfold pbind at 1.
  destruct (sleep_times_loop_effects (length (site :: sites)) p2)
    as (times & p3 & -> & _ & _ & (Hdir3 & Hreq3 & _) & _).
  rewrite Hw2 in Hdir3, Hreq3. rewrite Hdir in Hdir3.
  unfold pbind at 1. unfold list_scrape_sites.
  rewrite (scrape_sites_without_directory _ _ _ _ Hdir3).
  eexists _, _. split; [reflexivity |]. simpl. done.
Qed.

(** The loop over the levels: it comes to its end only when no level has
    a URL. *)
Lemma levels_loop_without_directory (levels : list string) :
  ∀ (all_results : list ResponseResult) (p : Process),
    grammar_pages (world p) = None →
    ∃ r p',
      levels_loop ext env host levels all_results p = (r, p') ∧
      match r with
      | Done out =>
          out = all_results ∧
          Forall (λ level, level_urls host p level = Done []) levels
      | Crash e =>
          (e = ScraperError FileNotFoundError ∧
           ∃ level site sites,
             level ∈ levels ∧ level_urls host p level = Done (site :: sites)) ∨
          (∃ level, level ∈ levels ∧ level_urls host p level = Crash e)
      end.
Proof.
  induction levels as [|level levels IH]; intros all_results p Hdir.
  { by exists (Done all_results), p. }
  simpl. unfold pbind.
  destruct (level_body_without_directory level all_results p Hdir)
    as (r1 & p1 & -> & Hdir1 & Hreq1 & Hr1).
  destruct (level_urls host p level) as [[|site sites]|e] eqn:Hlevel;
    subst r1.
  - destruct (IH all_results p1 Hdir1) as (r & p' & -> & Hr).
    assert (∀ level', level_urls host p1 level' = level_urls host p level')
      as Hsame.
    { intros level'. unfold level_urls.
      by apply get_scrape_urls_same_moment. }
    exists r, p'. split; [done |].
    destruct r as [out|e].
    + destruct Hr as (-> & Hall). split; [done |].
      constructor; [done |].
      eapply Forall_impl; [exact Hall |]. intros level' Hl.
      by rewrite <- Hsame.
    + destruct Hr as [(-> & level' & site & sites & Hin & Hl)
                     | (level' & Hin & Hl)].
      * left. split; [done |]. exists level', site, sites.
        rewrite <- Hsame. split; [by right | done].
      * right. exists level'. rewrite <- Hsame. split; [by right | done].
  - eexists _, _. split; [reflexivity |]. left. split; [done |].
    exists level, site, sites. split; [by left | done].
  - eexists _, _. split; [reflexivity |]. right.
    exists level. split; [by left | done].
Qed.

(** ** The entry point as a whole *)

(** X18. The entry point touches [scrape_results.json] only after the
    loop over the levels. While the levels are run the file is as it was
    before, and an exception raised there (an interrupt, a missing
    directory, a catalog of another shape) ends the run with the file
    untouched, whatever had been collected. When the loop comes to its
    end the file is written, and when that write succeeds the run
    completes and the file holds exactly the results the executor yielded
    during the run, in the order they were yielded. *)
Theorem results_file_written_at_the_end (p : Process) :
  ∃ r1 p1 results,
    levels_loop ext env host LEVELS [] p = (r1, p1) ∧
    outcomes (world p1) = outcomes (world p) ++ results ∧
    scrape_results p1 = scrape_results p ∧
    match r1 with
    | Crash e => main ext env host p = (Crash e, p1)
    | Done all_results =>
        all_results = results ∧
        ∃ p',
          main ext env host p =
            (if dump_fails host then Crash OSError else Done tt, p') ∧
          world p' = world p1 ∧
          (if dump_fails host then True
           else scrape_results p' = Some results)
    end.
Proof.
  destruct (levels_loop_effects LEVELS [] p)
    as (r1 & p1 & results & Hrun & (Hy & _) & Hres & Hr).
  exists r1, p1, results. split; [done |]. split; [done |].
  split; [done |].
  unfold main, pbind. rewrite Hrun.
  destruct Hr as [-> | [e ->]]; [| done].
  split; [done |]. unfold json_dump.
  destruct (dump_fails host); by eexists.
Qed.

(** X19. With the constants of the entry point, every wait of a run is
    a whole number of seconds from 2 to 8; every network call goes
    through a session, none is an isolated request (the delays are below
    [MIN_SESSION_INTERVAL]); and at most one session is opened for each of
    the six levels. *)
Theorem entry_point_is_polite (p : Process) :
  ∃ r p' channels waits,
    main ext env host p = (r, p') ∧
    vias (trace (world p')) = channels ++ vias (trace (world p)) ∧
    Forall is_Some channels ∧
    requests_made (world p') = length channels + requests_made (world p) ∧
    sleeps (trace (world p')) = waits ++ sleeps (trace (world p)) ∧
    Forall (λ d, ∃ z : Z, d = inject_Z z ∧ (2 <= z <= 8)%Z) waits ∧
    sessions_created (world p') ≤ 6 + sessions_created (world p).
Proof.
  destruct (levels_loop_effects LEVELS [] p)
    as (r & p1 & results & Hrun
        & (_ & (channels & Hvia & Hsome & Hreq) & Hses & (waits & Hs & Hd) & _)
        & _ & Hr).
  assert (∃ r' p',
            main ext env host p = (r', p') ∧ world p' = world p1)
    as (r' & p' & Hmain & Hw).
  { unfold main, pbind. rewrite Hrun.
    destruct Hr as [-> | [e ->]]; [| by eexists _, _].
    unfold json_dump. destruct (dump_fails host); by eexists _, _. }
  exists r', p', channels, waits. rewrite Hw. done.
Qed.

(** X20. Without the output directory the entry point fetches nothing:
    the executor lists the directory before its first call and fails on
    it. No network call is made and nothing is yielded, and the directory
    is still missing afterwards. A level with a URL makes the run fail:
    the run ends in the loop over the levels, with the
    [FileNotFoundError] of the listing or with the exception of an
    earlier level's catalog, and [scrape_results.json] is not touched. The
    run completes only when no level has a URL, and then the result file
    holds the empty list. *)
Theorem entry_point_needs_the_directory (p : Process) :
  grammar_pages (world p) = None →
  ∃ r p',
    main ext env host p = (r, p') ∧
    requests_made (world p') = requests_made (world p) ∧
    outcomes (world p') = outcomes (world p) ∧
    grammar_pages (world p') = None ∧
    match r with
    | Done _ =>
        scrape_results p' = Some [] ∧
        Forall (λ level, level_urls host p level = Done []) LEVELS
    | Crash e =>
        (e = OSError ∧ dump_fails host = true ∧
         Forall (λ level, level_urls host p level = Done []) LEVELS) ∨
        (scrape_results p' = scrape_results p ∧
         ((e = ScraperError FileNotFoundError ∧
           ∃ level site sites,
             level ∈ LEVELS ∧ level_urls host p level = Done (site :: sites)) ∨
          (∃ level, level ∈ LEVELS ∧ level_urls host p level = Crash e)))
    end ∧
    ((∃ level site sites,
        level ∈ LEVELS ∧ level_urls host p level = Done (site :: sites)) →
     ∃ e, r = Crash e ∧ scrape_results p' = scrape_results p).
Proof.
  intros Hdir.
  destruct (levels_loop_effects LEVELS [] p)
    as (r1 & p1 & results & Hrun & (Hy & _ & _ & _ & Hnone) & Hres & _).
  destruct (Hnone Hdir) as (Hdir1 & Hreq1 & ->).
  rewrite app_nil_r in Hy.
  destruct (levels_loop_without_directory LEVELS [] p Hdir)
    as (r2 & p2 & Hrun2 & Hr).
  rewrite Hrun in Hrun2. injection Hrun2 as <- <-.
  assert (∀ level site sites,
            level ∈ LEVELS →
            level_urls host p level = Done (site :: sites) →
            Forall (λ level, level_urls host p level = Done []) LEVELS →
            False) as Hclash.
  { intros level site sites Hin Hl Hall.
    rewrite Forall_forall in Hall. specialize (Hall level Hin). congruence. }
  unfold main, pbind. rewrite Hrun.
  destruct r1 as [out|e].
  - destruct Hr as (-> & Hall). unfold json_dump.
    destruct (dump_fails host).
    + eexists _, _. split; [reflexivity |].
      split; [done |]. split; [done |]. split; [done |].
      split; [by left |].
      intros (level & site & sites & Hin & Hl).
      destruct (Hclash level site sites Hin Hl Hall).
    + eexists _, _. split; [reflexivity |]. simpl.
      split; [done |]. split; [done |]. split; [done |].
      split; [done |].
      intros (level & site & sites & Hin & Hl).
      destruct (Hclash level site sites Hin Hl Hall).
  - exists (Crash e), p1. split; [done |].
    split; [done |]. split; [done |]. split; [done |].
    split; [by right |]. intros _. by exists e.
Qed.

Lemma levels_loop_no_catalog (levels : list string) :
  (∀ k, json_load host k JSON_PATH = NoSuchFile ∨
        json_load host k JSON_PATH = NotJson) →
  ∀ (all_results : list ResponseResult) (p : Process),
    ∃ p',
      levels_loop ext env host levels all_results p = (Done all_results, p') ∧
      world p' = world p ∧
      scrape_results p' = scrape_results p ∧
      length (alarms (journal p')) = length levels + length (alarms (journal p)).
Proof.
  intros Hmissing.
  induction levels as [|level levels IH]; intros all_results p.
  { by exists p. }
  simpl. unfold pbind at 1.
  assert (∃ p1,
            level_body ext env host level all_results p
              = (Done all_results, p1) ∧
            world p1 = world p ∧
            scrape_results p1 = scrape_results p ∧
            length (alarms (journal p1)) = S (length (alarms (journal p))))
    as (p1 & -> & Hw & Hres & Hlen).
  { unfold level_body, pbind, notify, get_scrape_urls. simpl.
    destruct (Hmissing (requests_made (world p))) as [-> | ->]; simpl;
      by eexists. }
  destruct (IH all_results p1) as (p' & -> & Hw' & Hres' & Hlen').
  exists p'. split; [done |]. split; [congruence |]. split; [congruence |].
  lia.
Qed.

(** X21. Without a catalog the entry point has nothing to do: when
    [grammar_points.json] is missing or is no JSON, the file is read once
    for each of the six levels and an error is logged each time; no
    network call is made, no delay is drawn, the output store is not
    touched, and the result file is written with an empty list. *)
Theorem entry_point_without_catalog (p : Process) :
  (∀ k, json_load host k JSON_PATH = NoSuchFile ∨
        json_load host k JSON_PATH = NotJson) →
  ∃ p',
    main ext env host p =
      (if dump_fails host then Crash OSError else Done tt, p') ∧
    world p' = world p ∧
    scrape_results p' =
      (if dump_fails host then scrape_results p else Some []) ∧
    length (alarms (journal p')) = 6 + length (alarms (journal p)).
Proof.
  intros Hmissing.
  destruct (levels_loop_no_catalog LEVELS Hmissing [] p)
    as (p1 & Hrun & Hw & Hres & Hlen).
  unfold main, pbind. rewrite Hrun. unfold json_dump.
  destruct (dump_fails host).
  - by exists p1.
  - eexists. split; [reflexivity |]. by simpl.
Qed.

End EntryExtras.

(** * The encoded URL *)

(** The two hexadecimal digits [urllib.parse.quote] writes for a byte
    are read back as that byte. *)
Lemma hex_digits_round_trip (c : ascii) :
  hex_digit_value (hex_digit (N_of_ascii c / 16)) = Some (N_of_ascii c / 16)%N ∧
  hex_digit_value (hex_digit (N_of_ascii c mod 16))
    = Some (N_of_ascii c mod 16)%N ∧
  ascii_of_N (16 * (N_of_ascii c / 16) + N_of_ascii c mod 16) = c.
Proof.
  destruct c as [[] [] [] [] [] [] [] []]; vm_compute; done.
Qed.

Lemma urllib_unquote_plain (c : ascii) (rest : string) :
  Ascii.eqb c "%" = false →
  urllib_unquote (String c rest) = String c (urllib_unquote rest).
Proof. intros Hc. simpl. by rewrite Hc. Qed.

Lemma urllib_unquote_escape (h l : ascii) (rest : string) (a b : N) :
  hex_digit_value h = Some a → hex_digit_value l = Some b →
  urllib_unquote (String "%" (String h (String l rest)))
    = String (ascii_of_N (16 * a + b)) (urllib_unquote rest).
Proof.
  intros Hh Hl.
  change (urllib_unquote (String "%" (String h (String l rest))))
    with (match hex_digit_value h, hex_digit_value l with
          | Some a, Some b =>
              String (ascii_of_N (16 * a + b)) (urllib_unquote rest)
          | _, _ => String "%" (urllib_unquote (String h (String l rest)))
          end).
  by rewrite Hh, Hl.
Qed.

Lemma urllib_quote_cons (c : ascii) (rest safe : string) :
  urllib_quote (String c rest) safe =
    if always_safe c || contains_char c safe
    then String c (urllib_quote rest safe)
    else String "%" (String (hex_digit (N_of_ascii c / 16))
           (String (hex_digit (N_of_ascii c mod 16))
              (urllib_quote rest safe))).
Proof. done. Qed.

(** A character that is kept is not the percent sign, unless the caller
    declares the percent sign safe. *)
Lemma kept_character_is_no_percent (c : ascii) (safe : string) :
  contains_char "%" safe = false →
  always_safe c || contains_char c safe = true →
  Ascii.eqb c "%" = false.
Proof.
  intros Hsafe Hkept. destruct (Ascii.eqb_spec c "%") as [-> | ?]; [| done].
  rewrite Hsafe in Hkept. by vm_compute in Hkept.
Qed.

Lemma urllib_quote_app (a b safe : string) :
  urllib_quote (a +:+ b) safe = urllib_quote a safe +:+ urllib_quote b safe.
Proof.
  induction a as [|c a IH]; [done |].
  change (String c a +:+ b) with (String c (a +:+ b)).
  rewrite !urllib_quote_cons, IH.
  by destruct (always_safe c || contains_char c safe).
Qed.

Lemma string_length_app (a b : string) :
  String.length (a +:+ b) = String.length a + String.length b.
Proof. induction a as [|c a IH]; simpl; [done | by rewrite IH]. Qed.

Lemma urllib_quote_length (s safe : string) :
  String.length s ≤ String.length (urllib_quote s safe).
Proof.
  induction s as [|c s IH]; [done |].
  rewrite urllib_quote_cons.
  destruct (always_safe c || contains_char c safe); simpl; lia.
Qed.

(** X22. The URL the executor calls decodes to the target: for the
    reference models of [urllib.parse], [unquote(quote(site,
    safe=":/?=&"))] is [site], for every target (a [str], whose bytes
    are valid UTF-8, where the model of [unquote] agrees with the
    library). *)
Theorem encoded_site_decodes_to_site (site : string) :
  unquote python_libs (quote python_libs site ":/?=&") = site.
Proof.
  simpl. induction site as [|c site IH]; [done |].
  rewrite urllib_quote_cons.
  destruct (always_safe c || contains_char c ":/?=&") eqn:Hkept.
  - rewrite urllib_unquote_plain
      by by apply (kept_character_is_no_percent c ":/?=&").
    by rewrite IH.
  - destruct (hex_digits_round_trip c) as (Hh & Hl & Hc).
    rewrite (urllib_unquote_escape _ _ _ _ _ Hh Hl), Hc, IH. done.
Qed.

(** X23. The executor encodes a target that is encoded already a second
    time: [quote(site, safe=":/?=&")] does not keep the percent sign, so
    each ["%"] of a target is sent as ["%25"], and the URL called for a
    target that holds a percent escape is not the target. *)
Theorem percent_escape_is_encoded_again (before after : string) :
  quote python_libs (before +:+ "%" +:+ after) ":/?=&" =
    quote python_libs before ":/?=&" +:+ "%25"
    +:+ quote python_libs after ":/?=&" ∧
  quote python_libs (before +:+ "%" +:+ after) ":/?=&"
    ≠ before +:+ "%" +:+ after.
Proof.
  assert (quote python_libs (before +:+ "%" +:+ after) ":/?=&" =
            quote python_libs before ":/?=&" +:+ "%25"
            +:+ quote python_libs after ":/?=&") as Hquote.
  { simpl. by rewrite urllib_quote_app. }
  split; [exact Hquote |].
  intros Heq. rewrite Hquote in Heq.
  apply (f_equal String.length) in Heq.
  rewrite !string_length_app in Heq. simpl in Heq.
  rewrite ?string_length_app in Heq. simpl in Heq.
  pose proof (urllib_quote_length before ":/?=&").
  pose proof (urllib_quote_length after ":/?=&").
  simpl in *. lia.
Qed.

(** * The further properties on examples *)

(** The artifact of ["ga"] is in the store when the batch is run. *)
Lemma stored_targets_are_skipped_witness :
  ∃ w',
    scrape_sites python_libs (quiet [] false) [grammar_point "ga"] [2%Q] 30
      (in_store {["ga.html" := Bytes "first"]}) = (Ok tt, w') ∧
    calls w' = calls (in_store {["ga.html" := Bytes "first"]}) ∧
    outcomes w' = outcomes (in_store {["ga.html" := Bytes "first"]}) ∧
    grammar_pages w' = Some {["ga.html" := Bytes "first"]}.
Proof.
  destruct (stored_targets_are_skipped python_libs (quiet [] false)
              [grammar_point "ga"] [2%Q] 30
              (in_store {["ga.html" := Bytes "first"]})
              {["ga.html" := Bytes "first"]} ltac:(reflexivity)
              ltac:(constructor;
                    [split; [eexists; by vm_compute | by vm_compute]
                    | constructor]))
    as (w' & Hrun & _ & Hcalls & Hout & Hdir & _).
  exists w'. split; [exact Hrun |]. split; [exact Hcalls |].
  split; [exact Hout | exact Hdir].
Defined.


(** Two targets with delays of 2 and 8 seconds, below a threshold of 30
    seconds. *)
Lemma single_session_below_threshold_witness :
  ∃ r w' n,
    scrape_sites python_libs (quiet [page "<p>ga</p>"; Failed Timeout] false)
      [grammar_point "ga"; grammar_point "wo"] [2; 8]%Q 30 fresh_world
      = (r, w') ∧
    requests_made w' = n + requests_made fresh_world ∧
    vias (trace w') =
      replicate n (Some (sessions_created fresh_world))
      ++ vias (trace fresh_world) ∧
    sessions_created w' =
      (if decide (n = 0) then 0 else 1) + sessions_created fresh_world.
Proof.
  apply (single_session_below_threshold python_libs
           (quiet [page "<p>ga</p>"; Failed Timeout] false)
           [grammar_point "ga"; grammar_point "wo"] [2; 8]%Q 30 fresh_world).
  repeat constructor.
Defined.

(** One target with a delay of minus one second. *)
Lemma negative_delay_ends_the_run_witness :
  ∃ w',
    scrape_sites python_libs (quiet [page "<p>ga</p>"] false)
      [grammar_point "ga"] [(-1)%Q] 30 fresh_world
      = (Raise (ValueError MsgNegativeSleep), w') ∧
    grammar_pages w' = Some ∅ ∧
    requests_made w' = S (requests_made fresh_world).
Proof.
  destruct (negative_delay_ends_the_run python_libs
              (quiet [page "<p>ga</p>"] false) (grammar_point "ga") []
              (-1) [] 30 fresh_world ∅ (mkResponse 200 "<p>ga</p>")
              ltac:(reflexivity) ltac:(by vm_compute) ltac:(by vm_compute)
              ltac:(by vm_compute) ltac:(by vm_compute) ltac:(by vm_compute))
    as (w' & Hrun & _ & Hdir & Hreq).
  exists w'. split; [exact Hrun |]. split; [exact Hdir | exact Hreq].
Defined.

(** Three requests of 2 seconds each in a budget of 6 seconds. *)
Lemma gen_random_sleeps_exact_budget_witness :
  ∃ w',
    gen_random_sleeps (quiet [] false) 2 6 3 fresh_world
      = (Ok (replicate (Z.to_nat 3) 2%Q), w') ∧
    only_draws fresh_world w'.
Proof.
  apply (gen_random_sleeps_exact_budget (quiet [] false) 2 6 3 fresh_world);
    [lia | by vm_compute].
Defined.

(** Minus three requests. *)
Lemma gen_random_sleeps_negative_count_witness :
  ∃ msg,
    gen_random_sleeps (quiet [] false) 2 20 (-3) fresh_world
      = (Raise (ValueError msg), emit (EvLog ERROR msg) fresh_world) ∧
    msg = if Qlt_bool 20 (inject_Z (-3) * 2)
          then MsgBudgetExceeded
          else MsgSizeMismatch 0 (-3).
Proof.
  apply (gen_random_sleeps_negative_count (quiet [] false) 2 20 (-3)
           fresh_world).
  lia.
Defined.

(** No request, a budget of 20 seconds. *)
Lemma gen_random_sleeps_no_request_witness :
  gen_random_sleeps (quiet [] false) 2 20 0 fresh_world = (Ok [], fresh_world).
Proof.
  apply (gen_random_sleeps_no_request (quiet [] false) 2 20 fresh_world).
  by vm_compute.
Defined.

(** The level N5 of a catalog with two grammar points. *)
Lemma get_scrape_urls_catalog_witness :
  get_scrape_urls (host_with (Loaded small_catalog)) JSON_PATH "N5"
    fresh_process =
    (Done (map (String.append base_url)
             (catalog_paths [[("ga", "/grammar_points/ga")];
                             [("wo", "/grammar_points/wo")]])),
     fresh_process).
Proof.
  apply (get_scrape_urls_catalog (host_with (Loaded small_catalog)) JSON_PATH
           "N5" fresh_process
           [("N5", catalog_level [[("ga", "/grammar_points/ga")];
                                  [("wo", "/grammar_points/wo")]]);
            ("N4", catalog_level [])]);
    reflexivity.
Defined.

(** From midnight to the end of the day. *)
Lemma calc_duration_to_end_of_day_witness :
  ∃ seconds,
    calc_duration (host_with NoSuchFile) None None fresh_process
      = (Done seconds, fresh_process) ∧
    (seconds ==
       inject_Z (86399 - seconds_of_day
                           (default (now (host_with NoSuchFile)
                                       (requests_made (world fresh_process)))
                              None)))%Q ∧
    (0 <= seconds <= 86399)%Q.
Proof.
  apply (calc_duration_to_end_of_day (host_with NoSuchFile) None
           fresh_process).
  unfold valid_datetime. simpl. lia.
Defined.


(** A catalog with two grammar points, and no output directory. *)
Lemma entry_point_needs_the_directory_witness :
  ∃ r p',
    main python_libs (quiet [] false) (host_with (Loaded small_catalog))
      process_without_directory = (r, p') ∧
    requests_made (world p') = requests_made (world process_without_directory) ∧
    outcomes (world p') = outcomes (world process_without_directory) ∧
    grammar_pages (world p') = None ∧
    r = Crash (ScraperError FileNotFoundError) ∧
    scrape_results p' = scrape_results process_without_directory.
Proof.
  destruct (entry_point_needs_the_directory python_libs (quiet [] false)
              (host_with (Loaded small_catalog)) process_without_directory
              ltac:(reflexivity))
    as (r & p' & Hrun & Hreq & Hout & Hdir & Hr & Hfails).
  exists r, p'. split; [exact Hrun |]. split; [exact Hreq |].
  split; [exact Hout |]. split; [exact Hdir |].
  destruct Hfails as (e & -> & Hfile).
  { exists "N5", (base_url +:+ "/grammar_points/ga"),
      [base_url +:+ "/grammar_points/wo"].
    split; [| reflexivity]. unfold LEVELS. rewrite !elem_of_cons. tauto. }
  split; [| exact Hfile].
  destruct Hr as [(_ & Hdump & _) | (_ & [(-> & _) | (level & Hin & Hl)])].
  - discriminate Hdump.
  - reflexivity.
  - exfalso. unfold LEVELS in Hin. rewrite !elem_of_cons in Hin.
    rewrite elem_of_nil in Hin.
    destruct Hin as [-> | [-> | [-> | [-> | [-> | [-> | []]]]]]];
      discriminate Hl.
Defined.

(** No catalog file at all. *)
Lemma entry_point_without_catalog_witness :
  ∃ p',
    main python_libs (quiet [] false) (host_with NoSuchFile) fresh_process =
      (if dump_fails (host_with NoSuchFile) then Crash OSError else Done tt,
       p') ∧
    world p' = world fresh_process ∧
    scrape_results p' =
      (if dump_fails (host_with NoSuchFile)
       then scrape_results fresh_process else Some []) ∧
    length (alarms (journal p')) = 6 + length (alarms (journal fresh_process)).
Proof.
  apply (entry_point_without_catalog python_libs (quiet [] false)
           (host_with NoSuchFile) fresh_process).
  intros k. by left.
Defined.
